(** * iothub: the AMQP message codec and the service client

    A shallow embedding of [commonamqp/message.go] and of the connection,
    redirect, send, feedback, direct-method and close paths of
    [iotservice/client.go], with the properties of the written
    specification stated and proved over it.

    Conventions of the embedding.
    - A Go [string] is a byte sequence: [string] of the Standard Library.
    - A Go [[]byte] is [bytes]: [None] is the nil slice, [Some l] a slice
      with the elements [l].
    - A Go [map[string]T] is a [gmap string T].  The functions embedded here
      only range over their maps, index and assign them and take their
      length, so the nil map and the empty map are both [∅].
    - An [interface{}] value is an [iface]: the dynamic kinds the code
      distinguishes by type assertion, and [VInt] for a value of another kind.
    - A run-time panic (failed type assertion, index or slice out of range)
      is the outcome [Panic]; a returned Go [error] is an ordinary value. *)

From Stdlib Require Import ZArith String Ascii List Lia.
From Stdlib Require Import Strings.Byte.
From stdpp Require Import base option list strings gmap fin_maps.

Import ListNotations.
Open Scope string_scope.
Open Scope Z_scope.

(** ** Go values *)

(** [time.Time], an instant; the zero value is [0]. *)
Definition Time : Type := Z.

Definition bytes : Type := option (list byte).

#[global] Instance byte_eq_dec : EqDecision byte.
Proof.
  intros x y. destruct (Byte.eqb x y) eqn:E.
  - left. by apply Byte.byte_dec_bl.
  - right. intros ->. by rewrite Byte.byte_dec_lb in E.
Defined.

(** [[]byte(s)] and [string(b)]. *)
Definition bytes_of_string (s : string) : bytes := Some (list_byte_of_string s).

Definition string_of_bytes (b : bytes) : string :=
  match b with
  | None => ""
  | Some l => string_of_list_byte l
  end.

Inductive iface : Type :=
  | VNil
  | VString (s : string)
  | VTime (t : Time)
  | VBytes (b : bytes)
  | VInt (z : Z).

#[global] Instance iface_eq_dec : EqDecision iface.
Proof. unfold Time, bytes. solve_decision. Defined.

(** The outcome of a Go computation that can panic. *)
Inductive res (A : Type) : Type :=
  | Ret (a : A)
  | Panic.
Arguments Ret {A} a.
Arguments Panic {A}.

Definition res_bind {A B} (r : res A) (k : A -> res B) : res B :=
  match r with
  | Ret a => k a
  | Panic => Panic
  end.

#[global] Instance res_mbind : MBind res := fun A B k r => res_bind r k.
#[global] Instance res_mret : MRet res := fun A a => Ret a.

(** [v.(string)] and [v.(time.Time)]: the single-value form, which panics
    when the dynamic type differs (and on the nil interface). *)
Definition assert_string (v : iface) : res string :=
  match v with
  | VString s => Ret s
  | _ => Panic
  end.

Definition assert_Time (v : iface) : res Time :=
  match v with
  | VTime t => Ret t
  | _ => Panic
  end.

Definition is_string (v : iface) : bool :=
  match v with VString _ => true | _ => false end.

Definition is_Time (v : iface) : bool :=
  match v with VTime _ => true | _ => false end.

(** [a[0]]: panics on an empty slice. *)
Definition index0 {A} (a : list A) : res A :=
  match a with
  | x :: _ => Ret x
  | [] => Panic
  end.

(** Go errors.  [errorString] is what [errors.New] and [fmt.Errorf] build;
    [DetachError] is the AMQP library's error for a detached link, the shape
    that carries a redirect: its [RemoteError] is a pointer to a remote
    error with a condition and an info map, [None] when the pointer is nil
    (a link detached without an error); [ExternalError] stands for any other
    error value a collaborator returns. *)
Record AmqpError : Type := mkAmqpError {
  Condition : string;
  ErrDescription : string;
  Info : gmap string iface
}.

Inductive error : Type :=
  | errorString (s : string)
  | DetachError (RemoteError : option AmqpError)
  | ExternalError (code : Z).

(** [amqp.ErrorLinkRedirect], the AMQP 1.0 link error condition. *)
Definition ErrorLinkRedirect : string := "amqp:link:redirect".

(** A Go pair [(value, error)] of which the caller uses the value only when
    the error is nil. *)
Inductive result (A : Type) : Type :=
  | Ok (a : A)
  | Err (e : error).
Arguments Ok {A} a.
Arguments Err {A} e.

(** ** Strings *)

Definition len (s : string) : Z := Z.of_nat (String.length s).

(** [s[lo:hi]]: panics unless [0 <= lo <= hi <= len(s)]. *)
Definition slice (s : string) (lo hi : Z) : res string :=
  if (0 <=? lo) && (lo <=? hi) && (hi <=? len s)
  then Ret (substring (Z.to_nat lo) (Z.to_nat (hi - lo)) s)
  else Panic.

(** [strings.Index(s, substr)]: the index of the first instance of [substr]
    in [s], or [-1]. *)
Fixpoint Index_from (i : Z) (s substr : string) : Z :=
  if String.prefix substr s then i
  else match s with
       | EmptyString => -1
       | String _ s' => Index_from (i + 1) s' substr
       end.

Definition strings_Index (s substr : string) : Z := Index_from 0 s substr.

(** [m[k]] on a [map[string]interface{}]: the nil interface when [k] is
    absent. *)
Definition map_index (m : gmap string iface) (k : string) : iface :=
  default VNil (m !! k).

(** ** The message models *)

(** [common.Message]. *)
Record Message : Type := mkMessage {
  MessageID : string;
  To : string;
  ExpiryTime : Time;
  EnqueuedTime : Time;
  CorrelationID : string;
  UserID : string;
  ConnectionDeviceID : string;
  ConnectionDeviceGenerationID : string;
  ConnectionAuthMethod : string;
  MessageSource : string;
  Payload : bytes;
  Properties : gmap string string
}.

(** [amqp.MessageProperties]: the fields the codec touches. *)
Record MessageProperties : Type := mkMessageProperties {
  mp_MessageID : iface;
  mp_UserID : bytes;
  mp_To : string;
  mp_CorrelationID : iface;
  mp_AbsoluteExpiryTime : Time
}.

(** [amqp.Message].  [am_Properties] is a pointer, [None] when nil.
    [am_Annotations] is a map keyed by [interface{}]; it is given as the
    sequence of its entries in the order the [range] loop visits them. *)
Record AmqpMessage : Type := mkAmqpMessage {
  am_Data : list bytes;
  am_Properties : option MessageProperties;
  am_Annotations : list (iface * iface);
  am_ApplicationProperties : gmap string iface
}.

Definition set_Properties (m : Message) (p : gmap string string) : Message :=
  mkMessage (MessageID m) (To m) (ExpiryTime m) (EnqueuedTime m)
    (CorrelationID m) (UserID m) (ConnectionDeviceID m)
    (ConnectionDeviceGenerationID m) (ConnectionAuthMethod m)
    (MessageSource m) (Payload m) p.

Definition set_EnqueuedTime (m : Message) (t : Time) : Message :=
  mkMessage (MessageID m) (To m) (ExpiryTime m) t
    (CorrelationID m) (UserID m) (ConnectionDeviceID m)
    (ConnectionDeviceGenerationID m) (ConnectionAuthMethod m)
    (MessageSource m) (Payload m) (Properties m).

Definition set_ConnectionDeviceID (m : Message) (s : string) : Message :=
  mkMessage (MessageID m) (To m) (ExpiryTime m) (EnqueuedTime m)
    (CorrelationID m) (UserID m) s
    (ConnectionDeviceGenerationID m) (ConnectionAuthMethod m)
    (MessageSource m) (Payload m) (Properties m).

Definition set_ConnectionDeviceGenerationID (m : Message) (s : string) : Message :=
  mkMessage (MessageID m) (To m) (ExpiryTime m) (EnqueuedTime m)
    (CorrelationID m) (UserID m) (ConnectionDeviceID m)
    s (ConnectionAuthMethod m)
    (MessageSource m) (Payload m) (Properties m).

Definition set_ConnectionAuthMethod (m : Message) (s : string) : Message :=
  mkMessage (MessageID m) (To m) (ExpiryTime m) (EnqueuedTime m)
    (CorrelationID m) (UserID m) (ConnectionDeviceID m)
    (ConnectionDeviceGenerationID m) s
    (MessageSource m) (Payload m) (Properties m).

Definition set_MessageSource (m : Message) (s : string) : Message :=
  mkMessage (MessageID m) (To m) (ExpiryTime m) (EnqueuedTime m)
    (CorrelationID m) (UserID m) (ConnectionDeviceID m)
    (ConnectionDeviceGenerationID m) (ConnectionAuthMethod m)
    s (Payload m) (Properties m).

(** ** commonamqp/message.go *)

Module commonamqp.

Section Codec.

(** [fmt.Sprint] on one operand. *)
Variable fmt_Sprint : iface -> string.

(** The body of the [switch k] over one annotation. *)
Definition annotation_step (m : Message) (kv : iface * iface) : res Message :=
  let '(k, v) := kv in
  if decide (k = VString "iothub-enqueuedtime") then
    t ← assert_Time v; Ret (set_EnqueuedTime m t)
  else if decide (k = VString "iothub-connection-device-id") then
    s ← assert_string v; Ret (set_ConnectionDeviceID m s)
  else if decide (k = VString "iothub-connection-auth-generation-id") then
    s ← assert_string v; Ret (set_ConnectionDeviceGenerationID m s)
  else if decide (k = VString "iothub-connection-auth-method") then
    s ← assert_string v; Ret (set_ConnectionAuthMethod m s)
  else if decide (k = VString "iothub-message-source") then
    s ← assert_string v; Ret (set_MessageSource m s)
  else
    ks ← assert_string k;
    Ret (set_Properties m (<[ks := fmt_Sprint v]> (Properties m))).

Fixpoint range_annotations (m : Message) (l : list (iface * iface)) : res Message :=
  match l with
  | [] => Ret m
  | kv :: l' => m' ← annotation_step m kv; range_annotations m' l'
  end.

(** The body of the loop over the application properties. *)
Definition application_property_step (k : string) (v : iface) (acc : res Message)
  : res Message :=
  m ← acc;
  s ← assert_string v;
  Ret (set_Properties m (<[k := s]> (Properties m))).

Definition FromAMQPMessage (msg : AmqpMessage) : res (Message * option error) :=
  payload ← index0 (am_Data msg);
  let m := mkMessage "" "" 0 0 "" "" "" "" "" "" payload ∅ in
  m ← match am_Properties msg with
      | None => Ret m
      | Some p =>
          uid ← Ret (string_of_bytes (mp_UserID p));
          mid ← assert_string (mp_MessageID p);
          cid ← assert_string (mp_CorrelationID p);
          Ret (mkMessage mid (mp_To p) (mp_AbsoluteExpiryTime p)
                 (EnqueuedTime m) cid uid
                 (ConnectionDeviceID m) (ConnectionDeviceGenerationID m)
                 (ConnectionAuthMethod m) (MessageSource m)
                 (Payload m) (Properties m))
      end;
  m ← range_annotations m (am_Annotations msg);
  m ← map_fold application_property_step (Ret m) (am_ApplicationProperties msg);
  Ret (m, None).

End Codec.

Definition ToAMQPMessage (msg : Message) : AmqpMessage :=
  let props : gmap string iface :=
    map_fold (fun k v (props : gmap string iface) => <[k := VString v]> props)
      ∅ (Properties msg) in
  {| am_Data := [Payload msg];
     am_Properties := Some {| mp_To := To msg;
                              mp_UserID := bytes_of_string (UserID msg);
                              mp_MessageID := VString (MessageID msg);
                              mp_CorrelationID := VString (CorrelationID msg);
                              mp_AbsoluteExpiryTime := ExpiryTime msg |};
     am_Annotations := [];
     am_ApplicationProperties := props |}.

End commonamqp.

(** ** iotservice/client.go *)

Module iotservice.

(** Transport objects (event-hub clients, AMQP connections, sessions and
    links) are external; the client only holds them and calls them, so each
    is a handle. *)
Definition handle : Type := nat.

(** [common.Credentials]: the fields the client reads. *)
Record Credentials : Type := mkCredentials {
  HostName : string;
  SharedAccessKeyName : string;
  SharedAccessKey : string
}.

(** [Client].  [conn] is the pointer to the primary connection, [None] when
    nil.  [done_closed] tells whether the channel [done] has been closed;
    nothing is ever sent on it, so a receive from it succeeds exactly when it
    is closed.  The mutex [mu] orders concurrent callers and has no effect on
    one caller's run; the logger, debug flag and REST client are left to the
    environment.  A client is built by [NewClient], which refuses one
    without credentials, so [creds] is not nil. *)
Record Client : Type := mkClient {
  conn : option handle;
  done_closed : bool;
  creds : Credentials
}.

Record Feedback : Type := mkFeedback {
  OriginalMessageID : string;
  Description : string;
  DeviceGenerationID : string;
  DeviceID : string;
  EnqueuedTimeUTC : Time;
  StatusCode : string
}.

(** [call], the direct-method request. *)
Record call : Type := mkCall {
  MethodName : string;
  ConnectTimeout : Z;
  ResponseTimeout : Z;
  call_Payload : gmap string iface
}.

(** The anonymous struct [ir] that [Call] decodes the response into. *)
Record envelope : Type := mkEnvelope {
  Status : Z;
  ir_Payload : gmap string iface
}.

(** An [http.Request] as [request] builds it, and what the client reads of
    an [http.Response]: the status code and the outcome of reading the body
    to its end. *)
Record Request : Type := mkRequest {
  Method : string;
  URL : string;
  Header : gmap string string;
  Body : bytes
}.

Record Response : Type := mkResponse {
  res_StatusCode : Z;
  res_ReadAll : result bytes
}.

(** Calls on the collaborators, in the order they are made. *)
Inductive Event : Type :=
  | EvEventhubDial (host : string)
  | EvPutTokenContinuously (eh : handle) (host sas : string)
  | EvEventhubClose (eh : handle)
  | EvAmqpDial (addr user pass : string)
  | EvConnClose (c : option handle)
  | EvNewSession (c : handle)
  | EvSessionClose (sess : handle)
  | EvNewReceiver (sess : handle) (source : string)
  | EvNewSender (sess : handle) (target : string)
  | EvLinkClose (link : handle)
  | EvReceive (link : handle)
  | EvSend (link : handle) (msg : AmqpMessage)
  | EvAccept (msg : AmqpMessage)
  | EvGo (f : option Feedback)
  | EvHTTPDo (r : Request)
  | EvBodyClose.

(** What the collaborators answer.  A transport or token answer may depend
    on everything that happened before, so it takes the trace of the earlier
    calls; the codecs and formatters are functions of their operands. *)
Record Env : Type := mkEnv {
  creds_SAS : list Event -> Credentials -> string -> Z -> result string;
  eventhub_Dial : list Event -> string -> result handle;
  eh_PutTokenContinuously : list Event -> handle -> string -> string -> bool -> option error;
  eh_Close : list Event -> handle -> option error;
  eh_Sess : handle -> handle;
  amqp_Dial : list Event -> string -> string -> string -> result handle;
  conn_NewSession : list Event -> handle -> result handle;
  sess_NewReceiver : list Event -> handle -> string -> result handle;
  sess_NewSender : list Event -> handle -> string -> result handle;
  recv_Receive : list Event -> handle -> result AmqpMessage;
  send_Send : list Event -> handle -> AmqpMessage -> option error;
  json_Marshal : call -> result bytes;
  json_Unmarshal_feedback : bytes -> result (list (option Feedback));
  json_Unmarshal_envelope : bytes -> envelope -> envelope * option error;
  fmt_Sprintf : string -> list iface -> string;
  url_PathEscape : string -> string;
  APIVersion : string;
  http_NewRequest : string -> string -> option error;
  eventhub_RandString : list Event -> result string;
  http_Do : list Event -> Request -> result Response
}.

(** [time.Hour], in seconds. *)
Definition time_Hour : Z := 3600.

Definition StatusOK : Z := 200.

(** *** The monad of a client operation

    An operation reads and writes the client and calls the collaborators;
    it ends with a value or panics. *)
Record State : Type := mkState {
  client : Client;
  trace : list Event
}.

Definition M (A : Type) : Type := State -> res A * State.

#[global] Instance M_mret : MRet M := fun A a s => (Ret a, s).

#[global] Instance M_mbind : MBind M := fun A B k m s =>
  match m s with
  | (Ret a, s') => k a s'
  | (Panic, s') => (Panic, s')
  end.

Definition panic {A} : M A := fun s => (Panic, s).

Definition lift {A} (r : res A) : M A := fun s => (r, s).

Definition get_client : M Client := fun s => (Ret (client s), s).

Definition put_client (c : Client) : M unit :=
  fun s => (Ret tt, mkState c (trace s)).

(** A call that leaves no mark on the collaborators (minting a token,
    drawing a random string). *)
Definition ask {R} (answer : list Event -> R) : M R :=
  fun s => (Ret (answer (trace s)), s).

Definition emit (e : Event) : M unit :=
  fun s => (Ret tt, mkState (client s) (trace s ++ [e])).

(** A call on a collaborator: it is answered from the trace so far and then
    recorded. *)
Definition perform {R} (e : Event) (answer : list Event -> R) : M R :=
  fun s => (Ret (answer (trace s)), mkState (client s) (trace s ++ [e])).

(** [defer d] in front of [body]: [d] runs when [body] is left, by return
    or by panic. *)
Definition defer {A} (d : M unit) (body : M A) : M A :=
  fun s => let '(r, s') := body s in (r, snd (d s')).

Definition errNotConnected : error := errorString "not connected".

Section Client.

Variable env : Env.

Definition Connect : M (option error) :=
  c ← get_client;
  r ← perform (EvEventhubDial (HostName (creds c)))
        (fun tr => eventhub_Dial env tr (HostName (creds c)));
  match r with
  | Err err => mret (Some err)
  | Ok eh =>
      (* the body after [defer func() { if err != nil { eh.Close() } }()];
         every return below returns the variable [err] *)
      err ← (sas ← ask (fun tr => creds_SAS env tr (creds c) (HostName (creds c)) time_Hour);
             match sas with
             | Err err => mret (Some err)
             | Ok sas =>
                 err ← perform (EvPutTokenContinuously eh (HostName (creds c)) sas)
                         (fun tr => eh_PutTokenContinuously env tr eh (HostName (creds c)) sas
                                      (done_closed c));
                 match err with
                 | Some err => mret (Some err)
                 | None =>
                     put_client (mkClient (Some eh) (done_closed c) (creds c));;
                     mret None
                 end
             end);
      match err with
      | Some _ => emit (EvEventhubClose eh)
      | None => mret tt
      end;;
      mret err
  end.

(** The calls deferred in [connectToEventHub] once the probe link is open,
    in the order they run: [recv.Close()], [sess.Close()], and the closure
    that closes the variable [conn] when the variable [err] is not nil.
    When [conn] is then the nil connection of a failed dial, [conn.Close()]
    dereferences nil: the closure panics and no close reaches the
    transport. *)
Definition probe_deferred (recv sess : handle) (err : option error)
    (conn_var : option handle) : M unit :=
  emit (EvLinkClose recv);;
  emit (EvSessionClose sess);;
  match err with
  | Some _ =>
      match conn_var with
      | Some c => emit (EvConnClose (Some c))
      | None => panic
      end
  | None => mret tt
  end.

(** The consumer group and the address to dial, read from the redirect. *)
Definition redirect_target (rerr : AmqpError) : res (string * string) :=
  group ← assert_string (map_index (Info rerr) "address");
  group ← slice group (strings_Index group ":5671/" + 6) (len group - 1);
  hostname ← assert_string (map_index (Info rerr) "hostname");
  Ret (group, "amqps://" ++ hostname).

Definition connectToEventHub : M (option handle * string * option error) :=
  c ← get_client;
  let user := SharedAccessKeyName (creds c) ++ "@sas.root." ++ HostName (creds c) in
  user ← lift (slice user 0 (len user - 18));
  pass ← ask (fun tr => creds_SAS env tr (creds c) (HostName (creds c)) time_Hour);
  match pass with
  | Err err => mret (None, "", Some err)
  | Ok pass =>
  let addr := "amqps://" ++ HostName (creds c) in
  r ← perform (EvAmqpDial addr user pass) (fun tr => amqp_Dial env tr addr user pass);
  match r with
  | Err err => mret (None, "", Some err)
  | Ok conn0 =>
  r ← perform (EvNewSession conn0) (fun tr => conn_NewSession env tr conn0);
  match r with
  | Err err => emit (EvConnClose (Some conn0));; mret (None, "", Some err)
  | Ok sess =>
  r ← perform (EvNewReceiver sess "messages/events/")
        (fun tr => sess_NewReceiver env tr sess "messages/events/");
  match r with
  | Err err =>
      emit (EvSessionClose sess);; emit (EvConnClose (Some conn0));;
      mret (None, "", Some err)
  | Ok recv =>
  r ← perform (EvReceive recv) (fun tr => recv_Receive env tr recv);
  match r with
  | Ok _ =>
      (* [err] is nil here and the returned error is a fresh value *)
      probe_deferred recv sess None (Some conn0);;
      mret (None, "", Some (errorString "expected redirect error"))
  | Err err =>
      match err with
      | DetachError None =>
          (* [rerr.RemoteError.Condition] dereferences the nil pointer *)
          probe_deferred recv sess (Some err) (Some conn0);; panic
      | DetachError (Some rerr) =>
          if negb (String.eqb (Condition rerr) ErrorLinkRedirect) then
            probe_deferred recv sess (Some err) (Some conn0);;
            mret (None, "", Some err)
          else
            match redirect_target rerr with
            | Panic => probe_deferred recv sess (Some err) (Some conn0);; panic
            | Ret (group, addr) =>
                r ← perform
                      (EvAmqpDial addr (SharedAccessKeyName (creds c))
                         (SharedAccessKey (creds c)))
                      (fun tr => amqp_Dial env tr addr (SharedAccessKeyName (creds c))
                                   (SharedAccessKey (creds c)));
                match r with
                | Err err' =>
                    (* [conn, err = amqp.Dial(...)] has overwritten [conn]
                       with the nil connection of the failed dial, on which
                       the deferred closure calls [Close]: it panics *)
                    probe_deferred recv sess (Some err') None;;
                    mret (None, "", Some err')
                | Ok conn1 =>
                    probe_deferred recv sess None (Some conn1);;
                    mret (Some conn1, group, None)
                end
            end
      | _ =>
          probe_deferred recv sess (Some err) (Some conn0);;
          mret (None, "", Some err)
      end
  end end end end end.

Definition isConnected : M bool :=
  c ← get_client;
  mret (bool_decide (conn c <> None)).

(** *** Send options *)

(** [SendOption]: a function value that updates the message in place and
    returns an error.  An option is given by what calling it does: it
    returns the message as it left it and an error, or it panics, which is
    also what calling a nil option does. *)
Definition SendOption : Type := Message -> res (Message * option error).

Definition WithSendMessageID (mid : string) : SendOption :=
  fun msg =>
    Ret
    (mkMessage mid (To msg) (ExpiryTime msg) (EnqueuedTime msg)
       (CorrelationID msg) (UserID msg) (ConnectionDeviceID msg)
       (ConnectionDeviceGenerationID msg) (ConnectionAuthMethod msg)
       (MessageSource msg) (Payload msg) (Properties msg), None).

Definition WithSendCorrelationID (cid : string) : SendOption :=
  fun msg =>
    Ret
    (mkMessage (MessageID msg) (To msg) (ExpiryTime msg) (EnqueuedTime msg)
       cid (UserID msg) (ConnectionDeviceID msg)
       (ConnectionDeviceGenerationID msg) (ConnectionAuthMethod msg)
       (MessageSource msg) (Payload msg) (Properties msg), None).

Definition WithSendUserID (uid : string) : SendOption :=
  fun msg =>
    Ret
    (mkMessage (MessageID msg) (To msg) (ExpiryTime msg) (EnqueuedTime msg)
       (CorrelationID msg) uid (ConnectionDeviceID msg)
       (ConnectionDeviceGenerationID msg) (ConnectionAuthMethod msg)
       (MessageSource msg) (Payload msg) (Properties msg), None).

Definition WithSentExpiryTime (t : Time) : SendOption :=
  fun msg =>
    Ret
    (mkMessage (MessageID msg) (To msg) t (EnqueuedTime msg)
       (CorrelationID msg) (UserID msg) (ConnectionDeviceID msg)
       (ConnectionDeviceGenerationID msg) (ConnectionAuthMethod msg)
       (MessageSource msg) (Payload msg) (Properties msg), None).

Definition WithSendProperty (k v : string) : SendOption :=
  fun msg => Ret (set_Properties msg (<[k := v]> (Properties msg)), None).

Definition WithSendProperties (m : gmap string string) : SendOption :=
  fun msg =>
    Ret (set_Properties msg
           (map_fold (fun k v (props : gmap string string) => <[k := v]> props)
              (Properties msg) m), None).

Definition AckNone : string := "none".
Definition AckPositive : string := "positive".
Definition AckNegative : string := "negative".
Definition AckFull : string := "full".

Definition WithSendAck (typ : string) : SendOption :=
  fun msg =>
    if bool_decide (typ ∈ [""; AckNone; AckPositive; AckNegative; AckFull])
    then WithSendProperty "iothub-ack" typ msg
    else Ret (msg, Some (errorString (fmt_Sprintf env "unknown ack type: %q" [VString typ]))).

(** [for _, opt := range opts { if err := opt(msg); err != nil { return err } }] *)
Fixpoint apply_opts {T} (opts : list (T -> res (T * option error))) (v : T)
  : res (T * option error) :=
  match opts with
  | [] => Ret (v, None)
  | opt :: opts' =>
      match opt v with
      | Panic => Panic
      | Ret (v', Some err) => Ret (v', Some err)
      | Ret (v', None) => apply_opts opts' v'
      end
  end.

Definition SendEvent (deviceID : string) (payload : bytes) (opts : list SendOption)
  : M (option error) :=
  if bool_decide (deviceID = "") then mret (Some (errorString "device id is empty"))
  else match payload with
  | None => mret (Some (errorString "payload is nil"))
  | Some _ =>
  connected ← isConnected;
  if negb connected then mret (Some errNotConnected)
  else
  let msg := mkMessage "" ("/devices/" ++ deviceID ++ "/messages/devicebound")
               0 0 "" "" "" "" "" "" payload ∅ in
  match apply_opts opts msg with
  | Panic => panic
  | Ret (_, Some err) => mret (Some err)
  | Ret (msg, None) =>
  c ← get_client;
  match conn c with
  | None => panic
  | Some eh =>
  r ← perform (EvNewSender (eh_Sess env eh) "/messages/devicebound")
        (fun tr => sess_NewSender env tr (eh_Sess env eh) "/messages/devicebound");
  match r with
  | Err err => mret (Some err)
  | Ok send =>
      defer (emit (EvLinkClose send))
        (perform (EvSend send (commonamqp.ToAMQPMessage msg))
           (fun tr => send_Send env tr send (commonamqp.ToAMQPMessage msg)))
  end end end end.

(** *** Feedback *)

(** How far a receive loop got: it returned, or it is still receiving when
    the steps granted to it are used up. *)
Inductive loop_result : Type :=
  | Returned (err : option error)
  | Running.

(** [for _, f := range v { go fn(f) }] *)
Fixpoint dispatch (v : list (option Feedback)) : M unit :=
  match v with
  | [] => mret tt
  | f :: v' => emit (EvGo f);; dispatch v'
  end.

(** The [for] loop of [SubscribeFeedback], run for at most [fuel] rounds. *)
Fixpoint feedback_loop (recv : handle) (fuel : nat) : M loop_result :=
  match fuel with
  | O => mret Running
  | S fuel' =>
      r ← perform (EvReceive recv) (fun tr => recv_Receive env tr recv);
      match r with
      | Err err => mret (Returned (Some err))
      | Ok msg =>
          emit (EvAccept msg);;
          data ← lift (index0 (am_Data msg));
          match json_Unmarshal_feedback env data with
          | Err err => mret (Returned (Some err))
          | Ok v => dispatch v;; feedback_loop recv fuel'
          end
      end
  end.

(** The deferred [recv.Close()] runs when the function is left, which a loop
    still running has not done. *)
Definition close_when_left (recv : handle) (body : M loop_result) : M loop_result :=
  fun s =>
    match body s with
    | (Ret Running, s') => (Ret Running, s')
    | (r, s') => (r, snd (emit (EvLinkClose recv) s'))
    end.

Definition SubscribeFeedback (fuel : nat) : M loop_result :=
  connected ← isConnected;
  if negb connected then mret (Returned (Some errNotConnected))
  else
  c ← get_client;
  match conn c with
  | None => panic
  | Some eh =>
  r ← perform (EvNewReceiver (eh_Sess env eh) "/messages/servicebound/feedback")
        (fun tr => sess_NewReceiver env tr (eh_Sess env eh)
                     "/messages/servicebound/feedback");
  match r with
  | Err err => mret (Returned (Some err))
  | Ok recv => close_when_left recv (feedback_loop recv fuel)
  end end.

(** *** Direct methods *)

(** [CallOption]: a function value that updates the call record in place
    and returns an error; as for [SendOption], calling it may panic, which
    calling a nil option does. *)
Definition CallOption : Type := call -> res (call * option error).

Definition WithCallConnectTimeout (seconds : Z) : CallOption :=
  fun c => Ret (mkCall (MethodName c) seconds (ResponseTimeout c) (call_Payload c), None).

Definition WithCallResponseTimeout (seconds : Z) : CallOption :=
  fun c => Ret (mkCall (MethodName c) (ConnectTimeout c) seconds (call_Payload c), None).

Definition request (method path deviceID : string) (b : bytes) : M (result bytes) :=
  c ← get_client;
  let url := fmt_Sprintf env ("https://%s/" ++ path ++ "?api-version=%s")
               [VString (HostName (creds c));
                VString (url_PathEscape env deviceID);
                VString (APIVersion env)] in
  match http_NewRequest env method url with
  | Some err => mret (Err err)
  | None =>
  sas ← ask (fun tr => creds_SAS env tr (creds c) (HostName (creds c)) time_Hour);
  match sas with
  | Err err => mret (Err err)
  | Ok sas =>
  rid ← ask (eventhub_RandString env);
  match rid with
  | Err err => mret (Err err)
  | Ok rid =>
  let r := mkRequest method url
             (<["Request-Id" := rid]>
                (<["Authorization" := sas]>
                   (<["Content-Type" := "application/json; charset=utf-8"]> ∅)))
             b in
  res ← perform (EvHTTPDo r) (fun tr => http_Do env tr r);
  match res with
  | Err err => mret (Err err)
  | Ok res =>
      defer (emit EvBodyClose)
        (match res_ReadAll res with
         | Err err => mret (Err err)
         | Ok b =>
             if bool_decide (res_StatusCode res <> StatusOK) then
               mret (Err (errorString
                            (fmt_Sprintf env "code = %d, body = %q"
                               [VInt (res_StatusCode res); VString (string_of_bytes b)])))
             else mret (Ok b)
         end)
  end end end end.

(** The last statement, [return ir.Payload, json.Unmarshal(b, &ir)], has a
    call among its operands: the call is made first and the field
    [ir.Payload] is loaded when the results are assigned, so the returned
    map is read from [ir] as the decoder left it. *)
Definition Call (deviceID methodName : string) (payload : gmap string iface)
    (opts : list CallOption) : M (gmap string iface * option error) :=
  if bool_decide (deviceID = "") then mret (∅, Some (errorString "deviceID is empty"))
  else if bool_decide (methodName = "") then
    mret (∅, Some (errorString "methodName is empty"))
  else if bool_decide (size payload = 0%nat) then
    mret (∅, Some (errorString "payload is empty"))
  else
  match apply_opts opts (mkCall methodName 0 0 payload) with
  | Panic => panic
  | Ret (_, Some err) => mret (∅, Some err)
  | Ret (v, None) =>
  match json_Marshal env v with
  | Err err => mret (∅, Some err)
  | Ok b =>
  r ← request "POST" "twins/%s/methods" deviceID b;
  match r with
  | Err err => mret (∅, Some err)
  | Ok b =>
      let '(ir, err) := json_Unmarshal_envelope env b (mkEnvelope 0 ∅) in
      mret (ir_Payload ir, err)
  end end end.

(** *** Close *)

Definition Close : M (option error) :=
  c ← get_client;
  if done_closed c then mret None
  else
    put_client (mkClient (conn c) true (creds c));;
    match conn c with
    | None => mret None
    | Some eh => perform (EvEventhubClose eh) (fun tr => eh_Close env tr eh)
    end.

End Client.

(** The client [NewClient] returns for the credentials [cr], before any
    call on a collaborator. *)
Definition new_client (cr : Credentials) : State :=
  mkState (mkClient None false cr) [].

(** *** The device registry over REST *)

Record X509Thumbprint : Type := mkX509Thumbprint {
  PrimaryThumbprint : string;
  SecondaryThumbprint : string
}.

(** [Properties], the desired and reported properties of a twin. *)
Record TwinProperties : Type := mkTwinProperties {
  Desired : gmap string iface;
  Reported : gmap string iface
}.

Record Twin : Type := mkTwin {
  tw_DeviceID : string;
  tw_ETag : string;
  tw_DeviceETag : string;
  tw_Status : string;
  tw_StatusReason : string;
  tw_StatusUpdateTime : string;
  tw_ConnectionState : string;
  tw_LastActivityTime : string;
  tw_CloudToDeviceMessageCount : Z;
  tw_AuthenticationType : string;
  tw_X509Thumbprint : X509Thumbprint;
  tw_Version : Z;
  tw_Properties : TwinProperties;
  tw_Capabilities : gmap string iface;
  tw_RawJSON : bytes
}.

Record Authentication : Type := mkAuthentication {
  au_X509Thumbprint : X509Thumbprint;
  au_Type : string
}.

Record Device : Type := mkDevice {
  dv_DeviceID : string;
  dv_GenerationID : string;
  dv_ETag : string;
  dv_ConnectionState : string;
  dv_Status : string;
  dv_StatusReason : string;
  dv_ConnectionStateUpdatedTime : string;
  dv_StatusUpdatedTime : string;
  dv_LastActivityTime : string;
  dv_CloudToDeviceMessageCount : Z;
  dv_Authentication : Authentication;
  dv_Capabilities : gmap string iface;
  dv_RawJSON : bytes
}.

(** [&Twin{Properties: Properties{Desired: desired}}] and [&Twin{RawJSON: b}],
    [&Device{RawJSON: b}]: every other field zero. *)
Definition Twin_with (desired : gmap string iface) (raw : bytes) : Twin :=
  mkTwin "" "" "" "" "" "" "" "" 0 "" (mkX509Thumbprint "" "") 0
    (mkTwinProperties desired ∅) ∅ raw.

Definition Device_with (raw : bytes) : Device :=
  mkDevice "" "" "" "" "" "" "" "" "" 0
    (mkAuthentication (mkX509Thumbprint "" "") "") ∅ raw.

(** The JSON codec on twins and devices: [json.Marshal] of a twin, and
    [json.Unmarshal] into a twin or a device, which returns the value as the
    decoder left it and the decoder's error. *)
Record RegistryCodec : Type := mkRegistryCodec {
  json_Marshal_Twin : Twin -> result bytes;
  json_Unmarshal_Twin : bytes -> Twin -> Twin * option error;
  json_Unmarshal_Device : bytes -> Device -> Device * option error
}.

Section Registry.

Variable env : Env.
Variable codec : RegistryCodec.

Definition UpdateTwin (deviceID : string) (desired : gmap string iface)
  : M (option Twin * option error) :=
  match json_Marshal_Twin codec (Twin_with desired None) with
  | Err err => mret (None, Some err)
  | Ok b =>
  r ← request env "PATCH" "twins/%s" deviceID b;
  match r with
  | Err err => mret (None, Some err)
  | Ok b =>
      let '(res, err) := json_Unmarshal_Twin codec b (Twin_with ∅ b) in
      match err with
      | Some err => mret (None, Some err)
      | None => mret (Some res, None)
      end
  end end.

(** In [if json.Unmarshal(b, d); err != nil] the decoder runs as the
    statement of the [if] and its result is dropped; the condition tests the
    variable [err] of the request, which is nil on this path. *)
Definition GetDevice (deviceID : string) : M (option Device * option error) :=
  r ← request env "GET" "devices/%s" deviceID None;
  match r with
  | Err err => mret (None, Some err)
  | Ok b =>
      let '(d, _) := json_Unmarshal_Device codec b (Device_with b) in
      mret (Some d, None)
  end.

End Registry.

(** *** The constructor *)

(** The REST client of a [Client]: one the caller supplied, or the default
    one that trusts the bundled root certificates only. *)
Inductive HTTPClient : Type :=
  | CustomHTTP (h : handle)
  | BundledRootsHTTP.

(** All the fields of [Client], as the constructor and its options see
    them; [cf_creds], [cf_logger] and [cf_http] are pointers. *)
Record ClientFields : Type := mkClientFields {
  cf_conn : option handle;
  cf_done_closed : bool;
  cf_creds : option Credentials;
  cf_logger : option handle;
  cf_debug : bool;
  cf_http : option HTTPClient
}.

(** [ClientOption]: a function value that updates the client under
    construction and returns an error; calling it may panic, which calling
    a nil option does. *)
Definition ClientOption : Type := ClientFields -> res (ClientFields * option error).

Section Constructor.

(** [common.ParseConnectionString]. *)
Variable ParseConnectionString : string -> result Credentials.

Definition WithConnectionString (cs : string) : ClientOption :=
  fun c =>
    match ParseConnectionString cs with
    | Err err => Ret (c, Some err)
    | Ok cr =>
        Ret (mkClientFields (cf_conn c) (cf_done_closed c) (Some cr) (cf_logger c)
               (cf_debug c) (cf_http c), None)
    end.

Definition WithCredentials (cr : option Credentials) : ClientOption :=
  fun c =>
    Ret
    (mkClientFields (cf_conn c) (cf_done_closed c) cr (cf_logger c)
       (cf_debug c) (cf_http c), None).

Definition WithHTTPClient (h : option handle) : ClientOption :=
  fun c =>
    Ret
    (mkClientFields (cf_conn c) (cf_done_closed c) (cf_creds c) (cf_logger c)
       (cf_debug c) (CustomHTTP <$> h), None).

Definition WithLogger (l : option handle) : ClientOption :=
  fun c =>
    Ret
    (mkClientFields (cf_conn c) (cf_done_closed c) (cf_creds c) l
       (cf_debug c) (cf_http c), None).

Definition WithDebug (d : bool) : ClientOption :=
  fun c =>
    Ret
    (mkClientFields (cf_conn c) (cf_done_closed c) (cf_creds c) (cf_logger c)
       d (cf_http c), None).

Definition NewClient (opts : list ClientOption) : res (result ClientFields) :=
  match apply_opts opts (mkClientFields None false None None false None) with
  | Panic => Panic
  | Ret (_, Some err) => Ret (Err err)
  | Ret (c, None) =>
      match cf_creds c with
      | None =>
          Ret (Err (errorString
                 "credentials are missing, consider using `WithCredentials` or `WithConnectionString` option"))
      | Some _ =>
          match cf_http c with
          | None =>
              Ret (Ok (mkClientFields (cf_conn c) (cf_done_closed c) (cf_creds c)
                         (cf_logger c) (cf_debug c) (Some BundledRootsHTTP)))
          | Some _ => Ret (Ok c)
          end
      end
  end.

End Constructor.

End iotservice.

(** ** The domain of the decoder *)

(** The types [FromAMQPMessage] asserts on the values it reads: a string
    message id and correlation id when the properties block is present, a
    time under the enqueued-time annotation, a string under the four other
    reserved annotations and under every application property. *)
Definition properties_typed (msg : AmqpMessage) : bool :=
  match am_Properties msg with
  | None => true
  | Some p => is_string (mp_MessageID p) && is_string (mp_CorrelationID p)
  end.

Definition reserved_string_annotation (k : iface) : bool :=
  bool_decide (k ∈ [VString "iothub-connection-device-id";
                    VString "iothub-connection-auth-generation-id";
                    VString "iothub-connection-auth-method";
                    VString "iothub-message-source"]).

Definition annotation_value_typed (kv : iface * iface) : bool :=
  if decide (kv.1 = VString "iothub-enqueuedtime") then is_Time kv.2
  else if reserved_string_annotation kv.1 then is_string kv.2
  else true.

(** An annotation under another key is copied into the properties map, whose
    keys are strings. *)
Definition annotation_key_typed (kv : iface * iface) : bool :=
  if decide (kv.1 = VString "iothub-enqueuedtime") then true
  else if reserved_string_annotation kv.1 then true
  else is_string kv.1.

Definition asserted_types_hold (msg : AmqpMessage) : Prop :=
  am_Data msg <> [] /\
  properties_typed msg = true /\
  Forall (fun kv => annotation_value_typed kv = true) (am_Annotations msg) /\
  map_Forall (fun _ v => is_string v = true) (am_ApplicationProperties msg).

Definition decodable (msg : AmqpMessage) : Prop :=
  asserted_types_hold msg /\
  Forall (fun kv => annotation_key_typed kv = true) (am_Annotations msg).

(** ** Reading a trace *)

Import iotservice.

(** The feedback records handed to the callback and the messages
    acknowledged, in the order of the trace. *)
Definition dispatched (tr : list Event) : list (option Feedback) :=
  omap (fun e => match e with EvGo f => Some f | _ => None end) tr.

Definition accepted (tr : list Event) : list AmqpMessage :=
  omap (fun e => match e with EvAccept msg => Some msg | _ => None end) tr.

(** The number of AMQP connections dialed. *)
Definition dial_count (tr : list Event) : nat :=
  length (omap (fun e => match e with EvAmqpDial addr _ _ => Some addr | _ => None end) tr).

(** The number of times the primary transport was closed. *)
Definition close_count (tr : list Event) : nat :=
  length (omap (fun e => match e with EvEventhubClose eh => Some eh | _ => None end) tr).

(** The feedback array in the body of a protocol message, as the loop
    decodes it: the first data segment, unmarshalled. *)
Definition feedback_body (env : Env) (msg : AmqpMessage) : list (option Feedback) :=
  match am_Data msg with
  | data :: _ =>
      match json_Unmarshal_feedback env data with
      | Ok v => v
      | Err _ => []
      end
  | [] => []
  end.

(** What follows a receive that returned the message [msg] in a run that
    ended with [r], [post] being the rest of the trace: the acknowledgement
    of [msg] comes next; and when the body of [msg] decodes to [v], one
    dispatch for each record of [v] in order, after which the run either
    stands there with its rounds used up or makes its next receive. *)
Definition round_after (env : Env) (recv : handle) (msg : AmqpMessage) (r : res loop_result)
    (post : list Event) : Prop :=
  exists post1, post = EvAccept msg :: post1 /\
    forall data rest v,
      am_Data msg = data :: rest ->
      json_Unmarshal_feedback env data = Ok v ->
      exists post2, post1 = (map EvGo v ++ post2)%list /\
        (post2 = [] /\ r = Ret Running \/
         exists post3, post2 = EvReceive recv :: post3).

(** The message [SendEvent] builds before it applies the options. *)
Definition devicebound (deviceID : string) (payload : bytes) : Message :=
  mkMessage "" ("/devices/" ++ deviceID ++ "/messages/devicebound")
    0 0 "" "" "" "" "" "" payload ∅.

(** The probe of [connectToEventHub] up to its receive: the user name is
    cut, the token minted, the primary host dialed, the session and the
    receive link opened, and the receive answered by [r]. *)
Definition probe_user (cr : Credentials) : res string :=
  let user := SharedAccessKeyName cr ++ "@sas.root." ++ HostName cr in
  slice user 0 (len user - 18).

Definition probe_trace (s : State) (user pass : string) (conn0 sess recv : handle)
  : list Event :=
  trace s ++ [EvAmqpDial ("amqps://" ++ HostName (creds (client s))) user pass;
              EvNewSession conn0;
              EvNewReceiver sess "messages/events/";
              EvReceive recv].

Definition probe_receives (env : Env) (s : State) (user pass : string)
    (conn0 sess recv : handle) (r : result AmqpMessage) : Prop :=
  let cr := creds (client s) in
  let addr := "amqps://" ++ HostName cr in
  probe_user cr = Ret user /\
  creds_SAS env (trace s) cr (HostName cr) time_Hour = Ok pass /\
  amqp_Dial env (trace s) addr user pass = Ok conn0 /\
  conn_NewSession env (trace s ++ [EvAmqpDial addr user pass]) conn0 = Ok sess /\
  sess_NewReceiver env (trace s ++ [EvAmqpDial addr user pass; EvNewSession conn0])
    sess "messages/events/" = Ok recv /\
  recv_Receive env (trace s ++ [EvAmqpDial addr user pass; EvNewSession conn0;
                                EvNewReceiver sess "messages/events/"]) recv = r.

(** An error of the probe receive that is not a detach error, or a detach
    error whose remote error is there and has a condition other than link
    redirect.  A detach error without a remote error has no condition to
    read and is not among them. *)
Definition other_error (err : error) : Prop :=
  match err with
  | DetachError (Some rerr) => Condition rerr <> ErrorLinkRedirect
  | DetachError None => False
  | _ => True
  end.

(** ** Sample collaborators

    Environments and clients on which the statements below are exercised. *)

(** Every collaborator succeeds; a receive is answered by [probe] until a
    message has been acknowledged and by an error afterwards, the transport
    close by [closed], the feedback decoder by [feedback]. *)
Definition sample_env (probe : result AmqpMessage) (closed : option error)
    (feedback : result (list (option Feedback))) : Env :=
  {| creds_SAS := fun _ _ _ _ => Ok "SharedAccessSignature sr=hub";
     eventhub_Dial := fun _ _ => Ok 1%nat;
     eh_PutTokenContinuously := fun _ _ _ _ _ => None;
     eh_Close := fun _ _ => closed;
     eh_Sess := fun _ => 2%nat;
     amqp_Dial := fun tr _ _ _ => Ok (3 + length tr)%nat;
     conn_NewSession := fun _ _ => Ok 4%nat;
     sess_NewReceiver := fun _ _ _ => Ok 5%nat;
     sess_NewSender := fun _ _ _ => Ok 6%nat;
     recv_Receive := fun tr _ =>
       match accepted tr with
       | [] => probe
       | _ :: _ => Err (ExternalError 7)
       end;
     send_Send := fun _ _ _ => None;
     json_Marshal := fun _ => Ok (Some []);
     json_Unmarshal_feedback := fun _ => feedback;
     json_Unmarshal_envelope := fun b ir =>
       (mkEnvelope 200 {["result" := VBytes b]}, None);
     fmt_Sprintf := fun format _ => format;
     url_PathEscape := fun d => d;
     APIVersion := "2018-06-30";
     http_NewRequest := fun _ _ => None;
     eventhub_RandString := fun _ => Ok "request-1";
     http_Do := fun _ r => Ok (mkResponse 200 (Ok (Body r))) |}.

(** A token source that fails, after a dial that succeeds. *)
Definition sample_env_no_token : Env :=
  {| creds_SAS := fun _ _ _ _ => Err (errorString "illegal base64 data");
     eventhub_Dial := fun _ _ => Ok 1%nat;
     eh_PutTokenContinuously := fun _ _ _ _ _ => None;
     eh_Close := fun _ _ => None;
     eh_Sess := fun _ => 2%nat;
     amqp_Dial := fun _ _ _ _ => Ok 3%nat;
     conn_NewSession := fun _ _ => Ok 4%nat;
     sess_NewReceiver := fun _ _ _ => Ok 5%nat;
     sess_NewSender := fun _ _ _ => Ok 6%nat;
     recv_Receive := fun _ _ => Err (ExternalError 7);
     send_Send := fun _ _ _ => None;
     json_Marshal := fun _ => Ok (Some []);
     json_Unmarshal_feedback := fun _ => Ok [];
     json_Unmarshal_envelope := fun _ ir => (ir, None);
     fmt_Sprintf := fun format _ => format;
     url_PathEscape := fun d => d;
     APIVersion := "2018-06-30";
     http_NewRequest := fun _ _ => None;
     eventhub_RandString := fun _ => Ok "request-1";
     http_Do := fun _ r => Ok (mkResponse 200 (Ok (Body r))) |}.

Definition sample_creds : Credentials :=
  mkCredentials "hub.azure-devices.net" "service" "c2VjcmV0".

(** A client after a successful [Connect], holding the transport [1]. *)
Definition sample_connected : State :=
  mkState (mkClient (Some 1%nat) false sample_creds)
    [EvEventhubDial "hub.azure-devices.net";
     EvPutTokenContinuously 1%nat "hub.azure-devices.net" "SharedAccessSignature sr=hub"].

Definition sample_feedback : Feedback :=
  mkFeedback "message-1" "Success" "636" "device-1" 1530000000 "Success".

Definition sample_redirect : error :=
  DetachError
    (Some (mkAmqpError ErrorLinkRedirect ""
             {["address" := VString "amqps://host:5671/mygroup/";
               "hostname" := VString "redirected.example.com"]})).

Definition sample_message : Message :=
  mkMessage "message-1" "/devices/device-1/messages/devicebound" 1530003600 0
    "correlation-1" "user-1" "" "" "" "" (bytes_of_string "ping")
    {["iothub-ack" := "full"; "color" := "red"]}.

(** A feedback delivery: one data segment holding the JSON array. *)
Definition sample_delivery : AmqpMessage :=
  mkAmqpMessage [bytes_of_string "[{},null]"] None [] ∅.

Definition sample_records : list (option Feedback) := [Some sample_feedback; None].

(** The client of [sample_creds] before [Connect], and the names under
    which its probe runs against a [sample_env]. *)
Definition sample_fresh : State := new_client sample_creds.

Definition sample_user : string := "service@sas.root.hub".

Definition sample_pass : string := "SharedAccessSignature sr=hub".

(** ** Statements of the specification that the code does not meet *)

(** After [Close] the liveness check answers not-connected, and the
    operations on the primary connection fail with the not-connected error
    without a call. *)
Definition Close_clears_connection (env : Env) (s : State) : Prop :=
  forall r s', Close env s = (Ret r, s') ->
    isConnected s' = (Ret false, s') /\
    (forall deviceID p opts, deviceID <> "" ->
       SendEvent env deviceID (Some p) opts s' = (Ret (Some errNotConnected), s')) /\
    (forall fuel,
       SubscribeFeedback env fuel s' = (Ret (Returned (Some errNotConnected)), s')).

(** Two calls of [Close] both return nil, with at most one close of the
    transport. *)
Definition Close_twice_without_error (env : Env) (s : State) : Prop :=
  exists s1 s2,
    Close env s = (Ret None, s1) /\
    Close env s1 = (Ret None, s2) /\
    (close_count (trace s2) <= close_count (trace s) + 1)%nat.

(** ** Further vocabulary for the codec *)

(** What of a message the encoder puts on the wire: the enqueued time and
    the four connection fields are not encoded. *)
Definition transmitted (m : Message) : Message :=
  mkMessage (MessageID m) (To m) (ExpiryTime m) 0 (CorrelationID m) (UserID m)
    "" "" "" "" (Payload m) (Properties m).

Definition string_value (v : iface) : option string :=
  match v with
  | VString s => Some s
  | _ => None
  end.

(** The wire messages the encoder produces: one data segment, a properties
    block with string ids and a user id that is not nil, no annotation, and
    string application properties. *)
Definition encoder_form (msg : AmqpMessage) : Prop :=
  (exists d, am_Data msg = [d]) /\
  (exists p, am_Properties msg = Some p /\
             is_string (mp_MessageID p) = true /\
             is_string (mp_CorrelationID p) = true /\
             mp_UserID p <> None) /\
  am_Annotations msg = [] /\
  map_Forall (fun _ v => is_string v = true) (am_ApplicationProperties msg).

(** The five annotation keys with a field of their own, and the field each
    one is decoded into, as an [interface{}] value. *)
Definition system_annotations : list iface :=
  [VString "iothub-enqueuedtime";
   VString "iothub-connection-device-id";
   VString "iothub-connection-auth-generation-id";
   VString "iothub-connection-auth-method";
   VString "iothub-message-source"].

Definition system_field (k : iface) (m : Message) : iface :=
  if decide (k = VString "iothub-enqueuedtime") then VTime (EnqueuedTime m)
  else if decide (k = VString "iothub-connection-device-id") then
    VString (ConnectionDeviceID m)
  else if decide (k = VString "iothub-connection-auth-generation-id") then
    VString (ConnectionDeviceGenerationID m)
  else if decide (k = VString "iothub-connection-auth-method") then
    VString (ConnectionAuthMethod m)
  else if decide (k = VString "iothub-message-source") then
    VString (MessageSource m)
  else VNil.

(** The fields the decoder fills from the data and the properties block. *)
Definition header (m : Message) : string * string * Time * string * string * bytes :=
  (MessageID m, To m, ExpiryTime m, CorrelationID m, UserID m, Payload m).

(** The properties the annotations contribute: every annotation whose key
    is not one of the five is stored under its key, formatted, a later entry
    over an earlier one. *)
Definition annotation_properties (fmt_Sprint : iface -> string)
    (anns : list (iface * iface)) (init : gmap string string) : gmap string string :=
  foldl (fun acc kv =>
           if bool_decide (kv.1 ∈ system_annotations) then acc
           else match kv.1 with
                | VString ks => <[ks := fmt_Sprint kv.2]> acc
                | _ => acc
                end) init anns.

(** The message the decoder starts from: every field zero. *)
Definition zero_message : Message := mkMessage "" "" 0 0 "" "" "" "" "" "" None ∅.

(** ** Further vocabulary for the client *)

(** The send options the package offers. *)
Inductive standard_option (env : Env) : SendOption -> Prop :=
  | std_MessageID mid : standard_option env (WithSendMessageID mid)
  | std_CorrelationID cid : standard_option env (WithSendCorrelationID cid)
  | std_UserID uid : standard_option env (WithSendUserID uid)
  | std_Ack typ : standard_option env (WithSendAck env typ)
  | std_ExpiryTime t : standard_option env (WithSentExpiryTime t)
  | std_Property k v : standard_option env (WithSendProperty k v)
  | std_Properties m : standard_option env (WithSendProperties m).

(** The client options the package offers. *)
Inductive standard_client_option (parse : string -> result Credentials)
  : ClientOption -> Prop :=
  | std_ConnectionString cs : standard_client_option parse (WithConnectionString parse cs)
  | std_Credentials cr : standard_client_option parse (WithCredentials cr)
  | std_HTTPClient h : standard_client_option parse (WithHTTPClient h)
  | std_Logger l : standard_client_option parse (WithLogger l)
  | std_Debug d : standard_client_option parse (WithDebug d).

Definition devicebound_address (deviceID : string) : string :=
  "/devices/" ++ deviceID ++ "/messages/devicebound".

(** A string without the byte [c]. *)
Fixpoint without_byte (c : ascii) (s : string) : bool :=
  match s with
  | EmptyString => true
  | String a s' => negb (Ascii.eqb a c) && without_byte c s'
  end.

(** Collaborators whose answers are all given: the token, the dial of an
    AMQP connection, the session, the receive link, the probe receive, and
    the HTTP exchange. *)
Definition sample_env_of (sas : result string) (dial session receiver : result handle)
    (probe : result AmqpMessage) (exchange : result Response) : Env :=
  {| creds_SAS := fun _ _ _ _ => sas;
     eventhub_Dial := fun _ _ => Err (ExternalError 1);
     eh_PutTokenContinuously := fun _ _ _ _ _ => None;
     eh_Close := fun _ _ => None;
     eh_Sess := fun _ => 2%nat;
     amqp_Dial := fun _ _ _ _ => dial;
     conn_NewSession := fun _ _ => session;
     sess_NewReceiver := fun _ _ _ => receiver;
     sess_NewSender := fun _ _ _ => Err (ExternalError 6);
     recv_Receive := fun _ _ => probe;
     send_Send := fun _ _ _ => None;
     json_Marshal := fun _ => Ok (Some []);
     json_Unmarshal_feedback := fun _ => Err (errorString "unexpected end of JSON input");
     json_Unmarshal_envelope := fun _ ir => (ir, None);
     fmt_Sprintf := fun format _ => format;
     url_PathEscape := fun d => d;
     APIVersion := "2018-06-30";
     http_NewRequest := fun _ _ => None;
     eventhub_RandString := fun _ => Ok "request-1";
     http_Do := fun _ _ => exchange |}.

(** A registry codec whose decoders fail and leave the value as it was. *)
Definition sample_codec : RegistryCodec :=
  {| json_Marshal_Twin := fun _ => Ok (bytes_of_string "{}");
     json_Unmarshal_Twin := fun _ tw => (tw, Some (errorString "invalid character"));
     json_Unmarshal_Device := fun _ d => (d, Some (errorString "invalid character")) |}.

(** More sample values: a device event on the wire with two data segments,
    an annotation and an application property under the same key, and two
    system annotations; a client closed after it had connected; a delivery
    without data. *)
Definition sample_event : AmqpMessage :=
  mkAmqpMessage [bytes_of_string "ping"; bytes_of_string "pong"] None
    [(VString "color", VString "blue");
     (VString "iothub-connection-device-id", VString "device-1");
     (VString "iothub-enqueuedtime", VTime 1530000000)]
    {["color" := VString "red"]}.


Definition sample_closed : State :=
  mkState (mkClient (Some 1%nat) true sample_creds) (trace sample_connected).

Definition sample_empty_delivery : AmqpMessage := mkAmqpMessage [] None [] ∅.

Definition sample_parse (cs : string) : result Credentials :=
  if String.eqb cs "" then Err (errorString "malformed connection string")
  else Ok sample_creds.

(** [n] rounds of the feedback loop on the link [recv], each receiving a
    message whose body decodes, lead from the first state to the second. *)
Inductive good_rounds (env : Env) (recv : handle) : nat -> State -> State -> Prop :=
  | rounds_O s : good_rounds env recv 0 s s
  | rounds_S n s msg data rest v s' :
      recv_Receive env (trace s) recv = Ok msg ->
      am_Data msg = data :: rest ->
      json_Unmarshal_feedback env data = Ok v ->
      good_rounds env recv n
        (mkState (client s) (trace s ++ [EvReceive recv; EvAccept msg] ++ map EvGo v)) s' ->
      good_rounds env recv (S n) s s'.

(** ** Properties of the codec *)

Open Scope list_scope.

Section CodecProperties.

Variable fmt_Sprint : iface -> string.

Lemma bind_Ret_inv {A B} (r : res A) (k : A -> res B) (b : B) :
  (r ≫= k) = Ret b -> exists a, r = Ret a /\ k a = Ret b.
Proof. destruct r as [a|]; [eauto | discriminate]. Qed.

Lemma assert_string_is_string v : is_string v = true <-> exists s, assert_string v = Ret s.
Proof.
  destruct v; simpl; split; try discriminate; eauto; intros [? ?]; discriminate.
Qed.

Lemma assert_Time_is_Time v : is_Time v = true <-> exists t, assert_Time v = Ret t.
Proof.
  destruct v; simpl; split; try discriminate; eauto; intros [? ?]; discriminate.
Qed.

(** Encoding copies the properties map value by value. *)
Lemma ToAMQPMessage_ApplicationProperties (m : Message) :
  am_ApplicationProperties (commonamqp.ToAMQPMessage m) = VString <$> Properties m.
Proof.
  simpl.
  apply (map_fold_weak_ind (fun (r : gmap string iface) (ps : gmap string string) =>
                              r = VString <$> ps)).
  - by rewrite fmap_empty.
  - intros k v ps r _ ->. by rewrite fmap_insert.
Qed.

(** Decoding application properties that are all strings assigns each of
    them, starting from a message without properties. *)
Lemma range_string_properties (m0 : Message) (ps : gmap string string) :
  Properties m0 = ∅ ->
  map_fold commonamqp.application_property_step (Ret m0) (VString <$> ps)
  = Ret (set_Properties m0 ps).
Proof.
  intros Hm0. rewrite map_fold_fmap.
  apply (map_fold_weak_ind (fun (r : res Message) (ps : gmap string string) =>
                              r = Ret (set_Properties m0 ps))).
  - destruct m0; simpl in *; by subst.
  - intros k v qs r _ ->. reflexivity.
Qed.

(** C1.  Round trip: decoding the encoding of any message [m] returns,
    without error, a message with the payload, message id, correlation id,
    user id, expiry time and properties map of [m] (and its address). *)
Theorem FromAMQPMessage_ToAMQPMessage (m : Message) :
  exists m',
    commonamqp.FromAMQPMessage fmt_Sprint (commonamqp.ToAMQPMessage m) = Ret (m', None) /\
    Payload m' = Payload m /\
    MessageID m' = MessageID m /\
    CorrelationID m' = CorrelationID m /\
    UserID m' = UserID m /\
    ExpiryTime m' = ExpiryTime m /\
    Properties m' = Properties m /\
    To m' = To m.
Proof.
  unfold commonamqp.FromAMQPMessage.
  rewrite ToAMQPMessage_ApplicationProperties. simpl.
  rewrite range_string_properties by reflexivity. simpl.
  eexists; split; [reflexivity|]. simpl.
  rewrite string_of_list_byte_of_string. by repeat split.
Qed.

Lemma reserved_string_annotation_spec k :
  reserved_string_annotation k = true <->
  k = VString "iothub-connection-device-id" \/
  k = VString "iothub-connection-auth-generation-id" \/
  k = VString "iothub-connection-auth-method" \/
  k = VString "iothub-message-source".
Proof.
  unfold reserved_string_annotation. rewrite bool_decide_eq_true.
  rewrite !elem_of_cons, elem_of_nil. tauto.
Qed.

Ltac reserved_case :=
  match goal with
  | |- context [reserved_string_annotation ?k] =>
      replace (reserved_string_annotation k) with true
        by (symmetry; apply reserved_string_annotation_spec; auto 6)
  end.

Ltac asserted_value v :=
  destruct v; simpl;
  (split;
   [ first [ intros [? ?]; discriminate | intros _; split; reflexivity ]
   | first [ intros [? _]; discriminate | intros [_ ?]; discriminate
           | intros _; eexists; reflexivity ] ]).

(** One annotation is decoded exactly when its value, and for a key that is
    not reserved the key, has the asserted type. *)
Lemma annotation_step_returns m kv :
  (exists m', commonamqp.annotation_step fmt_Sprint m kv = Ret m') <->
  annotation_value_typed kv = true /\ annotation_key_typed kv = true.
Proof.
  destruct kv as [k v].
  unfold commonamqp.annotation_step, annotation_value_typed, annotation_key_typed.
  simpl fst; simpl snd.
  destruct (decide (k = VString "iothub-enqueuedtime")) as [->|N0].
  { asserted_value v. }
  destruct (decide (k = VString "iothub-connection-device-id")) as [->|N1].
  { reserved_case.
    asserted_value v. }
  destruct (decide (k = VString "iothub-connection-auth-generation-id")) as [->|N2].
  { reserved_case.
    asserted_value v. }
  destruct (decide (k = VString "iothub-connection-auth-method")) as [->|N3].
  { reserved_case.
    asserted_value v. }
  destruct (decide (k = VString "iothub-message-source")) as [->|N4].
  { reserved_case.
    asserted_value v. }
  destruct (reserved_string_annotation k) eqn:E.
  { apply reserved_string_annotation_spec in E. tauto. }
  asserted_value k.
Qed.

Lemma range_annotations_returns l : forall m,
  (exists m', commonamqp.range_annotations fmt_Sprint m l = Ret m') <->
  Forall (fun kv => annotation_value_typed kv = true) l /\
  Forall (fun kv => annotation_key_typed kv = true) l.
Proof.
  induction l as [|kv l IH]; intros m; simpl.
  - split; [intros _; split; constructor | eauto].
  - rewrite !Forall_cons. split.
    + intros [m' H]. apply bind_Ret_inv in H as (m1 & H1 & H2).
      assert (Hs : exists x, commonamqp.annotation_step fmt_Sprint m kv = Ret x) by eauto.
      apply annotation_step_returns in Hs.
      assert (Hr : exists x, commonamqp.range_annotations fmt_Sprint m1 l = Ret x) by eauto.
      apply IH in Hr. tauto.
    + intros [[Hv Hvs] [Hk Hks]].
      destruct (proj2 (annotation_step_returns m kv) (conj Hv Hk)) as [m1 H1].
      rewrite H1. simpl. apply IH. tauto.
Qed.

Lemma range_application_properties_returns (ps : gmap string iface) (m0 : Message) :
  (exists m', map_fold commonamqp.application_property_step (Ret m0) ps = Ret m') <->
  map_Forall (fun _ v => is_string v = true) ps.
Proof.
  apply (map_fold_weak_ind (fun (r : res Message) (ps : gmap string iface) =>
           (exists m', r = Ret m') <-> map_Forall (fun _ v => is_string v = true) ps)).
  - split; [intros _; apply map_Forall_empty | eauto].
  - intros k v qs r Hk IH. rewrite map_Forall_insert by done.
    unfold commonamqp.application_property_step. split.
    + intros [m' H]. apply bind_Ret_inv in H as (m1 & -> & H).
      apply bind_Ret_inv in H as (s1 & Hs & _).
      split; [apply assert_string_is_string; eauto | apply IH; eauto].
    + intros [Hv Hqs]. apply IH in Hqs as [m1 ->].
      apply assert_string_is_string in Hv as [s1 ->]. simpl. eauto.
Qed.

(** The decoder returns exactly on the messages of its domain, and then
    without an error. *)
Lemma FromAMQPMessage_returns_iff (msg : AmqpMessage) :
  (exists m, commonamqp.FromAMQPMessage fmt_Sprint msg = Ret (m, None)) <-> decodable msg.
Proof.
  unfold decodable, asserted_types_hold, properties_typed, commonamqp.FromAMQPMessage.
  destruct msg as [data props anns aps]; simpl.
  destruct data as [|payload data]; simpl.
  { split; [intros [? ?]; discriminate | intros [[? _] _]; congruence]. }
  set (m0 := mkMessage "" "" 0 0 "" "" "" "" "" "" payload ∅).
  assert (Hstep : forall m1 : Message,
    (exists m, (m ← commonamqp.range_annotations fmt_Sprint m1 anns;
                m ← map_fold commonamqp.application_property_step (Ret m) aps;
                Ret (m, None)) = Ret (m, @None error)) <->
    (Forall (fun kv => annotation_value_typed kv = true) anns /\
     map_Forall (fun _ v => is_string v = true) aps) /\
    Forall (fun kv => annotation_key_typed kv = true) anns).
  { intros m1. split.
    - intros [m H]. apply bind_Ret_inv in H as (m2 & H2 & H).
      apply bind_Ret_inv in H as (m3 & H3 & _).
      assert (Ha : exists x, commonamqp.range_annotations fmt_Sprint m1 anns = Ret x) by eauto.
      apply range_annotations_returns in Ha.
      assert (Hp : exists x, map_fold commonamqp.application_property_step (Ret m2) aps = Ret x)
        by eauto.
      apply range_application_properties_returns in Hp. tauto.
    - intros [[Hv Hp] Hk].
      destruct (proj2 (range_annotations_returns anns m1) (conj Hv Hk)) as [m2 ->].
      destruct (proj2 (range_application_properties_returns aps m2) Hp) as [m3 H3].
      simpl. rewrite H3. simpl. eauto. }
  destruct props as [p|]; simpl.
  - destruct (mp_MessageID p) eqn:Emid; simpl;
      try (split; [intros [? ?]; discriminate | intros [(_ & ? & _) _]; discriminate]).
    destruct (mp_CorrelationID p) eqn:Ecid; simpl;
      try (split; [intros [? ?]; discriminate | intros [(_ & ? & _) _]; discriminate]).
    rewrite Hstep. split; [intros [[? ?] ?] | intros [(_ & _ & ? & ?) ?]]; repeat split; done.
  - rewrite (Hstep m0).
    split; [intros [[? ?] ?] | intros [(_ & _ & ? & ?) ?]]; repeat split; done.
Qed.

(** C10.  The decoder returns only on wire messages with a data segment and
    with the asserted types (and then without an error); outside that domain
    a panic is reachable: with no data segment, and with a properties block
    whose message id or correlation id is not a string, the decoder panics,
    it does not return an error. *)
Theorem FromAMQPMessage_domain :
  (forall msg m e,
     commonamqp.FromAMQPMessage fmt_Sprint msg = Ret (m, e) ->
     asserted_types_hold msg /\ e = None) /\
  (forall msg,
     am_Data msg = [] -> commonamqp.FromAMQPMessage fmt_Sprint msg = Panic) /\
  (forall msg p,
     am_Properties msg = Some p ->
     is_string (mp_MessageID p) = false \/ is_string (mp_CorrelationID p) = false ->
     commonamqp.FromAMQPMessage fmt_Sprint msg = Panic).
Proof.
  split; [|split].
  - intros msg m e H.
    assert (e = None) as ->.
    { unfold commonamqp.FromAMQPMessage in H.
      repeat (apply bind_Ret_inv in H as (? & _ & H)). by inversion H. }
    split; [|done].
    assert (Hd : decodable msg) by (apply FromAMQPMessage_returns_iff; eauto).
    apply Hd.
  - intros msg H. unfold commonamqp.FromAMQPMessage. by rewrite H.
  - intros msg p Hp Hty. unfold commonamqp.FromAMQPMessage.
    destruct (am_Data msg); [done|]. simpl. rewrite Hp.
    destruct Hty as [Hty|Hty].
    + destruct (mp_MessageID p); simpl in *; done.
    + destruct (mp_MessageID p); simpl; try done.
      destruct (mp_CorrelationID p); simpl in *; done.
Qed.

End CodecProperties.

(** ** Properties of the client *)

Ltac run_M :=
  unfold mbind, M_mbind, mret, M_mret, perform, ask, emit, get_client,
    put_client, lift, panic, defer; simpl.

Ltac trace_eq := simpl; rewrite <- ?app_assoc; simpl; reflexivity.

Section ClientProperties.

Variable env : Env.

(** *** Connect *)

(** The three ways [Connect] ends after the dial has succeeded. *)
Lemma Connect_run (s : State) (eh : handle) :
  let c := client s in
  let host := HostName (creds c) in
  let tr1 := trace s ++ [EvEventhubDial host] in
  eventhub_Dial env (trace s) host = Ok eh ->
  Connect env s =
    match creds_SAS env tr1 (creds c) host time_Hour with
    | Err err => (Ret (Some err), mkState c (tr1 ++ [EvEventhubClose eh]))
    | Ok sas =>
        match eh_PutTokenContinuously env tr1 eh host sas (done_closed c) with
        | Some err =>
            (Ret (Some err),
             mkState c ((tr1 ++ [EvPutTokenContinuously eh host sas])
                        ++ [EvEventhubClose eh]))
        | None =>
            (Ret None,
             mkState (mkClient (Some eh) (done_closed c) (creds c))
               (tr1 ++ [EvPutTokenContinuously eh host sas]))
        end
    end.
Proof.
  intros c host tr1 Hdial. subst c host tr1.
  unfold Connect. run_M. rewrite Hdial.
  destruct (creds_SAS env _ _ _ _) as [sas|err]; [|reflexivity].
  destruct (eh_PutTokenContinuously env _ _ _ _ _) as [err|]; reflexivity.
Qed.

(** C6.  After a successful dial of the transport [eh], a failure to mint
    the token or to submit it makes [Connect] return that error with the
    client unchanged and the close of [eh] as the last call made; and
    whenever [Connect] changes the client, the dial, the token and its
    submission have all succeeded, the result is nil and the connection
    stored is the transport dialed. *)
Theorem Connect_all_or_nothing (s : State) :
  let c := client s in
  let host := HostName (creds c) in
  let tr1 := trace s ++ [EvEventhubDial host] in
  (forall eh err,
     eventhub_Dial env (trace s) host = Ok eh ->
     creds_SAS env tr1 (creds c) host time_Hour = Err err \/
     (exists sas, creds_SAS env tr1 (creds c) host time_Hour = Ok sas /\
                  eh_PutTokenContinuously env tr1 eh host sas (done_closed c) = Some err) ->
     exists tr, Connect env s = (Ret (Some err), mkState c (tr ++ [EvEventhubClose eh]))) /\
  (forall r s',
     Connect env s = (r, s') -> client s' <> c ->
     exists eh sas,
       eventhub_Dial env (trace s) host = Ok eh /\
       creds_SAS env tr1 (creds c) host time_Hour = Ok sas /\
       eh_PutTokenContinuously env tr1 eh host sas (done_closed c) = None /\
       r = Ret None /\
       conn (client s') = Some eh /\
       close_count (trace s') = close_count (trace s)).
Proof.
  intros c host tr1. split.
  - intros eh err Hdial Hfail. rewrite (Connect_run s eh Hdial). fold c host tr1.
    destruct Hfail as [-> | (sas & -> & ->)]; eauto.
  - intros r s' Hrun Hne.
    destruct (eventhub_Dial env (trace s) host) as [eh|err] eqn:Hdial.
    + rewrite (Connect_run s eh Hdial) in Hrun. fold c host tr1 in Hrun.
      destruct (creds_SAS env tr1 (creds c) host time_Hour) as [sas|err] eqn:Hsas.
      * destruct (eh_PutTokenContinuously env tr1 eh host sas (done_closed c))
          as [err|] eqn:Hput; inversion Hrun; subst; simpl in *; [done|].
        exists eh, sas. repeat split; try done.
        unfold close_count, tr1. rewrite !omap_app, !length_app. simpl. lia.
      * inversion Hrun; subst; simpl in *; done.
    + unfold Connect in Hrun. revert Hrun. run_M. fold c host. rewrite Hdial.
      intros Hrun; inversion Hrun; subst; simpl in *; done.
Qed.

(** *** The liveness check and Close *)

Lemma isConnected_run (s : State) :
  isConnected s = (Ret (bool_decide (conn (client s) <> None)), s).
Proof. reflexivity. Qed.

Lemma Close_run (s : State) :
  let c := client s in
  Close env s =
    if done_closed c then (Ret None, s)
    else match conn c with
         | None => (Ret None, mkState (mkClient None true (creds c)) (trace s))
         | Some eh =>
             (Ret (eh_Close env (trace s) eh),
              mkState (mkClient (Some eh) true (creds c))
                (trace s ++ [EvEventhubClose eh]))
         end.
Proof.
  intros c. subst c. unfold Close. run_M.
  destruct (done_closed (client s)); [reflexivity|].
  destruct (conn (client s)); reflexivity.
Qed.

(** [Close] leaves the connection pointer as it found it and leaves the
    channel closed. *)
Lemma Close_client (s : State) :
  exists r s', Close env s = (Ret r, s') /\
    conn (client s') = conn (client s) /\
    creds (client s') = creds (client s) /\
    done_closed (client s') = true.
Proof.
  rewrite Close_run.
  destruct (done_closed (client s)) eqn:Hd; [by eauto 10|].
  destruct (conn (client s)) eqn:Hc; simpl; eauto 10.
Qed.

(** *** SendEvent *)

Lemma SendEvent_not_connected deviceID p opts (s : State) :
  deviceID <> "" -> conn (client s) = None ->
  SendEvent env deviceID (Some p) opts s = (Ret (Some errNotConnected), s).
Proof.
  intros Hd Hc. unfold SendEvent. rewrite bool_decide_eq_false_2 by done.
  unfold isConnected. run_M. rewrite Hc. reflexivity.
Qed.

Lemma SendEvent_connected deviceID p opts msg eh (s : State) :
  deviceID <> "" -> conn (client s) = Some eh ->
  apply_opts opts (devicebound deviceID (Some p)) = Ret (msg, None) ->
  let target := "/messages/devicebound" in
  let tr1 := trace s ++ [EvNewSender (eh_Sess env eh) target] in
  SendEvent env deviceID (Some p) opts s =
    match sess_NewSender env (trace s) (eh_Sess env eh) target with
    | Err err => (Ret (Some err), mkState (client s) tr1)
    | Ok send =>
        (Ret (send_Send env tr1 send (commonamqp.ToAMQPMessage msg)),
         mkState (client s)
           ((tr1 ++ [EvSend send (commonamqp.ToAMQPMessage msg)]) ++ [EvLinkClose send]))
    end.
Proof.
  intros Hd Hc Hopts target tr1. subst target tr1.
  unfold SendEvent. rewrite bool_decide_eq_false_2 by done.
  unfold isConnected. run_M. rewrite Hc. simpl.
  unfold devicebound in Hopts. rewrite Hopts. rewrite Hc.
  destruct (sess_NewSender env _ _ _); reflexivity.
Qed.

(** *** The feedback loop *)

Lemma dispatch_run v (s : State) :
  dispatch v s = (Ret tt, mkState (client s) (trace s ++ map EvGo v)).
Proof.
  revert s. induction v as [|f v IH]; intros s; simpl.
  - rewrite app_nil_r. by destruct s.
  - run_M. rewrite IH. simpl. by rewrite <- app_assoc.
Qed.

Lemma dispatched_go v : dispatched (map EvGo v) = v.
Proof. induction v as [|f v IH]; simpl; [done | by f_equal]. Qed.

Lemma accepted_go v : accepted (map EvGo v) = [].
Proof. induction v as [|f v IH]; simpl; done. Qed.

Lemma dispatched_app a b : dispatched (a ++ b) = dispatched a ++ dispatched b.
Proof. apply omap_app. Qed.

Lemma accepted_app a b : accepted (a ++ b) = accepted a ++ accepted b.
Proof. apply omap_app. Qed.

Lemma dispatched_round recv msg v new :
  dispatched ([EvReceive recv; EvAccept msg] ++ map EvGo v ++ new) = v ++ dispatched new.
Proof. by rewrite !dispatched_app, dispatched_go. Qed.

Lemma accepted_round recv msg v new :
  accepted ([EvReceive recv; EvAccept msg] ++ map EvGo v ++ new) = msg :: accepted new.
Proof. by rewrite !accepted_app, accepted_go. Qed.

(** One round of the loop on a message whose body decodes: the receive, the
    acknowledgement, then one dispatch per record, and the next round. *)
Lemma feedback_loop_round recv fuel (s : State) msg data rest v :
  recv_Receive env (trace s) recv = Ok msg ->
  am_Data msg = data :: rest ->
  json_Unmarshal_feedback env data = Ok v ->
  feedback_loop env recv (S fuel) s =
  feedback_loop env recv fuel
    (mkState (client s) (trace s ++ [EvReceive recv; EvAccept msg] ++ map EvGo v)).
Proof.
  intros Hrecv Hdata Hjson. simpl. run_M. rewrite Hrecv, Hdata. simpl.
  rewrite Hjson, dispatch_run. simpl. by rewrite <- !app_assoc.
Qed.

(** Over a whole run of the loop the client is untouched, the trace only
    grows, and the records dispatched are the elements of the bodies of the
    messages acknowledged, each one once and in order. *)
Lemma feedback_loop_trace recv fuel : forall (s : State) r s',
  feedback_loop env recv fuel s = (r, s') ->
  client s' = client s /\
  exists new, trace s' = trace s ++ new /\
    dispatched new = concat (map (feedback_body env) (accepted new)).
Proof.
  induction fuel as [|fuel IH]; intros s r s' Hrun.
  - inversion Hrun; subst. split; [done|]. exists []. by rewrite app_nil_r.
  - simpl in Hrun. revert Hrun. run_M.
    destruct (recv_Receive env (trace s) recv) as [msg|err] eqn:Hrecv.
    + destruct (am_Data msg) as [|data rest] eqn:Hdata; simpl.
      { intros Hrun; inversion Hrun; subst; simpl. split; [done|].
        exists [EvReceive recv; EvAccept msg]. rewrite <- app_assoc. split; [done|].
        simpl. unfold feedback_body. by rewrite Hdata. }
      destruct (json_Unmarshal_feedback env data) as [v|err] eqn:Hjson.
      * rewrite dispatch_run. simpl. intros Hrun.
        apply IH in Hrun as (Hc & new & Hnew & Hdisp). simpl in *.
        split; [done|].
        exists ([EvReceive recv; EvAccept msg] ++ map EvGo v ++ new).
        split; [rewrite Hnew; by rewrite <- !app_assoc|].
        rewrite dispatched_round, accepted_round. simpl.
        unfold feedback_body at 1. rewrite Hdata, Hjson. by rewrite Hdisp.
      * intros Hrun; inversion Hrun; subst; simpl. split; [done|].
        exists [EvReceive recv; EvAccept msg]. rewrite <- app_assoc. split; [done|].
        simpl. unfold feedback_body. by rewrite Hdata, Hjson.
    + intros Hrun; inversion Hrun; subst; simpl. split; [done|].
      exists [EvReceive recv]. done.
Qed.

Lemma SubscribeFeedback_not_connected fuel (s : State) :
  conn (client s) = None ->
  SubscribeFeedback env fuel s = (Ret (Returned (Some errNotConnected)), s).
Proof.
  intros Hc. unfold SubscribeFeedback. unfold isConnected. run_M. rewrite Hc. reflexivity.
Qed.

Lemma SubscribeFeedback_connected fuel eh (s : State) :
  conn (client s) = Some eh ->
  let source := "/messages/servicebound/feedback" in
  let s1 := mkState (client s) (trace s ++ [EvNewReceiver (eh_Sess env eh) source]) in
  SubscribeFeedback env fuel s =
    match sess_NewReceiver env (trace s) (eh_Sess env eh) source with
    | Err err => (Ret (Returned (Some err)), s1)
    | Ok recv => close_when_left recv (feedback_loop env recv fuel) s1
    end.
Proof.
  intros Hc source s1. subst source s1.
  unfold SubscribeFeedback. unfold isConnected. run_M. rewrite Hc. simpl. rewrite Hc.
  destruct (sess_NewReceiver env _ _ _); reflexivity.
Qed.

(** A subscription only adds to the trace, and what it dispatches is what
    the messages it acknowledged carry. *)
Lemma SubscribeFeedback_trace fuel (s : State) r s' :
  SubscribeFeedback env fuel s = (r, s') ->
  client s' = client s /\
  exists new, trace s' = trace s ++ new /\
    dispatched new = concat (map (feedback_body env) (accepted new)).
Proof.
  destruct (conn (client s)) as [eh|] eqn:Hc.
  - rewrite (SubscribeFeedback_connected fuel eh s Hc).
    destruct (sess_NewReceiver env _ _ _) as [recv|err].
    + unfold close_when_left.
      destruct (feedback_loop env recv fuel _) as [r1 s1] eqn:Hloop.
      apply feedback_loop_trace in Hloop as (Hcl & new & Hnew & Hdisp). simpl in *.
      assert (Hleft : forall r0,
        (r0, (emit (EvLinkClose recv) s1).2) = (r, s') ->
        client s' = client s /\
        exists new0, trace s' = trace s ++ new0 /\
          dispatched new0 = concat (map (feedback_body env) (accepted new0))).
      { intros r0 Hrun; inversion Hrun; subst; simpl. split; [done|].
        exists ([EvNewReceiver (eh_Sess env eh) "/messages/servicebound/feedback"]
                ++ new ++ [EvLinkClose recv]).
        split; [rewrite Hnew; by rewrite <- !app_assoc|].
        rewrite !dispatched_app, !accepted_app. simpl.
        by rewrite !app_nil_r. }
      destruct r1 as [[err|]|]; try apply Hleft.
      intros Hrun; inversion Hrun; subst; simpl. split; [done|].
      exists ([EvNewReceiver (eh_Sess env eh) "/messages/servicebound/feedback"] ++ new).
      split; [rewrite Hnew; by rewrite <- !app_assoc|].
      by rewrite !dispatched_app, !accepted_app.
    + intros Hrun; inversion Hrun; subst; simpl. split; [done|].
      by exists [EvNewReceiver (eh_Sess env eh) "/messages/servicebound/feedback"].
  - rewrite (SubscribeFeedback_not_connected fuel s Hc).
    intros Hrun; inversion Hrun; subst. split; [done|].
    exists []. by rewrite app_nil_r.
Qed.

(** Two facts on lists of events, used to locate a receive in a trace. *)
Lemma split_after_go (v : list (option Feedback)) pre recv post new :
  pre ++ EvReceive recv :: post = map EvGo v ++ new ->
  exists pre', pre = map EvGo v ++ pre' /\ new = pre' ++ EvReceive recv :: post.
Proof.
  revert pre. induction v as [|f v IH]; intros pre H; simpl in *.
  - by exists pre.
  - destruct pre as [|e pre]; simpl in H; [discriminate|].
    injection H as -> H. apply IH in H as (pre' & -> & ->). by exists pre'.
Qed.

Lemma split_before_last {A} (a b n : list A) (x y : A) :
  x <> y -> a ++ x :: b = n ++ [y] ->
  exists b0, b = b0 ++ [y] /\ n = a ++ x :: b0.
Proof.
  intros Hne H. destruct b as [|z b _] using rev_ind.
  - change (a ++ [x] = n ++ [y]) in H. apply app_inj_tail in H as [_ ?]. done.
  - rewrite app_comm_cons, app_assoc in H. apply app_inj_tail in H as [<- ->].
    by exists b.
Qed.

(** The shape of a run of the loop: it starts with a receive unless no round
    was granted, and every receive of it that returns a message is on the
    link of the loop and is followed as [round_after] says. *)
Lemma feedback_loop_shape recv fuel : forall (s : State) r s',
  feedback_loop env recv fuel s = (r, s') ->
  exists new, trace s' = trace s ++ new /\
    (new = [] /\ r = Ret Running /\ fuel = 0%nat \/
     exists rest, new = EvReceive recv :: rest) /\
    (forall pre post recv' msg,
       new = pre ++ EvReceive recv' :: post ->
       recv_Receive env (trace s ++ pre) recv' = Ok msg ->
       recv' = recv /\ round_after env recv msg r post).
Proof.
  induction fuel as [|fuel IH]; intros s r s' Hrun.
  - inversion Hrun; subst. exists []. rewrite app_nil_r. split; [done|].
    split; [by left|]. intros [|e pre] post recv' msg H; discriminate.
  - simpl in Hrun. revert Hrun. run_M.
    destruct (recv_Receive env (trace s) recv) as [msg|err] eqn:Hrecv.
    + assert (Hshort : forall r0,
        (forall data rest v, am_Data msg = data :: rest ->
           json_Unmarshal_feedback env data = Ok v -> False) ->
        forall pre post recv' msg',
          [EvReceive recv; EvAccept msg] = pre ++ EvReceive recv' :: post ->
          recv_Receive env (trace s ++ pre) recv' = Ok msg' ->
          recv' = recv /\ round_after env recv msg' r0 post).
      { intros r0 Hno pre post recv' msg' Hsplit Hrecv'.
        destruct pre as [|e [|e' [|e'' pre]]]; simpl in Hsplit; try discriminate.
        injection Hsplit as <- <-. rewrite app_nil_r, Hrecv in Hrecv'.
        injection Hrecv' as <-. split; [done|]. exists []. split; [done|].
        intros data rest v Hdata Hjson. destruct (Hno _ _ _ Hdata Hjson). }
      destruct (am_Data msg) as [|data rest] eqn:Hdata; simpl.
      { intros Hrun; inversion Hrun; subst; simpl.
        exists [EvReceive recv; EvAccept msg]. rewrite <- app_assoc. split; [done|].
        split; [right; by eexists|]. apply Hshort.
        intros data' rest' v' Hdata'. discriminate. }
      destruct (json_Unmarshal_feedback env data) as [v|err] eqn:Hjson.
      * rewrite dispatch_run. simpl. intros Hrun.
        apply IH in Hrun as (new & Hnew & Hhead & Hrounds). simpl in *.
        exists ([EvReceive recv; EvAccept msg] ++ map EvGo v ++ new).
        split; [rewrite Hnew; by rewrite <- !app_assoc|].
        split; [right; by eexists|].
        intros pre post recv' msg' Hsplit Hrecv'.
        destruct pre as [|e pre]; simpl in Hsplit.
        -- injection Hsplit as <- <-. rewrite app_nil_r, Hrecv in Hrecv'.
           injection Hrecv' as <-. split; [done|]. eexists. split; [done|].
           intros data' rest' v' Hdata' Hjson'. rewrite Hdata in Hdata'.
           injection Hdata' as <- <-. rewrite Hjson in Hjson'.
           injection Hjson' as <-. exists new. split; [done|].
           destruct Hhead as [(-> & -> & _)|Hhead]; [by left | by right].
        -- injection Hsplit as <- Hsplit.
           destruct pre as [|e pre]; simpl in Hsplit; [discriminate|].
           injection Hsplit as <- Hsplit. symmetry in Hsplit.
           apply split_after_go in Hsplit as (pre' & -> & ->).
           apply (Hrounds pre'); [done|].
           rewrite <- Hrecv'. f_equal. simpl. by rewrite <- !app_assoc.
      * intros Hrun; inversion Hrun; subst; simpl.
        exists [EvReceive recv; EvAccept msg]. rewrite <- app_assoc. split; [done|].
        split; [right; by eexists|]. apply Hshort.
        intros data' rest' v' [= <- <-] Hjson'. by rewrite Hjson in Hjson'.
    + intros Hrun; inversion Hrun; subst; simpl.
      exists [EvReceive recv]. split; [done|]. split; [right; by eexists|].
      intros pre post recv' msg Hsplit Hrecv'.
      destruct pre as [|e [|e' pre]]; simpl in Hsplit; try discriminate.
      injection Hsplit as <- <-. rewrite app_nil_r, Hrecv in Hrecv'. discriminate.
Qed.

(** C8.  Over a subscription of any length the trace only grows.  On a
    connected client whose feedback link opens, a subscription granted a
    round opens the link and receives on it.  Every receive of the
    subscription that returns a message is a receive on the link it opened
    and is followed at once by the acknowledgement of that message; and
    when the body of the message decodes to the records [v], the
    acknowledgement is followed by one dispatch of the callback for each
    record of [v], in order, and by nothing else before the next receive:
    [length v] dispatches for the message.  The records dispatched over the
    whole subscription are the elements of the bodies of the messages
    acknowledged, each exactly once. *)
Theorem SubscribeFeedback_dispatch (fuel : nat) (s : State) r s' :
  SubscribeFeedback env fuel s = (r, s') ->
  let source := "/messages/servicebound/feedback"%string in
  exists new,
    trace s' = trace s ++ new /\
    (forall eh recv,
       conn (client s) = Some eh ->
       sess_NewReceiver env (trace s) (eh_Sess env eh) source = Ok recv ->
       (0 < fuel)%nat ->
       exists rest,
         new = EvNewReceiver (eh_Sess env eh) source :: EvReceive recv :: rest) /\
    (forall pre post recv msg,
       new = pre ++ EvReceive recv :: post ->
       recv_Receive env (trace s ++ pre) recv = Ok msg ->
       (exists eh, conn (client s) = Some eh /\
          sess_NewReceiver env (trace s) (eh_Sess env eh) source = Ok recv) /\
       exists post1, post = EvAccept msg :: post1 /\
         forall data rest v,
           am_Data msg = data :: rest ->
           json_Unmarshal_feedback env data = Ok v ->
           exists post2, post1 = map EvGo v ++ post2 /\
             length (dispatched (map EvGo v)) = length v /\
             (post2 = [] /\ r = Ret Running \/
              exists post3, post2 = EvReceive recv :: post3)) /\
    dispatched new = concat (map (feedback_body env) (accepted new)).
Proof.
  intros Hrun source.
  destruct (SubscribeFeedback_trace _ _ _ _ Hrun) as (_ & new & Hnew & Hdisp).
  exists new. split; [done|]. split; [|split; [|done]].
  - intros eh recv Hc Hopen Hfuel.
    rewrite (SubscribeFeedback_connected fuel eh s Hc) in Hrun. fold source in Hrun.
    rewrite Hopen in Hrun. unfold close_when_left in Hrun.
    destruct (feedback_loop env recv fuel _) as [r1 s1] eqn:Hloop.
    apply feedback_loop_shape in Hloop as (new1 & Hnew1 & Hhead & _). simpl in Hnew1.
    destruct Hhead as [(_ & _ & ->)|[rest ->]]; [lia|].
    assert (Htr : exists tail, trace s' = trace s1 ++ tail).
    { destruct r1 as [[err|]|]; inversion Hrun; subst; simpl;
        first [by exists [EvLinkClose recv] | exists []; by rewrite app_nil_r]. }
    destruct Htr as [tail Htr]. rewrite Hnew1, Hnew in Htr.
    rewrite <- !app_assoc in Htr. apply app_inv_head in Htr. subst new.
    by eexists.
  - intros pre post recv msg -> Hrecv.
    destruct (conn (client s)) as [eh|] eqn:Hc.
    2:{ rewrite (SubscribeFeedback_not_connected fuel s Hc) in Hrun.
        inversion Hrun; subst. apply (f_equal length) in Hnew.
        rewrite !length_app in Hnew. simpl in Hnew. lia. }
    rewrite (SubscribeFeedback_connected fuel eh s Hc) in Hrun. fold source in Hrun.
    destruct (sess_NewReceiver env (trace s) (eh_Sess env eh) source)
      as [link|err] eqn:Hopen.
    2:{ inversion Hrun; subst. simpl in Hnew. apply app_inv_head in Hnew.
        destruct pre as [|e [|e' pre]]; discriminate. }
    unfold close_when_left in Hrun.
    destruct (feedback_loop env link fuel _) as [r1 s1] eqn:Hloop.
    apply feedback_loop_shape in Hloop as (new1 & Hnew1 & _ & Hrounds).
    simpl in Hnew1, Hrounds.
    assert (Hlift : forall pre1 post1,
              new1 = pre1 ++ EvReceive recv :: post1 ->
              pre = EvNewReceiver (eh_Sess env eh) source :: pre1 ->
              recv = link /\ round_after env link msg r1 post1).
    { intros pre1 post1 -> ->. apply (Hrounds pre1); [done|].
      rewrite <- Hrecv. f_equal. by rewrite <- app_assoc. }
    assert (Hgoal : recv = link /\ round_after env link msg r post).
    { destruct r1 as [[err|]|].
      - inversion Hrun; subst; simpl in *. rewrite Hnew1 in Hnew.
        rewrite <- !app_assoc in Hnew. apply app_inv_head in Hnew. simpl in Hnew.
        destruct pre as [|e pre]; simpl in Hnew; [discriminate|].
        injection Hnew as He Hnew. subst e. symmetry in Hnew.
        apply split_before_last in Hnew as (post0 & -> & Hnew1'); [|discriminate].
        destruct (Hlift pre post0 Hnew1' eq_refl) as (-> & post1 & -> & Hbody).
        split; [done|]. exists (post1 ++ [EvLinkClose link]). split; [done|].
        intros data rest v Hdata Hjson.
        destruct (Hbody data rest v Hdata Hjson) as (post2 & -> & [[_ ?]|[post3 ->]]);
          [discriminate|].
        exists (EvReceive link :: post3 ++ [EvLinkClose link]).
        split; [by rewrite <- app_assoc|]. right. by eexists.
      - inversion Hrun; subst; simpl in *. rewrite Hnew1 in Hnew.
        rewrite <- !app_assoc in Hnew. apply app_inv_head in Hnew. simpl in Hnew.
        destruct pre as [|e pre]; simpl in Hnew; [discriminate|].
        injection Hnew as He Hnew. subst e.
        exact (Hlift pre post Hnew eq_refl).
      - inversion Hrun; subst; simpl in *. rewrite Hnew1 in Hnew.
        rewrite <- !app_assoc in Hnew. apply app_inv_head in Hnew. simpl in Hnew.
        destruct pre as [|e pre]; simpl in Hnew; [discriminate|].
        injection Hnew as He Hnew. subst e. symmetry in Hnew.
        apply split_before_last in Hnew as (post0 & -> & Hnew1'); [|discriminate].
        destruct (Hlift pre post0 Hnew1' eq_refl) as (-> & post1 & -> & Hbody).
        split; [done|]. exists (post1 ++ [EvLinkClose link]). split; [done|].
        intros data rest v Hdata Hjson.
        destruct (Hbody data rest v Hdata Hjson) as (post2 & -> & [[_ ?]|[post3 ->]]);
          [discriminate|].
        exists (EvReceive link :: post3 ++ [EvLinkClose link]).
        split; [by rewrite <- app_assoc|]. right. by eexists. }
    destruct Hgoal as (-> & post1 & -> & Hbody).
    split; [by exists eh|]. exists post1. split; [done|].
    intros data rest v Hdata Hjson.
    destruct (Hbody data rest v Hdata Hjson) as (post2 & -> & Hnext).
    exists post2. split; [done|]. split; [|done].
    by rewrite dispatched_go.
Qed.

(** C7.  With an empty device id or a nil payload [SendEvent] returns a
    validation error, the same one whatever the options, the client and the
    collaborators, and leaves the client and the trace as they were: the
    connection is not read and no call is made. *)
Theorem SendEvent_validation (deviceID : string) (payload : bytes) :
  deviceID = "" \/ payload = None ->
  exists reason, forall (env' : Env) (opts : list SendOption) (s : State),
    SendEvent env' deviceID payload opts s = (Ret (Some (errorString reason)), s).
Proof.
  intros Hbad. unfold SendEvent.
  destruct (bool_decide (deviceID = "")) eqn:Hd.
  - eexists. intros. reflexivity.
  - destruct Hbad as [->| ->]; [done|]. eexists. intros. reflexivity.
Qed.

(** C2, as the code has it.  [Close] does not clear the connection pointer:
    the liveness check answers after [Close] what it answered before.  On a
    client that never connected, [SubscribeFeedback] and [SendEvent] (with a
    device id and a payload) then return the not-connected error and call
    nothing; on a client that was connected they pass the check and go on
    to open a link on the session of the closed transport. *)
Theorem Close_keeps_connection (s : State) :
  exists r s',
    Close env s = (Ret r, s') /\
    conn (client s') = conn (client s) /\
    isConnected s' = (Ret (bool_decide (conn (client s) <> None)), s') /\
    (conn (client s) = None ->
       (forall fuel,
          SubscribeFeedback env fuel s' = (Ret (Returned (Some errNotConnected)), s')) /\
       (forall deviceID p opts, deviceID <> "" ->
          SendEvent env deviceID (Some p) opts s' = (Ret (Some errNotConnected), s'))) /\
    (forall eh, conn (client s) = Some eh ->
       (forall fuel, exists r2 s2 tr,
          SubscribeFeedback env fuel s' = (r2, s2) /\
          trace s2 = trace s' ++
            EvNewReceiver (eh_Sess env eh) "/messages/servicebound/feedback" :: tr) /\
       (forall deviceID p opts msg, deviceID <> "" ->
          apply_opts opts (devicebound deviceID (Some p)) = Ret (msg, None) ->
          exists r2 s2 tr,
            SendEvent env deviceID (Some p) opts s' = (r2, s2) /\
            trace s2 = trace s' ++
              EvNewSender (eh_Sess env eh) "/messages/devicebound" :: tr)).
Proof.
  destruct (Close_client s) as (r & s' & Hrun & Hconn & _ & _).
  exists r, s'. split; [done|]. split; [done|].
  split; [by rewrite isConnected_run, Hconn|]. split.
  - intros Hnone. rewrite Hnone in Hconn. split.
    + intros fuel. by apply SubscribeFeedback_not_connected.
    + intros deviceID p opts Hd. by apply SendEvent_not_connected.
  - intros eh Hsome. rewrite Hsome in Hconn. split.
    + intros fuel. rewrite (SubscribeFeedback_connected fuel eh s' Hconn).
      destruct (sess_NewReceiver env _ _ _) as [recv|err].
      * unfold close_when_left.
        destruct (feedback_loop env recv fuel _) as [r1 s1] eqn:Hloop.
        apply feedback_loop_trace in Hloop as (_ & new & Hnew & _). simpl in Hnew.
        destruct r1 as [[err|]|].
        -- eexists _, _, (new ++ [EvLinkClose recv]). split; [reflexivity|]. simpl.
           rewrite Hnew. by rewrite <- !app_assoc.
        -- eexists _, _, new. split; [reflexivity|]. rewrite Hnew. by rewrite <- !app_assoc.
        -- eexists _, _, (new ++ [EvLinkClose recv]). split; [reflexivity|]. simpl.
           rewrite Hnew. by rewrite <- !app_assoc.
      * eexists _, _, []. split; reflexivity.
    + intros deviceID p opts msg Hd Hopts.
      rewrite (SendEvent_connected deviceID p opts msg eh s' Hd Hconn Hopts).
      destruct (sess_NewSender env _ _ _) as [send|err].
      * eexists _, _, _. split; [reflexivity|]. simpl. by rewrite <- !app_assoc.
      * eexists _, _, []. split; reflexivity.
Qed.

(** C9, as the code has it.  Of two calls of [Close] the second returns nil
    and changes nothing, and the transport is closed at most once over the
    two.  The first call returns nil and changes nothing when the client was
    closed before; returns nil and makes no call when the client has no
    connection; and otherwise closes the transport, once, and returns what
    that close returns, an error included. *)
Theorem Close_twice (s : State) :
  exists r1 s1,
    Close env s = (Ret r1, s1) /\
    Close env s1 = (Ret None, s1) /\
    (close_count (trace s1) <= close_count (trace s) + 1)%nat /\
    (done_closed (client s) = true -> r1 = None /\ s1 = s) /\
    (done_closed (client s) = false -> conn (client s) = None ->
       r1 = None /\ trace s1 = trace s) /\
    (forall eh,
       done_closed (client s) = false -> conn (client s) = Some eh ->
       r1 = eh_Close env (trace s) eh /\
       trace s1 = trace s ++ [EvEventhubClose eh] /\
       close_count (trace s1) = S (close_count (trace s))).
Proof.
  destruct (Close_client s) as (r1 & s1 & Hrun & _ & _ & Hdone).
  exists r1, s1. split; [done|].
  split; [rewrite (Close_run s1), Hdone; reflexivity|].
  rewrite Close_run in Hrun.
  destruct (done_closed (client s)) eqn:Hd.
  { inversion Hrun; subst. split; [lia|]. repeat split; intros; done. }
  destruct (conn (client s)) as [eh|] eqn:Hc; inversion Hrun; subst; simpl.
  - assert (Hcount : close_count (trace s ++ [EvEventhubClose eh])
                     = S (close_count (trace s))).
    { unfold close_count. rewrite omap_app, length_app. simpl. lia. }
    split; [lia|]. split; [done|]. split; [done|].
    intros eh' _ [= <-]. done.
  - split; [lia|]. split; [done|]. split; [done|]. intros; done.
Qed.

(** *** The redirect resolver *)

(** What [connectToEventHub] does once the probe receive has answered. *)
Lemma connectToEventHub_run (s : State) user pass conn0 sess recv r :
  probe_receives env s user pass conn0 sess recv r ->
  let cr := creds (client s) in
  let tr := probe_trace s user pass conn0 sess recv in
  let released := tr ++ [EvLinkClose recv; EvSessionClose sess; EvConnClose (Some conn0)] in
  connectToEventHub env s =
    match r with
    | Ok _ =>
        (Ret (None, ""%string, Some (errorString "expected redirect error")),
         mkState (client s) (tr ++ [EvLinkClose recv; EvSessionClose sess]))
    | Err (DetachError None) => (Panic, mkState (client s) released)
    | Err (DetachError (Some rerr)) =>
        if negb (String.eqb (Condition rerr) ErrorLinkRedirect) then
          (Ret (None, ""%string, Some (DetachError (Some rerr))),
           mkState (client s) released)
        else
          match redirect_target rerr with
          | Panic => (Panic, mkState (client s) released)
          | Ret (group, addr) =>
              let dial := EvAmqpDial addr (SharedAccessKeyName cr) (SharedAccessKey cr) in
              match amqp_Dial env tr addr (SharedAccessKeyName cr) (SharedAccessKey cr) with
              | Err err' =>
                  (Panic,
                   mkState (client s)
                     (tr ++ [dial; EvLinkClose recv; EvSessionClose sess]))
              | Ok conn1 =>
                  (Ret (Some conn1, group, None),
                   mkState (client s)
                     (tr ++ [dial; EvLinkClose recv; EvSessionClose sess]))
              end
          end
    | Err err => (Ret (None, ""%string, Some err), mkState (client s) released)
    end.
Proof.
  intros (Huser & Hsas & Hdial & Hsess & Hrecv & Hr) cr tr released.
  subst cr tr released. unfold probe_trace, probe_user in *.
  unfold connectToEventHub, probe_deferred. run_M.
  rewrite Huser, Hsas, Hdial. simpl. rewrite Hsess. simpl.
  rewrite <- !app_assoc. simpl. rewrite Hrecv. simpl.
  rewrite <- !app_assoc. simpl. rewrite Hr.
  destruct r as [msg|err]; [trace_eq|].
  destruct err as [reason|[rerr|]|code]; try trace_eq.
  destruct (negb (String.eqb (Condition rerr) ErrorLinkRedirect)); [trace_eq|].
  destruct (redirect_target rerr) as [[group addr]|]; [|trace_eq].
  simpl. destruct (amqp_Dial env _ addr _ _); trace_eq.
Qed.

Lemma dial_count_app a b : dial_count (a ++ b) = (dial_count a + dial_count b)%nat.
Proof. unfold dial_count. by rewrite omap_app, length_app. Qed.

Lemma dial_count_probe (s : State) user pass conn0 sess recv :
  dial_count (probe_trace s user pass conn0 sess recv) = S (dial_count (trace s)).
Proof. unfold probe_trace, dial_count. rewrite omap_app, length_app. simpl. lia. Qed.

(** C4.  A detach error without a remote error is an error of the probe
    receive that is not a link redirect, and the resolver does not return
    it: reading the condition through the nil pointer panics.  The deferred
    calls have closed the probe link, session and connection, and one dial
    has been made. *)
Theorem connectToEventHub_detach_without_remote_error (s : State) user pass conn0 sess recv :
  probe_receives env s user pass conn0 sess recv (Err (DetachError None)) ->
  exists s',
    connectToEventHub env s = (Panic, s') /\
    trace s' = probe_trace s user pass conn0 sess recv
               ++ [EvLinkClose recv; EvSessionClose sess; EvConnClose (Some conn0)] /\
    dial_count (trace s') = S (dial_count (trace s)).
Proof.
  intros Hprobe. pose proof (connectToEventHub_run s _ _ _ _ _ _ Hprobe) as Hrun.
  simpl in Hrun. rewrite Hrun. eexists. split; [reflexivity|]. split; [reflexivity|].
  simpl. rewrite dial_count_app, dial_count_probe. unfold dial_count. simpl. lia.
Qed.

(** X27.  When the probe receive fails with an error that is not a detach
    error, or with a detach error whose remote error has a condition other
    than link redirect, the resolver returns that very error and has dialed
    once, the probe connection only; when the probe receive succeeds, the
    resolver fails too, with an error of its own, and has dialed once. *)
Theorem connectToEventHub_other_error (s : State) user pass conn0 sess recv r :
  probe_receives env s user pass conn0 sess recv r ->
  (forall err, r = Err err -> other_error err ->
     exists s', connectToEventHub env s = (Ret (None, ""%string, Some err), s') /\
                dial_count (trace s') = S (dial_count (trace s))) /\
  (forall msg, r = Ok msg ->
     exists err s', connectToEventHub env s = (Ret (None, ""%string, Some err), s') /\
                    dial_count (trace s') = S (dial_count (trace s))).
Proof.
  intros Hprobe. pose proof (connectToEventHub_run s _ _ _ _ _ _ Hprobe) as Hrun.
  simpl in Hrun. split.
  - intros err -> Hnot.
    assert (Hcount : forall l, dial_count l = 0%nat ->
              dial_count (probe_trace s user pass conn0 sess recv ++ l)
              = S (dial_count (trace s))).
    { intros l Hl. rewrite dial_count_app, dial_count_probe, Hl. lia. }
    destruct err as [reason|[rerr|]|code]; simpl in Hnot; [| |done|].
    + rewrite Hrun. eexists. split; [reflexivity|]. by apply Hcount.
    + apply String.eqb_neq in Hnot. rewrite Hnot in Hrun. simpl in Hrun.
      rewrite Hrun. eexists. split; [reflexivity|]. by apply Hcount.
    + rewrite Hrun. eexists. split; [reflexivity|]. by apply Hcount.
  - intros msg ->. rewrite Hrun. eexists _, _. split; [reflexivity|]. simpl.
    rewrite dial_count_app, dial_count_probe. unfold dial_count. simpl. lia.
Qed.


(** *** Direct methods *)

(** C5.  When the inputs are present, the options and the encoding succeed
    and the REST request answers with the body [b], [Call] decodes [b] into
    the envelope and returns the payload field of the envelope as the
    decoder left it, with the decoder's error; the status field is not part
    of what is returned.  For a decoding without error this is the payload of
    the parsed envelope. *)
Theorem Call_returns_payload deviceID methodName payload opts v b0 b ir err
    (s s' : State) :
  deviceID <> ""%string -> methodName <> ""%string -> size payload <> 0%nat ->
  apply_opts opts (mkCall methodName 0 0 payload) = Ret (v, None) ->
  json_Marshal env v = Ok b0 ->
  request env "POST" "twins/%s/methods" deviceID b0 s = (Ret (Ok b), s') ->
  json_Unmarshal_envelope env b (mkEnvelope 0 ∅) = (ir, err) ->
  Call env deviceID methodName payload opts s = (Ret (ir_Payload ir, err), s').
Proof.
  intros Hd Hm Hp Hopts Hmarshal Hreq Hjson. unfold Call.
  rewrite !bool_decide_eq_false_2 by done.
  rewrite Hopts, Hmarshal. unfold mbind, M_mbind. rewrite Hreq, Hjson. reflexivity.
Qed.

End ClientProperties.

(** ** The statements on the sample collaborators *)

Lemma FromAMQPMessage_domain_witness :
  commonamqp.FromAMQPMessage (fun _ => ""%string) (mkAmqpMessage [] None [] ∅) = Panic /\
  commonamqp.FromAMQPMessage (fun _ => ""%string)
    (mkAmqpMessage [Some []]
       (Some (mkMessageProperties (VInt 7) None "" (VString "correlation-1") 0)) [] ∅)
  = Panic /\
  asserted_types_hold (commonamqp.ToAMQPMessage sample_message).
Proof.
  destruct (FromAMQPMessage_domain (fun _ => ""%string)) as (Hret & Hdata & Hprops).
  split; [apply Hdata; reflexivity|].
  split; [eapply Hprops; [reflexivity | left; reflexivity]|].
  eapply Hret. vm_compute. reflexivity.
Defined.

Lemma Connect_all_or_nothing_witness :
  (exists tr,
     Connect sample_env_no_token sample_fresh
     = (Ret (Some (errorString "illegal base64 data")),
        mkState (client sample_fresh) (tr ++ [EvEventhubClose 1%nat]))) /\
  (exists eh sas,
     conn (client (Connect (sample_env (Err (ExternalError 7)) None (Ok [])) sample_fresh).2)
     = Some eh /\ sas = sample_pass).
Proof.
  split.
  - apply (proj1 (Connect_all_or_nothing sample_env_no_token sample_fresh));
      [reflexivity | left; reflexivity].
  - destruct (proj2 (Connect_all_or_nothing
                       (sample_env (Err (ExternalError 7)) None (Ok [])) sample_fresh)
                _ _ eq_refl) as (eh & sas & _ & Hsas & _ & _ & Hconn & _);
      [discriminate|].
    exists eh, sas. split; [exact Hconn|]. by inversion Hsas.
Defined.

Lemma SendEvent_validation_witness :
  exists reason, forall (env' : Env) (opts : list SendOption) (s : State),
    SendEvent env' "" (bytes_of_string "ping") opts s
    = (Ret (Some (errorString reason)), s).
Proof. apply SendEvent_validation. left; reflexivity. Defined.

Lemma SubscribeFeedback_dispatch_witness :
  let env := sample_env (Ok sample_delivery) None (Ok sample_records) in
  exists post2,
    trace (SubscribeFeedback env 3 sample_connected).2
    = trace sample_connected ++
      [EvNewReceiver 2%nat "/messages/servicebound/feedback"; EvReceive 5%nat;
       EvAccept sample_delivery; EvGo (Some sample_feedback); EvGo None] ++ post2 /\
    (post2 = [] /\ (SubscribeFeedback env 3 sample_connected).1 = Ret Running \/
     exists post3, post2 = EvReceive 5%nat :: post3).
Proof.
  intros env.
  destruct (SubscribeFeedback_dispatch env 3 sample_connected _ _ (surjective_pairing _))
    as (new & Hnew & Hopen & Hround & _).
  destruct (Hopen 1%nat 5%nat eq_refl eq_refl (Nat.lt_0_succ 2)) as [rest ->].
  destruct (Hround [EvNewReceiver 2%nat "/messages/servicebound/feedback"] rest
              5%nat sample_delivery eq_refl eq_refl) as (_ & post1 & -> & Hbody).
  destruct (Hbody (bytes_of_string "[{},null]") [] sample_records eq_refl eq_refl)
    as (post2 & -> & _ & Hnext).
  exists post2. split; [exact Hnew | exact Hnext].
Defined.

Lemma Close_keeps_connection_witness :
  let env := sample_env (Err (ExternalError 7)) None (Ok []) in
  exists r s',
    Close env sample_connected = (Ret r, s') /\
    isConnected s' = (Ret true, s') /\
    exists r2 s2 tr,
      SendEvent env "device-1" (bytes_of_string "ping") [WithSendAck env AckFull] s'
      = (r2, s2) /\
      trace s2 = trace s' ++ EvNewSender 2%nat "/messages/devicebound" :: tr.
Proof.
  intros env.
  destruct (Close_keeps_connection env sample_connected)
    as (r & s' & Hrun & _ & Hlive & _ & Hsome).
  exists r, s'. split; [exact Hrun|]. split; [exact Hlive|].
  destruct (Hsome 1%nat eq_refl) as [_ Hsend].
  eapply (Hsend "device-1"%string); [discriminate | reflexivity].
Defined.

Lemma connectToEventHub_detach_without_remote_error_witness :
  exists s',
    connectToEventHub (sample_env (Err (DetachError None)) None (Ok [])) sample_fresh
    = (Panic, s') /\
    trace s' = [EvAmqpDial "amqps://hub.azure-devices.net" sample_user sample_pass;
                EvNewSession 3%nat;
                EvNewReceiver 4%nat "messages/events/";
                EvReceive 5%nat;
                EvLinkClose 5%nat; EvSessionClose 4%nat; EvConnClose (Some 3%nat)] /\
    dial_count (trace s') = 1%nat.
Proof.
  apply (connectToEventHub_detach_without_remote_error
           (sample_env (Err (DetachError None)) None (Ok [])) sample_fresh
           sample_user sample_pass 3%nat 4%nat 5%nat).
  repeat split; reflexivity.
Defined.

Lemma connectToEventHub_other_error_witness :
  (exists s',
     connectToEventHub (sample_env (Err (ExternalError 42)) None (Ok [])) sample_fresh
     = (Ret (None, ""%string, Some (ExternalError 42)), s') /\
     dial_count (trace s') = 1%nat) /\
  (exists err s',
     connectToEventHub (sample_env (Ok sample_delivery) None (Ok [])) sample_fresh
     = (Ret (None, ""%string, Some err), s') /\
     dial_count (trace s') = 1%nat).
Proof.
  split.
  - apply (proj1 (connectToEventHub_other_error
                    (sample_env (Err (ExternalError 42)) None (Ok [])) sample_fresh
                    sample_user sample_pass 3%nat 4%nat 5%nat (Err (ExternalError 42))
                    ltac:(repeat split; reflexivity))
             (ExternalError 42) eq_refl I).
  - apply (proj2 (connectToEventHub_other_error
                    (sample_env (Ok sample_delivery) None (Ok [])) sample_fresh
                    sample_user sample_pass 3%nat 4%nat 5%nat (Ok sample_delivery)
                    ltac:(repeat split; reflexivity))
             sample_delivery eq_refl).
Defined.


Lemma Close_twice_witness :
  let env := sample_env (Err (ExternalError 7)) (Some (ExternalError 9)) (Ok []) in
  exists s1,
    Close env sample_connected = (Ret (Some (ExternalError 9)), s1) /\
    Close env s1 = (Ret None, s1) /\
    trace s1 = trace sample_connected ++ [EvEventhubClose 1%nat].
Proof.
  intros env.
  destruct (Close_twice env sample_connected)
    as (r1 & s1 & Hrun & Hagain & _ & _ & _ & Hopen).
  destruct (Hopen 1%nat eq_refl eq_refl) as (-> & Htrace & _).
  exists s1. split; [exact Hrun|]. split; [exact Hagain | exact Htrace].
Defined.

Lemma Call_returns_payload_witness :
  let env := sample_env (Err (ExternalError 7)) None (Ok []) in
  let sent := mkCall "reboot" 30 0 {["delay"%string := VInt 5]} in
  exists s',
    Call env "device-1" "reboot" {["delay"%string := VInt 5]}
      [WithCallConnectTimeout 30] sample_fresh
    = (Ret ({["result"%string := VBytes (Some [])]}, None), s') /\
    trace s' = [EvHTTPDo (mkRequest "POST" "https://%s/twins/%s/methods?api-version=%s"
                            {["Content-Type"%string := "application/json; charset=utf-8"%string;
                              "Authorization"%string := sample_pass;
                              "Request-Id"%string := "request-1"%string]}
                            (Some []));
                EvBodyClose].
Proof.
  intros env sent.
  pose proof (Call_returns_payload env "device-1" "reboot" {["delay"%string := VInt 5]}
                [WithCallConnectTimeout 30] sent (Some []) (Some [])
                (mkEnvelope 200 {["result"%string := VBytes (Some [])]}) None
                sample_fresh _
                ltac:(discriminate) ltac:(discriminate) ltac:(vm_compute; discriminate)
                eq_refl eq_refl eq_refl eq_refl) as Hcall.
  eexists. split; [exact Hcall|]. vm_compute. reflexivity.
Defined.

(** C2, as stated, fails on a connected client: after [Close] the liveness
    check still answers connected. *)
Lemma Close_clears_connection_counterexample :
  ~ Close_clears_connection (sample_env (Err (ExternalError 7)) None (Ok []))
      sample_connected.
Proof.
  intros H. destruct (H _ _ eq_refl) as [Hlive _]. discriminate Hlive.
Qed.

(** C9, as stated, fails when the close of the transport fails: the first
    [Close] returns that error. *)
Lemma Close_twice_without_error_counterexample :
  ~ Close_twice_without_error
      (sample_env (Err (ExternalError 7)) (Some (ExternalError 9)) (Ok []))
      sample_connected.
Proof.
  intros (s1 & s2 & H1 & _). discriminate H1.
Qed.

(** ** Further properties of the codec *)

Section CodecFurther.

Variable fmt_Sprint : iface -> string.

Lemma set_Properties_id (m : Message) : set_Properties m (Properties m) = m.
Proof. by destruct m. Qed.

(** The loop over the application properties adds them, as strings, on top
    of the properties already there and touches nothing else. *)
Lemma range_application_properties_result (aps : gmap string iface) (m0 m : Message) :
  map_fold commonamqp.application_property_step (Ret m0) aps = Ret m ->
  exists ps : gmap string string,
    aps = VString <$> ps /\ m = set_Properties m0 (ps ∪ Properties m0).
Proof.
  revert m.
  apply (map_fold_weak_ind (fun (r : res Message) (aps : gmap string iface) =>
           forall m, r = Ret m ->
             exists ps : gmap string string,
               aps = VString <$> ps /\ m = set_Properties m0 (ps ∪ Properties m0))).
  - intros m [= <-]. exists ∅. rewrite fmap_empty, (left_id_L ∅ (∪)).
    by rewrite set_Properties_id.
  - intros k v qs r Hk IH m H. unfold commonamqp.application_property_step in H.
    apply bind_Ret_inv in H as (m1 & -> & H).
    apply bind_Ret_inv in H as (s1 & Hs & [= <-]).
    destruct (IH m1 eq_refl) as (ps & -> & ->).
    destruct v; try discriminate. injection Hs as ->.
    exists (<[k := s1]> ps). rewrite fmap_insert. split; [done|].
    simpl. by rewrite insert_union_l.
Qed.

Lemma string_application_properties (aps : gmap string iface) :
  map_Forall (fun _ v => is_string v = true) aps ->
  aps = VString <$> omap string_value aps.
Proof.
  intros Hall. apply map_eq. intros k. rewrite lookup_fmap, lookup_omap.
  destruct (aps !! k) as [v|] eqn:Hk; [|done]. simpl.
  apply (map_Forall_lookup_1 _ _ _ _ Hall) in Hk. by destruct v.
Qed.

(** The loop over the annotations leaves the header fields alone. *)
Lemma range_annotations_header l : forall m0 m,
  commonamqp.range_annotations fmt_Sprint m0 l = Ret m -> header m = header m0.
Proof.
  induction l as [|[k v] l IH]; intros m0 m H; simpl in H.
  - by injection H as ->.
  - apply bind_Ret_inv in H as (m1 & H1 & H). rewrite (IH _ _ H).
    unfold commonamqp.annotation_step in H1.
    repeat case_decide;
      apply bind_Ret_inv in H1 as (x & _ & [= <-]); reflexivity.
Qed.

(** X1.  Decoding the encoding of [m] gives exactly [m] without its enqueued
    time and connection fields, which the encoder does not transmit; encoding
    that again gives the same wire message. *)
Theorem FromAMQPMessage_ToAMQPMessage_transmitted (m : Message) :
  commonamqp.FromAMQPMessage fmt_Sprint (commonamqp.ToAMQPMessage m)
  = Ret (transmitted m, None) /\
  commonamqp.ToAMQPMessage (transmitted m) = commonamqp.ToAMQPMessage m.
Proof.
  split; [|reflexivity].
  unfold commonamqp.FromAMQPMessage.
  rewrite ToAMQPMessage_ApplicationProperties. simpl.
  rewrite range_string_properties by reflexivity. simpl.
  unfold transmitted. by rewrite string_of_list_byte_of_string.
Qed.

(** X2.  A wire message of the form the encoder produces is decoded without
    error, and encoding the decoded message gives the wire message back. *)
Theorem ToAMQPMessage_FromAMQPMessage (msg : AmqpMessage) :
  encoder_form msg ->
  exists m,
    commonamqp.FromAMQPMessage fmt_Sprint msg = Ret (m, None) /\
    commonamqp.ToAMQPMessage m = msg.
Proof.
  destruct msg as [data props anns aps].
  intros ([d Hd] & (p & Hp & Hmid & Hcid & Huid) & Hanns & Haps). simpl in *. subst.
  destruct p as [mid uid to cid expiry]. simpl in *.
  destruct mid as [|mid| | |]; try discriminate.
  destruct cid as [|cid| | |]; try discriminate.
  destruct uid as [uid|]; [|done].
  pose proof (string_application_properties aps Haps) as Hs.
  set (ps := omap string_value aps) in *. clearbody ps. subst aps.
  unfold commonamqp.FromAMQPMessage. simpl.
  rewrite range_string_properties by reflexivity. simpl.
  eexists. split; [reflexivity|].
  unfold commonamqp.ToAMQPMessage. simpl.
  pose proof (ToAMQPMessage_ApplicationProperties
                (mkMessage "" "" 0 0 "" "" "" "" "" "" None ps)) as Hprops.
  simpl in Hprops. rewrite Hprops.
  unfold bytes_of_string. by rewrite list_byte_of_string_of_list_byte.
Qed.

(** The decoder, step by step: the message after the data and the
    properties block, after the annotations, and after the application
    properties. *)
Lemma FromAMQPMessage_inv (msg : AmqpMessage) (m : Message) (e : option error) :
  commonamqp.FromAMQPMessage fmt_Sprint msg = Ret (m, e) ->
  exists payload rest m1 m2 (ps : gmap string string),
    am_Data msg = payload :: rest /\
    Properties m1 = ∅ /\
    (forall k, system_field k m1 = system_field k zero_message) /\
    header m1 =
      match am_Properties msg with
      | None => (""%string, ""%string, 0, ""%string, ""%string, payload)
      | Some p =>
          (default ""%string (string_value (mp_MessageID p)), mp_To p,
           mp_AbsoluteExpiryTime p,
           default ""%string (string_value (mp_CorrelationID p)),
           string_of_bytes (mp_UserID p), payload)
      end /\
    match am_Properties msg with
    | None => True
    | Some p => is_string (mp_MessageID p) = true /\ is_string (mp_CorrelationID p) = true
    end /\
    commonamqp.range_annotations fmt_Sprint m1 (am_Annotations msg) = Ret m2 /\
    am_ApplicationProperties msg = VString <$> ps /\
    m = set_Properties m2 (ps ∪ Properties m2) /\
    e = None.
Proof.
  unfold commonamqp.FromAMQPMessage. intros H.
  apply bind_Ret_inv in H as (payload & Hdata & H).
  apply bind_Ret_inv in H as (m1 & H1 & H).
  apply bind_Ret_inv in H as (m2 & H2 & H).
  apply bind_Ret_inv in H as (m3 & H3 & [= <- <-]).
  apply range_application_properties_result in H3 as (ps & Hps & ->).
  destruct (am_Data msg) as [|d rest]; [discriminate|]. injection Hdata as ->.
  exists payload, rest, m1, m2, ps.
  split; [done|].
  destruct (am_Properties msg) as [p|].
  - apply bind_Ret_inv in H1 as (uid & [= <-] & H1).
    apply bind_Ret_inv in H1 as (mid & Hmid & H1).
    apply bind_Ret_inv in H1 as (cid & Hcid & [= <-]).
    destruct (mp_MessageID p); try discriminate.
    destruct (mp_CorrelationID p); try discriminate.
    injection Hmid as ->. injection Hcid as ->. by repeat split.
  - injection H1 as <-. by repeat split.
Qed.

Lemma range_annotations_properties l : forall m0 m,
  commonamqp.range_annotations fmt_Sprint m0 l = Ret m ->
  Properties m = annotation_properties fmt_Sprint l (Properties m0).
Proof.
  induction l as [|[k v] l IH]; intros m0 m H; simpl in H.
  - by injection H as ->.
  - apply bind_Ret_inv in H as (m1 & H1 & H). rewrite (IH _ _ H).
    unfold annotation_properties. simpl. f_equal.
    unfold commonamqp.annotation_step in H1.
    destruct (bool_decide (k ∈ system_annotations)) eqn:Hsys.
    + apply bool_decide_eq_true in Hsys. unfold system_annotations in Hsys.
      rewrite !elem_of_cons, elem_of_nil in Hsys.
      destruct Hsys as [->|[->|[->|[->|[->|[]]]]]];
        repeat (case_decide; try done);
        apply bind_Ret_inv in H1 as (x & _ & [= <-]); reflexivity.
    + apply bool_decide_eq_false in Hsys. unfold system_annotations in Hsys.
      rewrite !not_elem_of_cons in Hsys. destruct Hsys as (N1 & N2 & N3 & N4 & N5 & _).
      rewrite !decide_False in H1 by done.
      apply bind_Ret_inv in H1 as (ks & Hks & [= <-]).
      destruct k; try discriminate. by injection Hks as ->.
Qed.

(** X3.  The properties map of a decoded message is the application
    properties laid over the properties the annotations contribute: an
    application property is found under its key whatever the annotations
    hold there, and a key without an application property shows the
    annotation stored under it, if any. *)
Theorem FromAMQPMessage_Properties (msg : AmqpMessage) (m : Message) (e : option error) :
  commonamqp.FromAMQPMessage fmt_Sprint msg = Ret (m, e) ->
  Properties m =
    omap string_value (am_ApplicationProperties msg)
    ∪ annotation_properties fmt_Sprint (am_Annotations msg) ∅ /\
  (forall k v, am_ApplicationProperties msg !! k = Some v ->
     exists s, v = VString s /\ Properties m !! k = Some s) /\
  (forall k, am_ApplicationProperties msg !! k = None ->
     Properties m !! k
     = annotation_properties fmt_Sprint (am_Annotations msg) ∅ !! k).
Proof.
  intros H.
  apply FromAMQPMessage_inv in H
    as (payload & rest & m1 & m2 & ps & _ & Hempty & _ & _ & _ & Hanns & Haps & -> & _).
  apply range_annotations_properties in Hanns. rewrite Hempty in Hanns.
  assert (Hps : omap string_value (am_ApplicationProperties msg) = ps).
  { rewrite Haps. apply map_eq. intros k. rewrite lookup_omap, lookup_fmap.
    by destruct (ps !! k). }
  simpl. rewrite Hps, Hanns. split; [done|]. split.
  - intros k v Hk. rewrite Haps, lookup_fmap in Hk.
    destruct (ps !! k) as [s1|] eqn:Hs; [|discriminate]. injection Hk as <-.
    exists s1. split; [done|]. by apply lookup_union_Some_l.
  - intros k Hk. rewrite Haps, lookup_fmap in Hk.
    destruct (ps !! k) as [s1|] eqn:Hs; [discriminate|]. by apply lookup_union_r.
Qed.

(** X4.  The decoded payload is the first data segment, the other segments
    are dropped; the message id, correlation id, user id, address and expiry
    time are those of the properties block, and are all zero when the block
    is absent.  Annotations and application properties do not reach these
    fields. *)
Theorem FromAMQPMessage_header (msg : AmqpMessage) (m : Message) (e : option error) :
  commonamqp.FromAMQPMessage fmt_Sprint msg = Ret (m, e) ->
  (exists rest, am_Data msg = Payload m :: rest) /\
  match am_Properties msg with
  | None =>
      MessageID m = ""%string /\ CorrelationID m = ""%string /\ UserID m = ""%string /\
      To m = ""%string /\ ExpiryTime m = 0
  | Some p =>
      mp_MessageID p = VString (MessageID m) /\
      mp_CorrelationID p = VString (CorrelationID m) /\
      UserID m = string_of_bytes (mp_UserID p) /\
      To m = mp_To p /\ ExpiryTime m = mp_AbsoluteExpiryTime p
  end.
Proof.
  intros H.
  apply FromAMQPMessage_inv in H
    as (payload & rest & m1 & m2 & ps & Hdata & _ & _ & Hhead & Hty & Hanns & _ & -> & _).
  apply range_annotations_header in Hanns. rewrite Hhead in Hanns.
  unfold header in Hanns. simpl.
  destruct (am_Properties msg) as [p|].
  - destruct Hty as [Hmid Hcid].
    destruct (mp_MessageID p); try discriminate.
    destruct (mp_CorrelationID p); try discriminate.
    simpl in Hanns. injection Hanns as -> -> -> -> -> ->. eauto 10.
  - injection Hanns as -> -> -> -> -> ->. eauto 10.
Qed.

Lemma system_field_set_Properties k m ps :
  system_field k (set_Properties m ps) = system_field k m.
Proof. reflexivity. Qed.

(** One annotation writes the field of its own key, when it has one, and
    no other. *)
Lemma annotation_step_system_field m k' v m' k :
  commonamqp.annotation_step fmt_Sprint m (k', v) = Ret m' ->
  k ∈ system_annotations ->
  system_field k m' = if decide (k' = k) then v else system_field k m.
Proof.
  intros H Hk. unfold commonamqp.annotation_step in H.
  unfold system_annotations in Hk. rewrite !elem_of_cons, elem_of_nil in Hk.
  destruct (decide (k' = VString "iothub-enqueuedtime")) as [->|N1].
  { apply bind_Ret_inv in H as (t & Ht & [= <-]).
    destruct v; try discriminate. injection Ht as ->.
    destruct Hk as [->|[->|[->|[->|[->|[]]]]]]; reflexivity. }
  destruct (decide (k' = VString "iothub-connection-device-id")) as [->|N2].
  { apply bind_Ret_inv in H as (t & Ht & [= <-]).
    destruct v; try discriminate. injection Ht as ->.
    destruct Hk as [->|[->|[->|[->|[->|[]]]]]]; reflexivity. }
  destruct (decide (k' = VString "iothub-connection-auth-generation-id")) as [->|N3].
  { apply bind_Ret_inv in H as (t & Ht & [= <-]).
    destruct v; try discriminate. injection Ht as ->.
    destruct Hk as [->|[->|[->|[->|[->|[]]]]]]; reflexivity. }
  destruct (decide (k' = VString "iothub-connection-auth-method")) as [->|N4].
  { apply bind_Ret_inv in H as (t & Ht & [= <-]).
    destruct v; try discriminate. injection Ht as ->.
    destruct Hk as [->|[->|[->|[->|[->|[]]]]]]; reflexivity. }
  destruct (decide (k' = VString "iothub-message-source")) as [->|N5].
  { apply bind_Ret_inv in H as (t & Ht & [= <-]).
    destruct v; try discriminate. injection Ht as ->.
    destruct Hk as [->|[->|[->|[->|[->|[]]]]]]; reflexivity. }
  apply bind_Ret_inv in H as (ks & _ & [= <-]).
  rewrite decide_False by (intros ->; intuition congruence).
  apply system_field_set_Properties.
Qed.

Lemma range_annotations_system_field l k : forall m0 m,
  commonamqp.range_annotations fmt_Sprint m0 l = Ret m ->
  NoDup l.*1 ->
  k ∈ system_annotations ->
  (forall v, (k, v) ∈ l -> system_field k m = v) /\
  (k ∉ l.*1 -> system_field k m = system_field k m0).
Proof.
  induction l as [|[k' v'] l IH]; intros m0 m H Hnd Hk; simpl in H.
  - injection H as ->. split; [intros v Hv; by apply elem_of_nil in Hv | done].
  - apply bind_Ret_inv in H as (m1 & H1 & H).
    simpl in Hnd. apply NoDup_cons in Hnd as [Hfresh Hnd].
    destruct (IH _ _ H Hnd Hk) as [IHin IHout].
    pose proof (annotation_step_system_field _ _ _ _ _ H1 Hk) as Hstep.
    split.
    + intros v Hv. apply elem_of_cons in Hv as [[= -> ->]|Hv].
      * rewrite (IHout Hfresh), Hstep. by rewrite decide_True.
      * by apply IHin.
    + intros Hout. simpl in Hout. apply not_elem_of_cons in Hout as [Hne Hout].
      rewrite (IHout Hout), Hstep. by rewrite decide_False.
Qed.

(** X5.  When the annotations have distinct keys, as the entries of a map
    have, each of the five system annotations present is decoded into its
    own field, and the field of one that is absent keeps its zero value,
    whatever the other annotations and the application properties are. *)
Theorem FromAMQPMessage_system_annotations (msg : AmqpMessage) (m : Message)
    (e : option error) (k : iface) :
  commonamqp.FromAMQPMessage fmt_Sprint msg = Ret (m, e) ->
  NoDup (am_Annotations msg).*1 ->
  k ∈ system_annotations ->
  (forall v, (k, v) ∈ am_Annotations msg -> system_field k m = v) /\
  (k ∉ (am_Annotations msg).*1 -> system_field k m = system_field k zero_message).
Proof.
  intros H Hnd Hk.
  apply FromAMQPMessage_inv in H
    as (payload & rest & m1 & m2 & ps & _ & _ & Hzero & _ & _ & Hanns & _ & -> & _).
  destruct (range_annotations_system_field _ k _ _ Hanns Hnd Hk) as [Hin Hout].
  rewrite system_field_set_Properties. split; [done|].
  intros Habsent. by rewrite (Hout Habsent), Hzero.
Qed.

End CodecFurther.

(** ** Further properties of the client *)

Section ClientFurther.

Variable env : Env.

(** *** Options *)

Lemma map_fold_insert_union (m init : gmap string string) :
  map_fold (fun k v (props : gmap string string) => <[k := v]> props) init m = m ∪ init.
Proof.
  apply (map_fold_weak_ind (fun (r : gmap string string) (m : gmap string string) =>
                              r = m ∪ init)).
  - by rewrite (left_id_L ∅ (∪)).
  - intros k v qs r _ ->. by rewrite insert_union_l.
Qed.

(** X6.  [WithSendProperties m] lays [m] over the properties the message
    has, [m] winning on a shared key; applying it for [m1] and then for [m2]
    is applying it once for [m2] laid over [m1]; and [WithSendProperty k v]
    is the case of the one-entry map. *)
Theorem WithSendProperties_union :
  (forall m msg,
     WithSendProperties m msg = Ret (set_Properties msg (m ∪ Properties msg), None)) /\
  (forall m1 m2 msg,
     apply_opts [WithSendProperties m1; WithSendProperties m2] msg
     = WithSendProperties (m2 ∪ m1) msg) /\
  (forall k v msg, WithSendProperty k v msg = WithSendProperties {[k := v]} msg).
Proof.
  assert (H1 : forall m msg,
    WithSendProperties m msg = Ret (set_Properties msg (m ∪ Properties msg), None)).
  { intros m msg. unfold WithSendProperties. by rewrite map_fold_insert_union. }
  split; [exact H1|]. split.
  - intros m1 m2 msg. rewrite H1.
    change (apply_opts [WithSendProperties m1; WithSendProperties m2] msg)
      with (match WithSendProperties m1 msg with
            | Panic => Panic
            | Ret (v', Some err) => Ret (v', Some err)
            | Ret (v', None) =>
                match WithSendProperties m2 v' with
                | Panic => Panic
                | Ret (v'', Some err) => Ret (v'', Some err)
                | Ret (v'', None) => Ret (v'', None)
                end
            end).
    rewrite !H1. simpl. by rewrite (assoc_L (∪)).
  - intros k v msg. rewrite H1. unfold WithSendProperty.
    by rewrite insert_union_singleton_l.
Qed.

(** X7.  The option loop applies the options in order and stops at the
    first one that fails or panics: the options after it are not applied,
    and its error, or its panic, is the result. *)
Theorem apply_opts_app {T} (opts1 opts2 : list (T -> res (T * option error))) (v : T) :
  apply_opts (opts1 ++ opts2) v =
    match apply_opts opts1 v with
    | Ret (v', None) => apply_opts opts2 v'
    | Ret (v', Some err) => Ret (v', Some err)
    | Panic => Panic
    end.
Proof.
  revert v. induction opts1 as [|opt opts1 IH]; intros v; simpl; [done|].
  destruct (opt v) as [[v' [err|]]|]; [done | apply IH | done].
Qed.

(** The loop panics only when an option does. *)
Lemma apply_opts_panic {T} (opts : list (T -> res (T * option error))) : forall v : T,
  apply_opts opts v = Panic -> exists opt x, opt ∈ opts /\ opt x = Panic.
Proof.
  induction opts as [|o opts IH]; intros v; simpl; [done|].
  destruct (o v) as [[v' [err|]]|] eqn:Ho; [done| |].
  - intros H. apply IH in H as (opt & x & Hin & Hp).
    exists opt, x. split; [by apply list_elem_of_further | done].
  - intros _. exists o, v. split; [apply list_elem_of_here | done].
Qed.

(** A list that holds an option failing on every message does not get a
    message through the loop. *)
Lemma apply_opts_failing {T} (opts : list (T -> res (T * option error))) opt :
  opt ∈ opts -> (forall x, exists err, opt x = Ret (x, Some err)) ->
  forall v : T,
    apply_opts opts v = Panic \/ exists v' err, apply_opts opts v = Ret (v', Some err).
Proof.
  intros Hin Hfail.
  induction opts as [|o opts IH]; intros v; [by apply elem_of_nil in Hin|].
  simpl. destruct (o v) as [[v' [err|]]|] eqn:Ho; [right; eauto | | by left].
  apply elem_of_cons in Hin as [->|Hin]; [|by apply IH].
  destruct (Hfail v) as [err Herr]. rewrite Ho in Herr. discriminate.
Qed.

Lemma WithSendAck_unknown typ msg :
  typ ∉ [""%string; AckNone; AckPositive; AckNegative; AckFull] ->
  exists err, WithSendAck env typ msg = Ret (msg, Some err).
Proof.
  intros Hty. unfold WithSendAck. rewrite bool_decide_eq_false_2 by done. eauto.
Qed.

(** *** SendEvent *)

(** Every way [SendEvent] ends. *)
Lemma SendEvent_cases deviceID payload opts (s : State) r s' :
  SendEvent env deviceID payload opts s = (r, s') ->
  client s' = client s /\
  ((exists err, r = Ret (Some err) /\ trace s' = trace s) \/
   (apply_opts opts (devicebound deviceID payload) = Panic /\
    r = Panic /\ trace s' = trace s) \/
   (exists eh err msg,
      conn (client s) = Some eh /\
      apply_opts opts (devicebound deviceID payload) = Ret (msg, None) /\
      r = Ret (Some err) /\
      trace s' = trace s ++ [EvNewSender (eh_Sess env eh) "/messages/devicebound"]) \/
   (exists eh send msg,
      conn (client s) = Some eh /\
      apply_opts opts (devicebound deviceID payload) = Ret (msg, None) /\
      r = Ret (send_Send env
                 (trace s ++ [EvNewSender (eh_Sess env eh) "/messages/devicebound"])
                 send (commonamqp.ToAMQPMessage msg)) /\
      trace s' = trace s ++ [EvNewSender (eh_Sess env eh) "/messages/devicebound";
                             EvSend send (commonamqp.ToAMQPMessage msg);
                             EvLinkClose send])).
Proof.
  unfold SendEvent.
  destruct (bool_decide (deviceID = ""%string)).
  { intros [= <- <-]. split; [done|]. left. eauto. }
  destruct payload as [p|]; [|intros [= <- <-]; split; [done|]; left; eauto].
  unfold isConnected. run_M.
  destruct (conn (client s)) as [eh|] eqn:Hc; simpl;
    [|intros [= <- <-]; split; [done|]; left; eauto].
  fold (devicebound deviceID (Some p)).
  destruct (apply_opts opts (devicebound deviceID (Some p))) as [[msg [err|]]|] eqn:Hopts.
  { intros [= <- <-]. split; [done|]. left. eauto. }
  2:{ intros [= <- <-]. split; [done|]. right; left. done. }
  rewrite Hc.
  destruct (sess_NewSender env _ _ _) as [send|err]; intros [= <- <-]; simpl.
  - split; [done|]. right; right; right. exists eh, send, msg.
    repeat split; try done. by rewrite <- !app_assoc.
  - split; [done|]. right; right; left. eauto 10.
Qed.

(** X8.  Whatever its inputs and the collaborators' answers, [SendEvent]
    leaves the client as it was and calls the transport in one of three
    ways: not at all; to open a send link that fails to open; or to open a
    link, send one message on it and close that link.  It panics only when
    one of its options does (a nil option does), and then before any call;
    with options that do not panic it returns.  It returns nil only in the
    last of the three ways, when the send returned nil. *)
Theorem SendEvent_one_link deviceID payload opts (s : State) r s' :
  SendEvent env deviceID payload opts s = (r, s') ->
  client s' = client s /\
  exists new,
    trace s' = trace s ++ new /\
    (r = Panic /\ new = [] /\ (exists opt m, opt ∈ opts /\ opt m = Panic) \/
     exists result,
       r = Ret result /\
       (new = [] /\ result <> None \/
        (exists sess target, new = [EvNewSender sess target]) /\ result <> None \/
        exists sess target send wire,
          new = [EvNewSender sess target; EvSend send wire; EvLinkClose send])).
Proof.
  intros H. apply SendEvent_cases in H as [Hc H]. split; [done|].
  destruct H as [(err & -> & ->)
                | [(Hopts & -> & ->)
                  | [(eh & err & msg & _ & _ & -> & ->)
                    | (eh & send & msg & _ & _ & -> & ->)]]].
  - exists []. rewrite app_nil_r. split; [done|]. right.
    exists (Some err). split; [done|]. by left.
  - exists []. rewrite app_nil_r. split; [done|]. left.
    split; [done|]. split; [done|]. by apply apply_opts_panic in Hopts.
  - eexists. split; [done|]. right. exists (Some err). split; [done|].
    right; left. split; [eauto|done].
  - eexists. split; [done|]. right. eexists. split; [done|]. right; right. eauto.
Qed.

(** X9.  An option list that holds [WithSendAck] for a type outside the
    five known ones never lets [SendEvent] succeed or reach the transport,
    whatever the other options, the inputs and the state of the client:
    the call leaves the state as it was and does not return nil; and when
    no option of the list panics it returns an error. *)
Theorem SendEvent_unknown_ack typ deviceID payload opts (s : State) :
  typ ∉ [""%string; AckNone; AckPositive; AckNegative; AckFull] ->
  WithSendAck env typ ∈ opts ->
  exists r,
    SendEvent env deviceID payload opts s = (r, s) /\
    r <> Ret None /\
    ((forall opt m, opt ∈ opts -> opt m <> Panic) ->
     exists err, r = Ret (Some err)).
Proof.
  intros Hty Hin.
  destruct (SendEvent env deviceID payload opts s) as [r s'] eqn:Hrun.
  pose proof (SendEvent_cases _ _ _ _ _ _ Hrun) as [Hc H].
  pose proof (apply_opts_failing opts (WithSendAck env typ) Hin
                (fun x => WithSendAck_unknown typ x Hty)
                (devicebound deviceID payload)) as Hfail.
  assert (Hs : trace s' = trace s -> s' = s).
  { intros Htr. destruct s, s'; simpl in *; by subst. }
  destruct H as [(err & -> & Htr)
                | [(Hopts & -> & Htr)
                  | [(eh & err & msg & _ & Hopts & _)
                    | (eh & send & msg & _ & Hopts & _)]]].
  - exists (Ret (Some err)). rewrite (Hs Htr). split; [done|]. split; [done|]. eauto.
  - exists Panic. rewrite (Hs Htr). split; [done|]. split; [done|].
    intros Hno. apply apply_opts_panic in Hopts as (opt & m & Hopt & Hp).
    destruct (Hno opt m Hopt Hp).
  - rewrite Hopts in Hfail. destruct Hfail as [?|(? & ? & ?)]; discriminate.
  - rewrite Hopts in Hfail. destruct Hfail as [?|(? & ? & ?)]; discriminate.
Qed.

Lemma standard_option_keeps opt msg :
  standard_option env opt ->
  exists msg' e, opt msg = Ret (msg', e) /\
    To msg' = To msg /\ Payload msg' = Payload msg.
Proof.
  intros []; try (eexists _, _; split; [reflexivity | done]).
  unfold WithSendAck. destruct (bool_decide _);
    eexists _, _; (split; [reflexivity | done]).
Qed.

Lemma apply_opts_keeps opts : forall msg,
  Forall (standard_option env) opts ->
  exists msg' e, apply_opts opts msg = Ret (msg', e) /\
    To msg' = To msg /\ Payload msg' = Payload msg.
Proof.
  induction opts as [|opt opts IH]; intros msg Hstd; [by eexists _, _|].
  apply Forall_cons in Hstd as [Hopt Hstd]. simpl.
  destruct (standard_option_keeps opt msg Hopt) as (msg' & e & -> & Hto & Hpay).
  destruct e as [err|]; [by eexists _, _|].
  destruct (IH msg' Hstd) as (msg'' & e & -> & Hto' & Hpay').
  exists msg'', e. split; [done|]. split; congruence.
Qed.

(** X10.  With options of the package only, a message [SendEvent] hands to
    the transport has the payload as its one data segment and the
    device-bound address of the device in its properties block: no option
    changes the payload or the address. *)
Theorem SendEvent_sends_payload deviceID payload opts (s : State) r s' new :
  Forall (standard_option env) opts ->
  SendEvent env deviceID payload opts s = (r, s') ->
  trace s' = trace s ++ new ->
  forall link wire, EvSend link wire ∈ new ->
    am_Data wire = [payload] /\
    exists p, am_Properties wire = Some p /\ mp_To p = devicebound_address deviceID.
Proof.
  intros Hstd Hrun Hnew link wire Hin.
  apply SendEvent_cases in Hrun as [_ H].
  destruct H as [(err & _ & Htr)
                | [(_ & _ & Htr)
                  | [(eh & err & msg & _ & _ & _ & Htr)
                    | (eh & send & msg & _ & Hopts & _ & Htr)]]];
    rewrite Htr in Hnew.
  - rewrite <- (app_nil_r (trace s)) in Hnew at 1. apply app_inv_head in Hnew as <-.
    by apply elem_of_nil in Hin.
  - rewrite <- (app_nil_r (trace s)) in Hnew at 1. apply app_inv_head in Hnew as <-.
    by apply elem_of_nil in Hin.
  - apply app_inv_head in Hnew as <-.
    apply elem_of_cons in Hin as [?|Hin]; [done | by apply elem_of_nil in Hin].
  - apply app_inv_head in Hnew as <-.
    rewrite !elem_of_cons, elem_of_nil in Hin.
    destruct Hin as [?|[[= _ ->]|[?|[]]]]; try done.
    destruct (apply_opts_keeps opts (devicebound deviceID payload) Hstd)
      as (msg' & e & Hkeep & Hto & Hpay).
    rewrite Hopts in Hkeep. injection Hkeep as <- <-.
    simpl in *. rewrite Hpay. split; [done|].
    eexists. split; [reflexivity|]. simpl. by rewrite Hto.
Qed.

(** *** Connect and Close together *)

Lemma Connect_client (s : State) r s' :
  Connect env s = (r, s') ->
  (exists e, r = Ret e) /\
  creds (client s') = creds (client s) /\
  done_closed (client s') = done_closed (client s).
Proof.
  unfold Connect. run_M.
  destruct (eventhub_Dial env _ _) as [eh|err]; simpl; [|intros [= <- <-]; eauto].
  destruct (creds_SAS env _ _ _ _) as [sas|err]; simpl; [|intros [= <- <-]; eauto].
  destruct (eh_PutTokenContinuously env _ _ _ _ _) as [err|]; simpl;
    intros [= <- <-]; eauto.
Qed.

(** X11.  Once the client is closed, [Close] never closes a transport
    again: a [Connect] on a closed client, successful or not, leaves it
    closed, and the [Close] that follows returns nil without a call, so a
    transport connected after [Close] is not closed by [Close]. *)
Theorem Close_after_reconnect (s : State) r s1 :
  done_closed (client s) = true ->
  Connect env s = (r, s1) ->
  done_closed (client s1) = true /\ Close env s1 = (Ret None, s1).
Proof.
  intros Hd Hrun. apply Connect_client in Hrun as (_ & _ & Hdone).
  rewrite Hd in Hdone. split; [done|]. by rewrite Close_run, Hdone.
Qed.

(** *** Strings *)

Lemma len_append (a b : string) : len (a ++ b)%string = len a + len b.
Proof.
  unfold len. induction a as [|c a IH]; simpl; [done|]. lia.
Qed.

Lemma append_empty (a : string) : (a ++ "")%string = a.
Proof.
  induction a as [|c a IH]; [done|].
  change (String c a ++ "")%string with (String c (a ++ "")%string). by rewrite IH.
Qed.

Lemma substring_0_append (a b : string) :
  substring 0 (String.length a) (a ++ b)%string = a.
Proof.
  induction a as [|c a IH]; [by destruct b|].
  change (String c a ++ b)%string with (String c (a ++ b)%string).
  simpl. by rewrite IH.
Qed.

Lemma substring_skip (p : string) (n k : nat) (t : string) :
  substring (String.length p + n) k (p ++ t)%string = substring n k t.
Proof.
  induction p as [|c p IH]; [done|].
  change (String c p ++ t)%string with (String c (p ++ t)%string). simpl. apply IH.
Qed.

Lemma Index_from_no_colon (p : string) : forall i rest,
  without_byte ":" p = true ->
  Index_from i (p ++ rest)%string ":5671/" = Index_from (i + len p) rest ":5671/".
Proof.
  induction p as [|a p IH]; intros i rest H.
  - simpl. f_equal. unfold len. simpl. lia.
  - simpl in H. apply andb_true_iff in H as [Ha Hp].
    change (String a p ++ rest)%string with (String a (p ++ rest)%string).
    cbn [Index_from String.prefix].
    destruct (ascii_dec ":" a) as [<-|Hne]; [by rewrite Ascii.eqb_refl in Ha|].
    rewrite (IH _ _ Hp). f_equal. unfold len. simpl String.length. lia.
Qed.

Lemma Index_from_marker i rest : Index_from i (":5671/" ++ rest)%string ":5671/" = i.
Proof.
  change (":5671/" ++ rest)%string
    with (String ":" (String "5" (String "6" (String "7" (String "1" (String "/" rest)))))).
  cbn [Index_from String.prefix]. simpl.
  assert (Hpre : String.prefix "" rest = true) by (by destruct rest).
  by rewrite Hpre.
Qed.

Lemma Index_from_separator i rest :
  Index_from i ("://" ++ rest)%string ":5671/" = Index_from (i + 3) rest ":5671/".
Proof.
  change ("://" ++ rest)%string with (String ":" (String "/" (String "/" rest))).
  cbn [Index_from String.prefix]. simpl. f_equal. lia.
Qed.

Lemma Index_from_empty i : Index_from i "" ":5671/" = -1.
Proof. reflexivity. Qed.

(** X12.  For an address of the documented form
    [<scheme>://<host>:5671/<group>/], with no colon in the scheme and the
    host, the resolver reads exactly [<group>], whatever bytes the group
    holds, and the address to dial is ["amqps://"] followed by the hostname
    of the redirect. *)
Theorem redirect_target_format (rerr : AmqpError) (scheme host group hostname : string) :
  without_byte ":" scheme = true ->
  without_byte ":" host = true ->
  Info rerr !! "address"%string
  = Some (VString (scheme ++ "://" ++ host ++ ":5671/" ++ group ++ "/")%string) ->
  Info rerr !! "hostname"%string = Some (VString hostname) ->
  redirect_target rerr = Ret (group, ("amqps://" ++ hostname)%string).
Proof.
  intros Hscheme Hhost Haddr Hname.
  unfold redirect_target, map_index. rewrite Haddr, Hname. simpl default.
  set (addr := (scheme ++ "://" ++ host ++ ":5671/" ++ group ++ "/")%string).
  assert (Hidx : strings_Index addr ":5671/" = len scheme + 3 + len host).
  { unfold strings_Index, addr.
    rewrite (Index_from_no_colon _ _ _ Hscheme), Index_from_separator.
    rewrite (Index_from_no_colon _ _ _ Hhost), Index_from_marker. lia. }
  assert (Hlen : len addr = len scheme + 3 + len host + 6 + len group + 1).
  { unfold addr. rewrite !len_append. unfold len. simpl. lia. }
  cbn [assert_string mbind res_mbind res_bind]. rewrite Hidx.
  unfold slice. rewrite Hlen.
  assert (Hnn : 0 <= len scheme /\ 0 <= len host /\ 0 <= len group)
    by (unfold len; lia).
  rewrite !(proj2 (Z.leb_le _ _)) by lia. simpl andb. cbv iota.
  replace (Z.to_nat (len scheme + 3 + len host + 6))
    with (String.length scheme + S (S (S (String.length host + 6))))%nat
    by (unfold len; lia).
  replace (Z.to_nat (len scheme + 3 + len host + 6 + len group + 1 - 1
                     - (len scheme + 3 + len host + 6)))
    with (String.length group) by (unfold len; lia).
  unfold addr. rewrite substring_skip.
  change ("://" ++ host ++ ":5671/" ++ group ++ "/")%string
    with (String ":" (String "/" (String "/" (host ++ ":5671/" ++ group ++ "/")%string))).
  cbn [substring]. rewrite substring_skip.
  change (":5671/" ++ group ++ "/")%string
    with (String ":" (String "5" (String "6" (String "7" (String "1"
            (String "/" (group ++ "/")%string)))))).
  cbn [substring]. by rewrite substring_0_append.
Qed.

(** X13.  When the address of a redirect holds no colon at all, the
    resolver does not fail on the missing port marker: it takes the bytes
    from offset 5 up to the last byte as the group, and panics only when the
    address is shorter than six bytes. *)
Theorem redirect_target_without_marker (rerr : AmqpError) (addr hostname : string) :
  without_byte ":" addr = true ->
  Info rerr !! "address"%string = Some (VString addr) ->
  Info rerr !! "hostname"%string = Some (VString hostname) ->
  redirect_target rerr =
    if 6 <=? len addr
    then Ret (substring 5 (Z.to_nat (len addr - 6)) addr, ("amqps://" ++ hostname)%string)
    else Panic.
Proof.
  intros Hno Haddr Hname.
  unfold redirect_target, map_index. rewrite Haddr, Hname. simpl default.
  assert (Hidx : strings_Index addr ":5671/" = -1).
  { unfold strings_Index.
    rewrite <- (append_empty addr) at 1. rewrite (Index_from_no_colon _ _ _ Hno). apply Index_from_empty. }
  cbn [assert_string mbind res_mbind res_bind]. rewrite Hidx. unfold slice.
  change (-1 + 6) with 5. change (0 <=? 5) with true.
  destruct (6 <=? len addr) eqn:Hsix.
  - apply Z.leb_le in Hsix. rewrite !(proj2 (Z.leb_le _ _)) by lia. simpl.
    by replace (len addr - 1 - 5) with (len addr - 6) by lia.
  - apply Z.leb_gt in Hsix.
    replace (5 <=? len addr - 1) with false by (symmetry; apply Z.leb_gt; lia).
    reflexivity.
Qed.

(** *** The resolver before and after the probe *)

Lemma substring_0_split (t0 : string) : forall n,
  (n <= String.length t0)%nat ->
  exists t, t0 = (substring 0 n t0 ++ t)%string /\
            String.length t = (String.length t0 - n)%nat.
Proof.
  induction t0 as [|c t0 IH]; intros n Hn.
  - simpl in Hn. assert (n = 0%nat) as -> by lia. by exists ""%string.
  - destruct n as [|n]; [by exists (String c t0)|].
    simpl in Hn. destruct (IH n ltac:(lia)) as (t & Ht & Hlen).
    exists t. split; [|done]. simpl.
    change (String c (substring 0 n t0) ++ t)%string
      with (String c (substring 0 n t0 ++ t)%string).
    by rewrite <- Ht.
Qed.

(** X14.  The user name of the probe is the key name, ["@sas.root."] and
    the host name with its last 18 bytes cut off, whatever those bytes are;
    when the three together are shorter than 18 bytes the resolver panics
    before any call. *)
Theorem probe_user_cut :
  (forall cr u,
     probe_user cr = Ret u <->
     exists t, (SharedAccessKeyName cr ++ "@sas.root." ++ HostName cr)%string
               = (u ++ t)%string /\ String.length t = 18%nat) /\
  (forall s : State,
     len (SharedAccessKeyName (creds (client s)) ++ "@sas.root."
          ++ HostName (creds (client s)))%string < 18 ->
     connectToEventHub env s = (Panic, s)).
Proof.
  split.
  - intros cr u. unfold probe_user, slice.
    set (full := (SharedAccessKeyName cr ++ "@sas.root." ++ HostName cr)%string).
    split.
    + destruct (_ && _) eqn:Hb; [|discriminate]. intros [= <-].
      apply andb_true_iff in Hb as [Hb _]. apply andb_true_iff in Hb as [_ Hb].
      apply Z.leb_le in Hb. unfold len in *.
      destruct (substring_0_split full (Z.to_nat (Z.of_nat (String.length full) - 18 - 0))
                  ltac:(lia)) as (t & Ht & Hlen).
      exists t. split; [done | lia].
    + intros (t & Hfull & Hlen). rewrite Hfull, len_append. unfold len. rewrite Hlen.
      rewrite !(proj2 (Z.leb_le _ _)) by lia. simpl andb. cbv iota.
      replace (Z.to_nat (Z.of_nat (String.length u) + Z.of_nat 18 - 18 - 0))
        with (String.length u) by lia.
      by rewrite substring_0_append.
  - intros s Hshort.
    set (full := (SharedAccessKeyName (creds (client s)) ++ "@sas.root."
                  ++ HostName (creds (client s)))%string) in *.
    assert (Hp : slice full 0 (len full - 18) = Panic).
    { unfold slice. destruct (_ && _) eqn:Hb; [|done].
      apply andb_true_iff in Hb as [Hb _]. apply andb_true_iff in Hb as [_ Hb].
      apply Z.leb_le in Hb. lia. }
    unfold connectToEventHub. run_M. fold full. by rewrite Hp.
Qed.

(** The resolver up to the opening of the probe link. *)
Lemma connectToEventHub_setup (s : State) (user : string) :
  probe_user (creds (client s)) = Ret user ->
  let cr := creds (client s) in
  let addr := ("amqps://" ++ HostName cr)%string in
  connectToEventHub env s =
    match creds_SAS env (trace s) cr (HostName cr) time_Hour with
    | Err err => (Ret (None, ""%string, Some err), s)
    | Ok pass =>
        let tr1 := trace s ++ [EvAmqpDial addr user pass] in
        match amqp_Dial env (trace s) addr user pass with
        | Err err => (Ret (None, ""%string, Some err), mkState (client s) tr1)
        | Ok conn0 =>
            let tr2 := tr1 ++ [EvNewSession conn0] in
            match conn_NewSession env tr1 conn0 with
            | Err err =>
                (Ret (None, ""%string, Some err),
                 mkState (client s) (tr2 ++ [EvConnClose (Some conn0)]))
            | Ok sess =>
                let tr3 := tr2 ++ [EvNewReceiver sess "messages/events/"] in
                match sess_NewReceiver env tr2 sess "messages/events/" with
                | Err err =>
                    (Ret (None, ""%string, Some err),
                     mkState (client s)
                       (tr3 ++ [EvSessionClose sess; EvConnClose (Some conn0)]))
                | Ok recv => connectToEventHub env s
                end
            end
        end
    end.
Proof.
  intros Huser cr addr. subst cr addr. unfold probe_user in Huser.
  destruct (creds_SAS env _ _ _ _) as [pass|err] eqn:Hsas.
  2: { unfold connectToEventHub. run_M. rewrite Huser, Hsas. by destruct s. }
  cbv zeta.
  destruct (amqp_Dial env _ _ _ _) as [conn0|err] eqn:Hdial.
  2: { unfold connectToEventHub. run_M. rewrite Huser, Hsas, Hdial. reflexivity. }
  destruct (conn_NewSession env _ _) as [sess|err] eqn:Hsess.
  2: { unfold connectToEventHub. run_M. rewrite Huser, Hsas, Hdial. simpl.
       rewrite Hsess. reflexivity. }
  destruct (sess_NewReceiver env _ _ _) as [recv|err] eqn:Hrecv; [reflexivity|].
  unfold connectToEventHub. run_M. rewrite Huser, Hsas, Hdial. simpl.
  rewrite Hsess. simpl. rewrite Hrecv. simpl. by rewrite <- !app_assoc.
Qed.

(** X15.  A failure of the resolver before the probe receive returns the
    error of the failing step and releases what was opened, last opened
    first: nothing after a failed token or a failed dial, the connection
    after a failed session, the session and then the connection after a
    failed receive link. *)
Theorem connectToEventHub_setup_failure (s : State) (user : string) :
  probe_user (creds (client s)) = Ret user ->
  let cr := creds (client s) in
  let addr := ("amqps://" ++ HostName cr)%string in
  (forall err,
     creds_SAS env (trace s) cr (HostName cr) time_Hour = Err err ->
     connectToEventHub env s = (Ret (None, ""%string, Some err), s)) /\
  (forall pass,
     creds_SAS env (trace s) cr (HostName cr) time_Hour = Ok pass ->
     let dial := EvAmqpDial addr user pass in
     (forall err,
        amqp_Dial env (trace s) addr user pass = Err err ->
        connectToEventHub env s
        = (Ret (None, ""%string, Some err), mkState (client s) (trace s ++ [dial]))) /\
     (forall conn0,
        amqp_Dial env (trace s) addr user pass = Ok conn0 ->
        (forall err,
           conn_NewSession env (trace s ++ [dial]) conn0 = Err err ->
           connectToEventHub env s
           = (Ret (None, ""%string, Some err),
              mkState (client s)
                (trace s ++ [dial; EvNewSession conn0; EvConnClose (Some conn0)]))) /\
        (forall sess err,
           conn_NewSession env (trace s ++ [dial]) conn0 = Ok sess ->
           sess_NewReceiver env (trace s ++ [dial; EvNewSession conn0]) sess
             "messages/events/" = Err err ->
           connectToEventHub env s
           = (Ret (None, ""%string, Some err),
              mkState (client s)
                (trace s ++ [dial; EvNewSession conn0;
                             EvNewReceiver sess "messages/events/";
                             EvSessionClose sess; EvConnClose (Some conn0)]))))).
Proof.
  intros Huser cr addr.
  pose proof (connectToEventHub_setup s user Huser) as Hrun. cbv zeta in Hrun.
  fold cr addr in Hrun. split.
  - intros err Hsas. by rewrite Hrun, Hsas.
  - intros pass Hsas dial. rewrite Hsas in Hrun. fold dial in Hrun. split.
    + intros err Hdial. by rewrite Hrun, Hdial.
    + intros conn0 Hdial. rewrite Hdial in Hrun. split.
      * intros err Hsess. rewrite Hrun, Hsess. by rewrite <- ?app_assoc.
      * intros sess err Hsess Hrecv. rewrite Hsess in Hrun.
        rewrite <- ?app_assoc in Hrun. simpl in Hrun.
        rewrite Hrecv in Hrun. rewrite Hrun. by rewrite <- ?app_assoc.
Qed.


(** X17.  A link redirect whose info lacks a string under ["address"] or
    under ["hostname"] makes the resolver panic; the probe link, session and
    connection are closed on the way out and no second dial is made. *)
Theorem connectToEventHub_redirect_without_info (s : State) user pass conn0 sess recv rerr :
  probe_receives env s user pass conn0 sess recv (Err (DetachError (Some rerr))) ->
  Condition rerr = ErrorLinkRedirect ->
  string_value (map_index (Info rerr) "address") = None \/
  string_value (map_index (Info rerr) "hostname") = None ->
  connectToEventHub env s =
    (Panic,
     mkState (client s)
       (probe_trace s user pass conn0 sess recv
        ++ [EvLinkClose recv; EvSessionClose sess; EvConnClose (Some conn0)])).
Proof.
  intros Hprobe Hcond Hinfo.
  pose proof (connectToEventHub_run env s _ _ _ _ _ _ Hprobe) as Hrun. simpl in Hrun.
  rewrite Hcond, String.eqb_refl in Hrun. simpl in Hrun.
  assert (Hpanic : redirect_target rerr = Panic).
  { unfold redirect_target.
    destruct (map_index (Info rerr) "address") as [|addr| | |] eqn:Ha; try reflexivity.
    destruct Hinfo as [Hinfo|Hinfo]; [discriminate|].
    simpl. destruct (slice addr _ _); [|reflexivity]. simpl.
    by destruct (map_index (Info rerr) "hostname"). }
  by rewrite Hpanic in Hrun.
Qed.

(** *** How a feedback subscription ends *)

Lemma good_rounds_client recv n (s sn : State) :
  good_rounds env recv n s sn -> client sn = client s.
Proof. induction 1 as [|n s msg data rest v s' _ _ _ _ IH]; [done | by rewrite IH]. Qed.

(** A loop granted no more rounds than there are good deliveries is still
    receiving; one granted more returns at the first receive that fails. *)
Lemma feedback_loop_rounds recv n (s sn : State) :
  good_rounds env recv n s sn ->
  feedback_loop env recv n s = (Ret Running, sn) /\
  (forall err fuel,
     recv_Receive env (trace sn) recv = Err err -> (n < fuel)%nat ->
     feedback_loop env recv fuel s
     = (Ret (Returned (Some err)), mkState (client sn) (trace sn ++ [EvReceive recv]))).
Proof.
  induction 1 as [s|n s msg data rest v s' Hrecv Hdata Hjson _ [IHrun IHerr]].
  - split; [reflexivity|]. intros err fuel Herr Hfuel.
    destruct fuel as [|fuel]; [lia|]. simpl. run_M. by rewrite Herr.
  - split.
    + by rewrite (feedback_loop_round env recv n s msg data rest v Hrecv Hdata Hjson).
    + intros err fuel Herr Hfuel. destruct fuel as [|fuel]; [lia|].
      rewrite (feedback_loop_round env recv fuel s msg data rest v Hrecv Hdata Hjson).
      apply IHerr; [done | lia].
Qed.

Lemma good_rounds_prefix recv n (s sn : State) :
  good_rounds env recv n s sn ->
  forall k, (k <= n)%nat -> exists sk, good_rounds env recv k s sk.
Proof.
  induction 1 as [s|n s msg data rest v s' Hrecv Hdata Hjson _ IH]; intros k Hk.
  - assert (k = 0%nat) as -> by lia. eexists. constructor.
  - destruct k as [|k]; [eexists; constructor|].
    destruct (IH k ltac:(lia)) as [sk Hsk]. exists sk. by econstructor.
Qed.

(** X18.  On a connected client whose feedback link opens, after any number
    [n] of deliveries that decode, a receive that fails ends the subscription
    with that very error and with the link closed, for every number of
    rounds above [n] granted to the loop; granted [n] rounds or fewer the
    loop is still receiving and the link is open. *)
Theorem SubscribeFeedback_receive_error (s sn : State) eh recv err n fuel :
  conn (client s) = Some eh ->
  let source := "/messages/servicebound/feedback"%string in
  let s1 := mkState (client s) (trace s ++ [EvNewReceiver (eh_Sess env eh) source]) in
  sess_NewReceiver env (trace s) (eh_Sess env eh) source = Ok recv ->
  good_rounds env recv n s1 sn ->
  recv_Receive env (trace sn) recv = Err err ->
  SubscribeFeedback env n s = (Ret Running, sn) /\
  ((n < fuel)%nat ->
   SubscribeFeedback env fuel s =
     (Ret (Returned (Some err)),
      mkState (client s) (trace sn ++ [EvReceive recv; EvLinkClose recv]))) /\
  (forall k, (k <= n)%nat ->
   exists sk,
     SubscribeFeedback env k s = (Ret Running, sk) /\
     forall link, EvLinkClose link ∉ drop (length (trace s)) (trace sk)).
Proof.
  intros Hc source s1 Hlink Hrounds Herr.
  destruct (feedback_loop_rounds recv n s1 sn Hrounds) as [Hrun Hret].
  pose proof (good_rounds_client recv n s1 sn Hrounds) as Hcl. simpl in Hcl.
  split; [|split].
  - rewrite (SubscribeFeedback_connected env n eh s Hc). fold source. rewrite Hlink.
    unfold close_when_left. fold s1. by rewrite Hrun.
  - intros Hfuel.
    rewrite (SubscribeFeedback_connected env fuel eh s Hc). fold source. rewrite Hlink.
    unfold close_when_left. fold s1. rewrite (Hret err fuel Herr Hfuel). simpl.
    by rewrite Hcl, <- app_assoc.
  - intros k Hk. destruct (good_rounds_prefix recv n s1 sn Hrounds k Hk) as [sk Hsk].
    destruct (feedback_loop_rounds recv k s1 sk Hsk) as [Hrunk _].
    exists sk. split.
    + rewrite (SubscribeFeedback_connected env k eh s Hc). fold source. rewrite Hlink.
      unfold close_when_left. fold s1. by rewrite Hrunk.
    + intros link. clear -Hsk. subst s1.
      assert (Hgen : forall k (a b : State),
                good_rounds env recv k a b ->
                exists new, trace b = trace a ++ new /\ EvLinkClose link ∉ new).
      { assert (Hgo : forall v, EvLinkClose link ∉ map EvGo v).
        { intros v. induction v as [|f v IHv]; simpl; [apply not_elem_of_nil|].
          rewrite elem_of_cons. by intros [?|?]. }
        clear -Hgo. induction 1 as [a|k a msg data rest v b _ _ _ _ (new & Hnew & Hnot)].
        - exists []. rewrite app_nil_r. split; [done | apply not_elem_of_nil].
        - simpl in Hnew. eexists. split; [rewrite Hnew, <- app_assoc; reflexivity|].
          simpl. rewrite !elem_of_cons, elem_of_app.
          intros [?|[?|[?|?]]]; try done. by apply (Hgo v). }
      destruct (Hgen _ _ _ Hsk) as (new & Hnew & Hnot). simpl in Hnew.
      rewrite Hnew, <- app_assoc, drop_app_length. simpl.
      rewrite elem_of_cons. by intros [?|?].
Qed.

(** X19.  A delivery is acknowledged before its body is looked at: one
    without a data segment is acknowledged and then makes the loop panic,
    one whose body does not decode is acknowledged and then ends the loop
    with the decoder's error; in both cases no callback is dispatched and
    the message, being acknowledged, will not be delivered again. *)
Theorem feedback_loop_bad_body recv fuel (s : State) msg :
  recv_Receive env (trace s) recv = Ok msg ->
  let acknowledged := mkState (client s) (trace s ++ [EvReceive recv; EvAccept msg]) in
  (am_Data msg = [] ->
   feedback_loop env recv (S fuel) s = (Panic, acknowledged)) /\
  (forall data rest err,
     am_Data msg = data :: rest ->
     json_Unmarshal_feedback env data = Err err ->
     feedback_loop env recv (S fuel) s = (Ret (Returned (Some err)), acknowledged)).
Proof.
  intros Hrecv acknowledged. subst acknowledged. split.
  - intros Hdata. simpl. run_M. rewrite Hrecv, Hdata. simpl. by rewrite <- !app_assoc.
  - intros data rest err Hdata Hjson. simpl. run_M. rewrite Hrecv, Hdata. simpl.
    rewrite Hjson. by rewrite <- !app_assoc.
Qed.

(** *** The REST channel *)

(** Every way [request] ends. *)
Lemma request_cases method path deviceID b (s : State) r s' :
  request env method path deviceID b s = (r, s') ->
  client s' = client s /\
  ((exists err, r = Ret (Err err) /\ trace s' = trace s) \/
   (exists req err,
      r = Ret (Err err) /\ http_Do env (trace s) req = Err err /\
      trace s' = trace s ++ [EvHTTPDo req]) \/
   (exists req resp sas rid,
      http_Do env (trace s) req = Ok resp /\
      trace s' = trace s ++ [EvHTTPDo req; EvBodyClose] /\
      creds_SAS env (trace s) (creds (client s)) (HostName (creds (client s))) time_Hour
      = Ok sas /\
      eventhub_RandString env (trace s) = Ok rid /\
      Method req = method /\ Body req = b /\
      Header req = {["Content-Type"%string := "application/json; charset=utf-8"%string;
                     "Authorization"%string := sas;
                     "Request-Id"%string := rid]} /\
      r = Ret (match res_ReadAll resp with
               | Err err => Err err
               | Ok body =>
                   if bool_decide (res_StatusCode resp <> StatusOK)
                   then Err (errorString
                               (fmt_Sprintf env "code = %d, body = %q"
                                  [VInt (res_StatusCode resp);
                                   VString (string_of_bytes body)]))
                   else Ok body
               end))).
Proof.
  unfold request. run_M.
  destruct (http_NewRequest env _ _) as [err|]; [intros [= <- <-]; eauto 10|].
  destruct (creds_SAS env _ _ _ _) as [sas|err] eqn:Hsas; simpl;
    [|intros [= <- <-]; eauto 10].
  destruct (eventhub_RandString env _) as [rid|err] eqn:Hrid; simpl;
    [|intros [= <- <-]; eauto 10].
  destruct (http_Do env _ _) as [resp|err] eqn:Hdo; simpl.
  - intros Hrun. split.
    + destruct (res_ReadAll resp) as [body|err]; [destruct (bool_decide _)|];
        injection Hrun as <- <-; reflexivity.
    + right; right. eexists _, resp, sas, rid. split; [exact Hdo|].
      destruct (res_ReadAll resp) as [body|err]; [destruct (bool_decide _)|];
        injection Hrun as <- <-; simpl; rewrite <- ?app_assoc; by repeat split.
  - intros [= <- <-]. split; [done|]. right; left. eauto 10.
Qed.

(** What [request] returns, and the exchange behind a body it returns. *)
Lemma request_summary method path deviceID b (s : State) r s' :
  request env method path deviceID b s = (r, s') ->
  exists result new,
    r = Ret result /\ trace s' = trace s ++ new /\
    (forall body, result = Ok body ->
       exists req resp,
         new = [EvHTTPDo req; EvBodyClose] /\
         http_Do env (trace s) req = Ok resp /\
         res_StatusCode resp = StatusOK /\ res_ReadAll resp = Ok body /\
         Method req = method /\ Body req = b).
Proof.
  intros H. apply request_cases in H as [_ H].
  destruct H as [(err & -> & ->)
                | [(req & err & -> & Hdo & ->)
                  | (req & resp & sas & rid & Hdo & -> & _ & _ & Hm & Hb & _ & ->)]].
  - exists (Err err), []. rewrite app_nil_r. by repeat split.
  - exists (Err err), [EvHTTPDo req]. by repeat split.
  - eexists _, _. split; [reflexivity|]. split; [reflexivity|].
    intros body Hbody. exists req, resp.
    destruct (res_ReadAll resp) as [body'|err]; [|discriminate].
    destruct (bool_decide (res_StatusCode resp <> StatusOK)) eqn:Hst; [discriminate|].
    injection Hbody as ->. apply bool_decide_eq_false in Hst.
    assert (res_StatusCode resp = StatusOK)
      by (destruct (decide (res_StatusCode resp = StatusOK)); [done | by destruct Hst]).
    by repeat split.
Qed.

(** X20.  [request] makes at most one HTTP exchange and closes the body of
    every response it obtained.  It returns a body only after an exchange,
    made with the given method and body and with the token, a request id and
    the JSON content type in its header, that was answered with status 200
    and whose body could be read; that body is what it returns. *)
Theorem request_exchange method path deviceID b (s : State) r s' :
  request env method path deviceID b s = (r, s') ->
  exists result new,
    r = Ret result /\ trace s' = trace s ++ new /\
    (new = [] \/ exists req,
       (new = [EvHTTPDo req] /\ exists err, http_Do env (trace s) req = Err err) \/
       (new = [EvHTTPDo req; EvBodyClose] /\ exists resp, http_Do env (trace s) req = Ok resp)) /\
    (forall body, result = Ok body ->
       exists req resp sas,
         new = [EvHTTPDo req; EvBodyClose] /\
         http_Do env (trace s) req = Ok resp /\
         res_StatusCode resp = StatusOK /\ res_ReadAll resp = Ok body /\
         Method req = method /\ Body req = b /\
         Header req !! "Authorization"%string = Some sas /\
         creds_SAS env (trace s) (creds (client s)) (HostName (creds (client s)))
           time_Hour = Ok sas /\
         Header req !! "Content-Type"%string
         = Some "application/json; charset=utf-8"%string /\
         is_Some (Header req !! "Request-Id"%string)).
Proof.
  intros H. apply request_cases in H as [_ H].
  destruct H as [(err & -> & ->)
                | [(req & err & -> & Hdo & ->)
                  | (req & resp & sas & rid & Hdo & -> & Hsas & Hrid & Hm & Hb & Hh & ->)]].
  - exists (Err err), []. rewrite app_nil_r. repeat split; try done. by left.
  - exists (Err err), [EvHTTPDo req]. repeat split; try done. right. exists req. left. eauto.
  - eexists _, _. split; [reflexivity|]. split; [reflexivity|]. split.
    + right. exists req. right. eauto.
    + intros body Hbody. exists req, resp, sas.
      destruct (res_ReadAll resp) as [body'|err]; [|discriminate].
      destruct (bool_decide (res_StatusCode resp <> StatusOK)) eqn:Hst; [discriminate|].
      injection Hbody as ->. apply bool_decide_eq_false in Hst.
      assert (res_StatusCode resp = StatusOK)
        by (destruct (decide (res_StatusCode resp = StatusOK)); [done | by destruct Hst]).
      rewrite Hh. by repeat split.
Qed.

(** X21.  With an empty device id, an empty method name or an empty (or
    nil) payload, [Call] returns a validation error and a nil map, the same
    for all options, collaborators and clients, and makes no request. *)
Theorem Call_validation deviceID methodName (payload : gmap string iface) :
  deviceID = ""%string \/ methodName = ""%string \/ size payload = 0%nat ->
  exists reason, forall (env' : Env) (opts : list CallOption) (s : State),
    Call env' deviceID methodName payload opts s
    = (Ret (∅, Some (errorString reason)), s).
Proof.
  intros Hbad. unfold Call.
  destruct (bool_decide (deviceID = ""%string)) eqn:Hd; [eexists; by intros|].
  destruct (bool_decide (methodName = ""%string)) eqn:Hm; [eexists; by intros|].
  destruct (bool_decide (size payload = 0%nat)) eqn:Hp; [eexists; by intros|].
  apply bool_decide_eq_false in Hd, Hm, Hp. by destruct Hbad as [?|[?|?]].
Qed.

Lemma Call_client deviceID methodName payload opts (s : State) r s' :
  Call env deviceID methodName payload opts s = (r, s') -> client s' = client s.
Proof.
  unfold Call.
  repeat (destruct (bool_decide _); [by intros [= _ <-]|]).
  destruct (apply_opts opts _) as [[v [err|]]|]; [by intros [= _ <-]| |by intros [= _ <-]].
  destruct (json_Marshal env v) as [b0|err]; [|by intros [= _ <-]].
  unfold mbind, M_mbind.
  destruct (request env "POST" "twins/%s/methods" deviceID b0 s) as [rq s1] eqn:Hreq.
  pose proof (request_summary _ _ _ _ _ _ _ Hreq) as (result & new & -> & _).
  apply request_cases in Hreq as [Hcl _].
  destruct result as [body|err]; [|by intros [= _ <-]].
  destruct (json_Unmarshal_envelope env body _) as [ir e]. by intros [= _ <-].
Qed.

(** X22.  [Call] leaves the client as it was.  It panics only when one of
    its options does (a nil option does), and then before any request; with
    options that do not panic it returns.  It returns a nil error only after
    one POST exchange answered with status 200, whose request body is the
    encoding of the call record built from the method name, the payload and
    the options; in every other case the map it returns is the one the
    decoder left, or nil when the exchange failed. *)
Theorem Call_exchange deviceID methodName payload opts (s : State) r s' :
  Call env deviceID methodName payload opts s = (r, s') ->
  client s' = client s /\
  exists new,
    trace s' = trace s ++ new /\
    (r = Panic /\ new = [] /\ (exists opt v, opt ∈ opts /\ opt v = Panic) \/
     exists m e,
       r = Ret (m, e) /\
       (e = None ->
        exists v b0 req resp body,
          apply_opts opts (mkCall methodName 0 0 payload) = Ret (v, None) /\
          json_Marshal env v = Ok b0 /\
          new = [EvHTTPDo req; EvBodyClose] /\
          Method req = "POST"%string /\ Body req = b0 /\
          http_Do env (trace s) req = Ok resp /\
          res_StatusCode resp = StatusOK /\ res_ReadAll resp = Ok body /\
          json_Unmarshal_envelope env body (mkEnvelope 0 ∅) = (mkEnvelope
            (Status (json_Unmarshal_envelope env body (mkEnvelope 0 ∅)).1) m, None))).
Proof.
  unfold Call.
  assert (Hearly : forall (m : gmap string iface) err,
    (Ret (m, Some err), s) = (r, s') ->
    client s' = client s /\
    exists new, trace s' = trace s ++ new /\
      (r = Panic /\ new = [] /\ (exists opt v, opt ∈ opts /\ opt v = Panic) \/
       exists m e, r = Ret (m, e) /\
         (e = None ->
          exists v b0 req resp body,
            apply_opts opts (mkCall methodName 0 0 payload) = Ret (v, None) /\
            json_Marshal env v = Ok b0 /\
            new = [EvHTTPDo req; EvBodyClose] /\
            Method req = "POST"%string /\ Body req = b0 /\
            http_Do env (trace s) req = Ok resp /\
            res_StatusCode resp = StatusOK /\ res_ReadAll resp = Ok body /\
            json_Unmarshal_envelope env body (mkEnvelope 0 ∅) = (mkEnvelope
              (Status (json_Unmarshal_envelope env body (mkEnvelope 0 ∅)).1) m, None)))).
  { intros m err [= <- <-]. split; [done|]. exists []. rewrite app_nil_r.
    split; [done|]. right. by exists m, (Some err). }
  destruct (bool_decide (deviceID = ""%string)); [apply Hearly|].
  destruct (bool_decide (methodName = ""%string)); [apply Hearly|].
  destruct (bool_decide (size payload = 0%nat)); [apply Hearly|].
  destruct (apply_opts opts _) as [[v [err|]]|] eqn:Hopts; [apply Hearly| |].
  2:{ intros [= <- <-]. split; [done|]. exists []. rewrite app_nil_r.
      split; [done|]. left. split; [done|]. split; [done|].
      by apply apply_opts_panic in Hopts. }
  destruct (json_Marshal env v) as [b0|err] eqn:Hmarshal; [|apply Hearly].
  clear Hearly. unfold mbind, M_mbind.
  destruct (request env "POST" "twins/%s/methods" deviceID b0 s) as [rq s1] eqn:Hreq.
  pose proof (request_summary _ _ _ _ _ _ _ Hreq) as (result & new & -> & Hnew & Hok).
  apply request_cases in Hreq as [Hcl _].
  destruct result as [body|err].
  - destruct (json_Unmarshal_envelope env body _) as [ir e] eqn:Hjson.
    intros [= <- <-]. split; [done|]. exists new. split; [done|]. right.
    exists (ir_Payload ir), e. split; [done|]. intros ->.
    destruct (Hok body eq_refl) as (req & resp & -> & Hdo & Hst & Hread & Hm & Hb).
    exists v, b0, req, resp, body. rewrite Hjson. simpl. by destruct ir.
  - intros [= <- <-]. split; [done|]. exists new. split; [done|]. right.
    by exists ∅, (Some err).
Qed.

(** *** The registry calls *)

Section RegistryProperties.

Variable codec : RegistryCodec.

(** X23.  [GetDevice] never reports a decoding failure: its error is the
    error of the request and nothing else.  When the request returns a body
    it returns the device as the decoder left it with a nil error, whatever
    error the decoder returned. *)
Theorem GetDevice_decode_error_dropped deviceID (s : State) r s' :
  GetDevice env codec deviceID s = (r, s') ->
  exists rq,
    request env "GET" "devices/%s" deviceID None s = (Ret rq, s') /\
    r = Ret (match rq with
             | Err err => (None, Some err)
             | Ok b => (Some (json_Unmarshal_Device codec b (Device_with b)).1, None)
             end).
Proof.
  unfold GetDevice, mbind, M_mbind.
  destruct (request env "GET" "devices/%s" deviceID None s) as [rq s1] eqn:Hreq.
  pose proof (request_summary _ _ _ _ _ _ _ Hreq) as (result & new & -> & _).
  destruct result as [b|err].
  - destruct (json_Unmarshal_Device codec b _) as [d e] eqn:Hjson. intros [= <- <-].
    exists (Ok b). by rewrite Hjson.
  - intros [= <- <-]. by exists (Err err).
Qed.

(** X24.  [UpdateTwin] returns either a twin or an error, never both and
    never neither; a twin it returns was decoded without error from the body
    of a PATCH request that carried the encoding of a twin holding the
    desired properties and nothing else. *)
Theorem UpdateTwin_result deviceID desired (s : State) r s' :
  UpdateTwin env codec deviceID desired s = (r, s') ->
  exists tw e,
    r = Ret (tw, e) /\
    (tw = None <-> e <> None) /\
    (forall t, tw = Some t ->
       exists b0 b,
         json_Marshal_Twin codec (Twin_with desired None) = Ok b0 /\
         request env "PATCH" "twins/%s" deviceID b0 s = (Ret (Ok b), s') /\
         json_Unmarshal_Twin codec b (Twin_with ∅ b) = (t, None)).
Proof.
  unfold UpdateTwin.
  destruct (json_Marshal_Twin codec _) as [b0|err] eqn:Hmarshal.
  2: { intros [= <- <-]. exists None, (Some err). by repeat split. }
  unfold mbind, M_mbind.
  destruct (request env "PATCH" "twins/%s" deviceID b0 s) as [rq s1] eqn:Hreq.
  pose proof (request_summary _ _ _ _ _ _ _ Hreq) as (result & new & -> & _).
  destruct result as [b|err].
  - destruct (json_Unmarshal_Twin codec b _) as [t [err|]] eqn:Hjson; intros [= <- <-].
    + exists None, (Some err). by repeat split.
    + exists (Some t), None. repeat split; try done.
      intros t' [= <-]. eauto.
  - intros [= <- <-]. exists None, (Some err). by repeat split.
Qed.

End RegistryProperties.

(** *** What the operations leave alone *)

Lemma connectToEventHub_client (s : State) r s' :
  connectToEventHub env s = (r, s') -> client s' = client s.
Proof.
  destruct (probe_user (creds (client s))) as [user|] eqn:Huser.
  2: { unfold connectToEventHub, probe_user in *. run_M. rewrite Huser.
       by intros [= _ <-]. }
  pose proof (connectToEventHub_setup s user Huser) as Hsetup. cbv zeta in Hsetup.
  destruct (creds_SAS env _ _ _ _) as [pass|err] eqn:Hsas;
    [|rewrite Hsetup; by intros [= _ <-]].
  destruct (amqp_Dial env _ _ _ _) as [conn0|err] eqn:Hdial;
    [|rewrite Hsetup; by intros [= _ <-]].
  destruct (conn_NewSession env _ _) as [sess|err] eqn:Hsess;
    [|rewrite Hsetup; by intros [= _ <-]].
  destruct (sess_NewReceiver env _ _ _) as [recv|err] eqn:Hrecv;
    [|rewrite Hsetup; by intros [= _ <-]].
  clear Hsetup.
  assert (Hprobe : probe_receives env s user pass conn0 sess recv
            (recv_Receive env
               (trace s ++ [EvAmqpDial ("amqps://" ++ HostName (creds (client s)))%string
                              user pass;
                            EvNewSession conn0; EvNewReceiver sess "messages/events/"])
               recv)).
  { unfold probe_receives. rewrite <- !app_assoc in Hrecv. by repeat split. }
  pose proof (connectToEventHub_run env s _ _ _ _ _ _ Hprobe) as Hrun'. simpl in Hrun'.
  rewrite Hrun'. clear.
  destruct (recv_Receive env _ recv) as [msg|[reason|[rerr|]|code]];
    try (by intros [= _ <-]).
  destruct (negb _); [by intros [= _ <-]|].
  destruct (redirect_target rerr) as [[group addr]|]; [|by intros [= _ <-]].
  simpl. destruct (amqp_Dial env _ addr _ _); by intros [= _ <-].
Qed.

(** X25.  Only [Connect] and [Close] write the client: the resolver, a
    send, a feedback subscription, a direct-method call and the registry
    calls return the client exactly as they found it, so its connection,
    its credentials and its closed flag are what they were. *)
Theorem operations_keep_client (s : State) :
  (forall r s', connectToEventHub env s = (r, s') -> client s' = client s) /\
  (forall deviceID payload opts r s',
     SendEvent env deviceID payload opts s = (r, s') -> client s' = client s) /\
  (forall fuel r s', SubscribeFeedback env fuel s = (r, s') -> client s' = client s) /\
  (forall deviceID methodName payload opts r s',
     Call env deviceID methodName payload opts s = (r, s') -> client s' = client s) /\
  (forall codec deviceID desired r s',
     UpdateTwin env codec deviceID desired s = (r, s') -> client s' = client s) /\
  (forall codec deviceID r s',
     GetDevice env codec deviceID s = (r, s') -> client s' = client s).
Proof.
  split; [apply connectToEventHub_client|].
  split; [intros ? ? ? ? ? H; by apply SendEvent_cases in H as [? _]|].
  split; [intros ? ? ? H; by apply SubscribeFeedback_trace in H as [? _]|].
  split; [intros ? ? ? ? ? ? H; by apply Call_client in H|].
  split.
  - intros codec deviceID desired r s'. unfold UpdateTwin.
    destruct (json_Marshal_Twin codec _) as [b0|err]; [|by intros [= _ <-]].
    unfold mbind, M_mbind.
    destruct (request env "PATCH" "twins/%s" deviceID b0 s) as [rq s1] eqn:Hreq.
    pose proof (request_summary _ _ _ _ _ _ _ Hreq) as (result & new & -> & _).
    apply request_cases in Hreq as [Hcl _].
    destruct result as [b|err]; [|by intros [= _ <-]].
    destruct (json_Unmarshal_Twin codec b _) as [t [err|]]; by intros [= _ <-].
  - intros codec deviceID r s'. unfold GetDevice, mbind, M_mbind.
    destruct (request env "GET" "devices/%s" deviceID None s) as [rq s1] eqn:Hreq.
    pose proof (request_summary _ _ _ _ _ _ _ Hreq) as (result & new & -> & _).
    apply request_cases in Hreq as [Hcl _].
    destruct result as [b|err]; [|by intros [= _ <-]].
    destruct (json_Unmarshal_Device codec b _) as [d e]. by intros [= _ <-].
Qed.

End ClientFurther.

(** *** The constructor *)

Section ConstructorProperties.

Variable parse : string -> result Credentials.

(** A field that every option of a list leaves alone is, after the option
    loop, what it was before. *)
Lemma apply_opts_keeps_field {T A} (f : T -> A) (opts : list (T -> res (T * option error))) :
  Forall (fun opt => forall x x' e, opt x = Ret (x', e) -> f x' = f x) opts ->
  forall c c' e, apply_opts opts c = Ret (c', e) -> f c' = f c.
Proof.
  induction opts as [|opt opts IH]; intros Hkeep c c' e; simpl.
  - by intros [= <- _].
  - apply Forall_cons in Hkeep as [Hopt Hkeep].
    destruct (opt c) as [[c1 [err|]]|] eqn:Ho; [| |done].
    + intros [= <- _]. by apply (Hopt c c1 (Some err)).
    + intros H. rewrite (IH Hkeep c1 c' e H). by apply (Hopt c c1 None).
Qed.

Lemma standard_client_option_keeps opt c c' e :
  standard_client_option parse opt ->
  opt c = Ret (c', e) ->
  cf_conn c' = cf_conn c /\ cf_done_closed c' = cf_done_closed c.
Proof.
  intros []; try (by intros [= <- _]).
  unfold WithConnectionString. destruct (parse cs); by intros [= <- _].
Qed.

Lemma apply_client_opts_keeps opts c c' e :
  Forall (standard_client_option parse) opts ->
  apply_opts opts c = Ret (c', e) ->
  cf_conn c' = cf_conn c /\ cf_done_closed c' = cf_done_closed c.
Proof.
  intros Hstd Hrun. split.
  - apply (apply_opts_keeps_field cf_conn opts) with (e := e); [|done].
    eapply Forall_impl; [exact Hstd|]. intros opt Hopt x x' e' Hx.
    by destruct (standard_client_option_keeps opt x x' e' Hopt Hx).
  - apply (apply_opts_keeps_field cf_done_closed opts) with (e := e); [|done].
    eapply Forall_impl; [exact Hstd|]. intros opt Hopt x x' e' Hx.
    by destruct (standard_client_option_keeps opt x x' e' Hopt Hx).
Qed.

(** X26.  A client [NewClient] returns has credentials and a REST client,
    whatever the options; built from options of the package it has no
    connection and its done channel is open; built from options that leave
    the REST client alone it has the REST client of the bundled roots.
    Options that leave the credentials alone never yield a client: when
    none of them panics [NewClient] fails, with the missing-credentials
    error unless an option failed first. *)
Theorem NewClient_result (opts : list ClientOption) :
  (forall c, NewClient opts = Ret (Ok c) ->
     is_Some (cf_creds c) /\ is_Some (cf_http c) /\
     (Forall (standard_client_option parse) opts ->
      cf_conn c = None /\ cf_done_closed c = false) /\
     (Forall (fun opt : ClientOption =>
                forall x x' e, opt x = Ret (x', e) -> cf_http x' = cf_http x) opts ->
      cf_http c = Some BundledRootsHTTP)) /\
  (Forall (fun opt : ClientOption =>
             forall x x' e, opt x = Ret (x', e) -> cf_creds x' = cf_creds x) opts ->
   (forall c, NewClient opts <> Ret (Ok c)) /\
   ((forall opt x, opt ∈ opts -> opt x <> Panic) ->
    exists err, NewClient opts = Ret (Err err))).
Proof.
  unfold NewClient. split.
  - intros c.
    destruct (apply_opts opts _) as [[c0 [err|]]|] eqn:Hopts; [discriminate| |discriminate].
    destruct (cf_creds c0) as [cr|] eqn:Hcr; [|discriminate].
    assert (Hstd : Forall (standard_client_option parse) opts ->
                   cf_conn c0 = None /\ cf_done_closed c0 = false).
    { intros Hstd. exact (apply_client_opts_keeps opts _ _ _ Hstd Hopts). }
    assert (Hhttp : Forall (fun opt : ClientOption =>
                      forall x x' e, opt x = Ret (x', e) -> cf_http x' = cf_http x) opts ->
                    cf_http c0 = None).
    { intros Hkeep. exact (apply_opts_keeps_field cf_http opts Hkeep _ _ _ Hopts). }
    destruct (cf_http c0) as [h|] eqn:Hh; intros [= <-]; simpl;
      rewrite ?Hcr, ?Hh; (split; [by eexists|]); (split; [by eexists|]);
      (split; [done|]); [|done].
    intros Hkeep. by specialize (Hhttp Hkeep).
  - intros Hkeep.
    pose proof (apply_opts_keeps_field cf_creds opts Hkeep
                  (mkClientFields None false None None false None)) as Hcr.
    destruct (apply_opts opts _) as [[c0 [err|]]|] eqn:Hopts.
    + split; [done | eauto].
    + rewrite (Hcr c0 None eq_refl). simpl. split; [done | eauto].
    + split; [done|]. intros Hno.
      apply apply_opts_panic in Hopts as (opt & x & Hin & Hp).
      destruct (Hno opt x Hin Hp).
Qed.

End ConstructorProperties.

(** ** The further statements on the sample collaborators *)

Lemma ToAMQPMessage_FromAMQPMessage_witness :
  exists m,
    commonamqp.FromAMQPMessage (fun _ => ""%string) (commonamqp.ToAMQPMessage sample_message)
    = Ret (m, None) /\
    commonamqp.ToAMQPMessage m = commonamqp.ToAMQPMessage sample_message.
Proof.
  apply ToAMQPMessage_FromAMQPMessage.
  split; [by eexists|]. split; [eexists; by repeat split|]. split; [done|].
  rewrite ToAMQPMessage_ApplicationProperties.
  intros k v Hk. by apply lookup_fmap_Some in Hk as (x & <- & _).
Defined.

Lemma FromAMQPMessage_Properties_witness :
  exists m,
    commonamqp.FromAMQPMessage (fun _ => "formatted"%string) sample_event = Ret (m, None) /\
    Properties m !! "color"%string = Some "red"%string.
Proof.
  eexists. split; [vm_compute; reflexivity|].
  destruct (FromAMQPMessage_Properties (fun _ => "formatted"%string) sample_event _ None
              ltac:(vm_compute; reflexivity)) as (_ & Happ & _).
  destruct (Happ "color"%string (VString "red") eq_refl) as (c & [= <-] & Hc).
  exact Hc.
Defined.

Lemma FromAMQPMessage_header_witness :
  exists m,
    commonamqp.FromAMQPMessage (fun _ => "formatted"%string) sample_event = Ret (m, None) /\
    (exists rest, am_Data sample_event = Payload m :: rest) /\
    MessageID m = ""%string.
Proof.
  eexists. split; [vm_compute; reflexivity|].
  destruct (FromAMQPMessage_header (fun _ => "formatted"%string) sample_event _ None
              ltac:(vm_compute; reflexivity)) as (Hdata & Hmid & _).
  split; [exact Hdata | exact Hmid].
Defined.

Lemma FromAMQPMessage_system_annotations_witness :
  exists m,
    commonamqp.FromAMQPMessage (fun _ => "formatted"%string) sample_event = Ret (m, None) /\
    system_field (VString "iothub-connection-device-id") m = VString "device-1" /\
    system_field (VString "iothub-message-source") m = VString "".
Proof.
  eexists. split; [vm_compute; reflexivity|].
  assert (Hnd : NoDup (am_Annotations sample_event).*1).
  { simpl. repeat (apply NoDup_cons; split; [rewrite ?elem_of_cons, elem_of_nil; intuition discriminate|]).
    apply NoDup_nil_2. }
  split.
  - apply (proj1 (FromAMQPMessage_system_annotations (fun _ => "formatted"%string)
                    sample_event _ None (VString "iothub-connection-device-id")
                    ltac:(vm_compute; reflexivity) Hnd
                    ltac:(unfold system_annotations; rewrite !elem_of_cons; tauto))).
    simpl. rewrite !elem_of_cons. tauto.
  - apply (proj2 (FromAMQPMessage_system_annotations (fun _ => "formatted"%string)
                    sample_event _ None (VString "iothub-message-source")
                    ltac:(vm_compute; reflexivity) Hnd
                    ltac:(unfold system_annotations; rewrite !elem_of_cons; tauto))).
    simpl. rewrite !elem_of_cons, elem_of_nil. intuition discriminate.
Defined.

Lemma SendEvent_one_link_witness :
  let env := sample_env (Err (ExternalError 7)) None (Ok []) in
  (exists new,
     trace (SendEvent env "device-1" (bytes_of_string "ping") [] sample_connected).2
     = trace sample_connected ++ new /\
     length new = 3%nat) /\
  (SendEvent env "device-1" (bytes_of_string "ping") [fun _ => Panic] sample_connected
   = (Panic, sample_connected) /\
   exists (opt : SendOption) m, opt ∈ [(fun _ => Panic) : SendOption] /\ opt m = Panic).
Proof.
  intros env. split.
  - destruct (SendEvent_one_link env "device-1" (bytes_of_string "ping") [] sample_connected
                _ _ eq_refl) as (_ & new & Hnew & _).
    exists new. split; [exact Hnew|].
    vm_compute in Hnew. by injection Hnew as <-.
  - split; [reflexivity|].
    destruct (SendEvent_one_link env "device-1" (bytes_of_string "ping")
                [fun _ => Panic] sample_connected _ _ eq_refl)
      as (_ & new & _ & [(_ & _ & Hopt)|(result & Hr & _)]);
      [exact Hopt | discriminate Hr].
Defined.

Lemma SendEvent_unknown_ack_witness :
  let env := sample_env (Err (ExternalError 7)) None (Ok []) in
  exists err,
    SendEvent env "device-1" (bytes_of_string "ping")
      [WithSendMessageID "message-1"; WithSendAck env "maybe"] sample_connected
    = (Ret (Some err), sample_connected).
Proof.
  intros env.
  destruct (SendEvent_unknown_ack env "maybe" "device-1" (bytes_of_string "ping")
              [WithSendMessageID "message-1"; WithSendAck env "maybe"] sample_connected)
    as (r & Hrun & _ & Hret).
  - unfold AckNone, AckPositive, AckNegative, AckFull.
    rewrite !elem_of_cons, elem_of_nil. intuition discriminate.
  - apply elem_of_cons. right. apply list_elem_of_here.
  - destruct Hret as [err ->]; [|by exists err].
    intros opt m Hin. rewrite !elem_of_cons, elem_of_nil in Hin.
    destruct Hin as [->|[->|[]]]; vm_compute; discriminate.
Defined.

Lemma SendEvent_sends_payload_witness :
  let env := sample_env (Err (ExternalError 7)) None (Ok []) in
  let wire := commonamqp.ToAMQPMessage
                (mkMessage "message-1" "/devices/device-1/messages/devicebound" 0 0 "" ""
                   "" "" "" "" (bytes_of_string "ping") {["iothub-ack" := "full"]}) in
  am_Data wire = [bytes_of_string "ping"] /\
  exists p, am_Properties wire = Some p /\ mp_To p = devicebound_address "device-1".
Proof.
  intros env wire.
  apply (SendEvent_sends_payload env "device-1" (bytes_of_string "ping")
           [WithSendMessageID "message-1"; WithSendAck env AckFull] sample_connected
           _ _ [EvNewSender 2%nat "/messages/devicebound"; EvSend 6%nat wire; EvLinkClose 6%nat]
           ltac:(repeat constructor) eq_refl eq_refl 6%nat wire).
  apply elem_of_cons. right. apply list_elem_of_here.
Defined.

Lemma Close_after_reconnect_witness :
  let env := sample_env (Err (ExternalError 7)) None (Ok []) in
  conn (client (Connect env sample_closed).2) = Some 1%nat /\
  Close env (Connect env sample_closed).2 = (Ret None, (Connect env sample_closed).2).
Proof.
  intros env. split; [reflexivity|].
  apply (Close_after_reconnect env sample_closed (Connect env sample_closed).1
           (Connect env sample_closed).2 eq_refl eq_refl).
Defined.

Lemma redirect_target_format_witness :
  redirect_target
    (mkAmqpError ErrorLinkRedirect ""
       {["address" := VString "amqps://ihsuprodblres007dednamespace.servicebus.windows.net:5671/iothub-ehub-hub-1/$management/";
         "hostname" := VString "ihsuprodblres007dednamespace.servicebus.windows.net"]})
  = Ret ("iothub-ehub-hub-1/$management",
         "amqps://ihsuprodblres007dednamespace.servicebus.windows.net").
Proof.
  apply (redirect_target_format _ "amqps" "ihsuprodblres007dednamespace.servicebus.windows.net"
           "iothub-ehub-hub-1/$management"
           "ihsuprodblres007dednamespace.servicebus.windows.net");
    reflexivity.
Defined.

Lemma redirect_target_without_marker_witness :
  redirect_target
    (mkAmqpError ErrorLinkRedirect ""
       {["address" := VString "host/mygroup/"; "hostname" := VString "h.example.com"]})
  = Ret ("mygroup", "amqps://h.example.com").
Proof.
  apply (redirect_target_without_marker _ "host/mygroup/" "h.example.com"); reflexivity.
Defined.

Lemma probe_user_cut_witness :
  probe_user sample_creds = Ret "service@sas.root.hub"%string /\
  connectToEventHub (sample_env (Err (ExternalError 7)) None (Ok []))
    (new_client (mkCredentials "hub" "k" "c2VjcmV0"))
  = (Panic, new_client (mkCredentials "hub" "k" "c2VjcmV0")).
Proof.
  split.
  - apply (proj1 (probe_user_cut (sample_env (Err (ExternalError 7)) None (Ok [])))
             sample_creds).
    exists ".azure-devices.net"%string. split; reflexivity.
  - apply (proj2 (probe_user_cut (sample_env (Err (ExternalError 7)) None (Ok [])))).
    vm_compute. reflexivity.
Defined.

Lemma connectToEventHub_setup_failure_witness :
  let env := sample_env_of (Ok sample_pass) (Ok 3%nat) (Ok 4%nat) (Err (ExternalError 5))
               (Err (ExternalError 7)) (Err (ExternalError 8)) in
  connectToEventHub env sample_fresh
  = (Ret (None, ""%string, Some (ExternalError 5)),
     mkState (client sample_fresh)
       [EvAmqpDial "amqps://hub.azure-devices.net" sample_user sample_pass;
        EvNewSession 3%nat; EvNewReceiver 4%nat "messages/events/";
        EvSessionClose 4%nat; EvConnClose (Some 3%nat)]).
Proof.
  intros env.
  destruct (connectToEventHub_setup_failure env sample_fresh sample_user eq_refl)
    as [_ Hpass].
  destruct (Hpass sample_pass eq_refl) as [_ Hconn].
  destruct (Hconn 3%nat eq_refl) as [_ Hlink].
  exact (Hlink 4%nat (ExternalError 5) eq_refl eq_refl).
Defined.


Lemma connectToEventHub_redirect_without_info_witness :
  let redirect := DetachError (Some (mkAmqpError ErrorLinkRedirect ""
                                 {["hostname" := VString "redirected.example.com"]})) in
  connectToEventHub (sample_env (Err redirect) None (Ok [])) sample_fresh
  = (Panic,
     mkState (client sample_fresh)
       (probe_trace sample_fresh sample_user sample_pass 3%nat 4%nat 5%nat
        ++ [EvLinkClose 5%nat; EvSessionClose 4%nat; EvConnClose (Some 3%nat)])).
Proof.
  intros redirect.
  apply (connectToEventHub_redirect_without_info
           (sample_env (Err redirect) None (Ok [])) sample_fresh
           sample_user sample_pass 3%nat 4%nat 5%nat
           (mkAmqpError ErrorLinkRedirect ""
              {["hostname"%string := VString "redirected.example.com"]})
           ltac:(repeat split; reflexivity) eq_refl).
  left. reflexivity.
Defined.

Lemma SubscribeFeedback_receive_error_witness :
  let env := sample_env (Ok sample_delivery) None (Ok sample_records) in
  exists sn,
    SubscribeFeedback env 1 sample_connected = (Ret Running, sn) /\
    SubscribeFeedback env 9 sample_connected
    = (Ret (Returned (Some (ExternalError 7))),
       mkState (client sample_connected)
         (trace sn ++ [EvReceive 5%nat; EvLinkClose 5%nat])) /\
    dispatched (trace sn) = sample_records.
Proof.
  intros env. eexists.
  destruct (SubscribeFeedback_receive_error env sample_connected _ 1%nat 5%nat
              (ExternalError 7) 1%nat 9%nat eq_refl eq_refl
              ltac:(eapply rounds_S; [reflexivity | reflexivity | reflexivity | apply rounds_O])
              eq_refl) as (Hrun & Hret & _).
  split; [exact Hrun|]. split; [apply Hret; lia | reflexivity].
Defined.

Lemma feedback_loop_bad_body_witness :
  feedback_loop (sample_env (Ok sample_empty_delivery) None (Ok [])) 5%nat 1 sample_connected
  = (Panic,
     mkState (client sample_connected)
       (trace sample_connected ++ [EvReceive 5%nat; EvAccept sample_empty_delivery])) /\
  feedback_loop
    (sample_env (Ok sample_delivery) None (Err (errorString "invalid character")))
    5%nat 1 sample_connected
  = (Ret (Returned (Some (errorString "invalid character"))),
     mkState (client sample_connected)
       (trace sample_connected ++ [EvReceive 5%nat; EvAccept sample_delivery])).
Proof.
  split.
  - apply (proj1 (feedback_loop_bad_body
                    (sample_env (Ok sample_empty_delivery) None (Ok []))
                    5%nat 0%nat sample_connected sample_empty_delivery eq_refl)).
    reflexivity.
  - apply (proj2 (feedback_loop_bad_body
                    (sample_env (Ok sample_delivery) None
                       (Err (errorString "invalid character")))
                    5%nat 0%nat sample_connected sample_delivery eq_refl)
             (bytes_of_string "[{},null]") [] (errorString "invalid character")
             eq_refl eq_refl).
Defined.

Lemma request_exchange_witness :
  let env := sample_env_of (Ok sample_pass) (Ok 3%nat) (Ok 4%nat) (Ok 5%nat)
               (Err (ExternalError 7))
               (Ok (mkResponse 404 (Ok (bytes_of_string "not found")))) in
  exists result new,
    request env "GET" "devices/%s" "device-1" None sample_fresh = (Ret result, mkState (client sample_fresh) new) /\
    (forall body, result <> Ok body) /\
    exists req, new = [EvHTTPDo req; EvBodyClose].
Proof.
  intros env.
  destruct (request_exchange env "GET" "devices/%s" "device-1" None sample_fresh _ _ eq_refl)
    as (result & new & Hr & Hnew & _ & Hok).
  exists result, new. vm_compute in Hr. vm_compute in Hnew.
  injection Hr as <-. subst new. split; [reflexivity|]. split; [discriminate|].
  eexists. reflexivity.
Defined.

Lemma Call_validation_witness :
  exists reason, forall (env' : Env) (opts : list CallOption) (s : State),
    Call env' "device-1" "reboot" ∅ opts s = (Ret (∅, Some (errorString reason)), s).
Proof. apply Call_validation. right; right. reflexivity. Defined.

Lemma Call_exchange_witness :
  let env := sample_env (Err (ExternalError 7)) None (Ok []) in
  (exists req,
     trace (Call env "device-1" "reboot" {["delay"%string := VInt 5]}
              [WithCallConnectTimeout 30] sample_fresh).2
     = [EvHTTPDo req; EvBodyClose] /\
     Method req = "POST"%string) /\
  (Call env "device-1" "reboot" {["delay"%string := VInt 5]} [fun _ => Panic] sample_fresh
   = (Panic, sample_fresh) /\
   exists (opt : CallOption) v, opt ∈ [(fun _ => Panic) : CallOption] /\ opt v = Panic).
Proof.
  intros env. split.
  - destruct (Call_exchange env "device-1" "reboot" {["delay"%string := VInt 5]}
                [WithCallConnectTimeout 30] sample_fresh _ _ (surjective_pairing _))
      as (_ & new & Hnew & [(Hr & _)|(m & e & Hr & Hok)]).
    { vm_compute in Hr. discriminate Hr. }
    vm_compute in Hr. injection Hr as <- <-.
    destruct (Hok eq_refl) as (v & b0 & req & resp & body & _ & _ & Hshape & Hm & _).
    exists req. rewrite Hnew, Hshape. split; [reflexivity | exact Hm].
  - split; [vm_compute; reflexivity|].
    destruct (Call_exchange env "device-1" "reboot" {["delay"%string := VInt 5]}
                [fun _ => Panic] sample_fresh _ _ (surjective_pairing _))
      as (_ & new & _ & [(_ & _ & Hopt)|(m & e & Hr & _)]).
    + exact Hopt.
    + vm_compute in Hr. discriminate Hr.
Defined.

Lemma GetDevice_decode_error_dropped_witness :
  let env := sample_env (Err (ExternalError 7)) None (Ok []) in
  (GetDevice env sample_codec "device-1" sample_fresh).1
  = Ret (Some (Device_with None), None).
Proof.
  intros env.
  destruct (GetDevice_decode_error_dropped env sample_codec "device-1" sample_fresh _ _ eq_refl)
    as (rq & Hreq & Hr).
  vm_compute in Hreq. injection Hreq as <-. exact Hr.
Defined.

Lemma UpdateTwin_result_witness :
  let env := sample_env (Err (ExternalError 7)) None (Ok []) in
  exists e,
    (UpdateTwin env sample_codec "device-1" {["interval"%string := VInt 5]} sample_fresh).1
    = Ret (None, Some e).
Proof.
  intros env.
  destruct (UpdateTwin_result env sample_codec "device-1" {["interval"%string := VInt 5]}
              sample_fresh _ _ eq_refl) as (tw & e & Hr & Hiff & _).
  vm_compute in Hr. injection Hr as <- <-. eexists. reflexivity.
Defined.

Lemma operations_keep_client_witness :
  let env := sample_env (Err sample_redirect) None (Ok []) in
  client (connectToEventHub env sample_connected).2 = client sample_connected /\
  client (SubscribeFeedback env 4 sample_connected).2 = client sample_connected.
Proof.
  intros env.
  destruct (operations_keep_client env sample_connected) as (Hresolve & _ & Hfeedback & _).
  split.
  - apply (Hresolve (connectToEventHub env sample_connected).1). reflexivity.
  - apply (Hfeedback 4%nat (SubscribeFeedback env 4 sample_connected).1). reflexivity.
Defined.

Lemma NewClient_result_witness :
  (exists c,
     NewClient [WithDebug true; WithConnectionString sample_parse "HostName=hub"]
     = Ret (Ok c) /\
     cf_conn c = None /\ cf_http c = Some BundledRootsHTTP) /\
  (exists err, NewClient [WithDebug true; WithLogger (Some 1%nat)] = Ret (Err err)).
Proof.
  split.
  - eexists. split; [reflexivity|].
    destruct (proj1 (NewClient_result sample_parse
                       [WithDebug true; WithConnectionString sample_parse "HostName=hub"])
                _ eq_refl) as (_ & _ & Hstd & Hhttp).
    split; [apply Hstd; repeat constructor|].
    apply Hhttp. repeat apply Forall_cons_2; [| |apply Forall_nil_2].
    + by intros x x' e [= <- _].
    + intros x x' e. unfold WithConnectionString.
      destruct (sample_parse _); by intros [= <- _].
  - apply (proj2 (NewClient_result sample_parse [WithDebug true; WithLogger (Some 1%nat)])).
    + repeat apply Forall_cons_2; [| |apply Forall_nil_2]; by intros x x' e [= <- _].
    + intros opt x Hin. rewrite !elem_of_cons, elem_of_nil in Hin.
      destruct Hin as [->|[->|[]]]; discriminate.
Defined.
